(** * Report share links of the test-management backend

    A shallow embedding of [backend/src/utils/shareToken.ts] and
    [backend/src/controllers/reportController.ts], together with the parts of
    the platform they rest on: the ECMAScript [Date] operations used by
    [addDays], [Buffer.toString] in its two base64 flavours, and the
    [report_share_links] table of the Prisma migration.  Further on: the
    CSRF cookie of [backend/src/middleware/csrf.ts], the test-case service
    (listing, creating, deleting, reordering and moving test cases), and
    helpers of the frontend: the status badge and the sections of the plan
    page, HTML escaping and the CSV text of [frontend/src/utils/export.ts]. *)

From Stdlib Require Import ZArith Lia Ascii String List Sorting.Permutation.
From stdpp Require Import gmap strings list sorting pretty.

Set Warnings "-register-all".

Open Scope Z_scope.

(** ** JavaScript values that reach the handlers *)

(** JSON documents, as written by [res.json].  A [Date] is kept apart from a
    number; its wire form is the ISO string of the same time value. *)
Inductive json : Type :=
| JNull
| JBool (b : bool)
| JNum (n : Z)
| JStr (s : string)
| JDate (t : Z)
| JArr (items : list json)
| JObj (fields : list (string * json)).

(** [!x] for the two shapes the controller tests: [string | null] and
    [Date | null].  The empty string is falsy, every [Date] object is truthy. *)
Definition truthy_id (x : option string) : bool :=
  match x with
  | Some s => negb (String.eqb s EmptyString)
  | None => false
  end.

Definition truthy_date (x : option Z) : bool :=
  match x with
  | Some _ => true
  | None => false
  end.

Definition truthy_string (s : string) : bool := negb (String.eqb s EmptyString).

(** Property lookup and the object spread [{ ...o, k: v }]: an existing key
    keeps its place and takes the new value, a new key goes last. *)
Fixpoint obj_get (k : string) (o : list (string * json)) : option json :=
  match o with
  | [] => None
  | (k', v) :: o' => if String.eqb k k' then Some v else obj_get k o'
  end.

Fixpoint obj_set (k : string) (v : json) (o : list (string * json)) : list (string * json) :=
  match o with
  | [] => [(k, v)]
  | (k', v') :: o' =>
      if String.eqb k k' then (k', v) :: o' else (k', v') :: obj_set k v o'
  end.

Definition json_of_id (x : option string) : json :=
  match x with Some s => JStr s | None => JNull end.

Definition json_of_date (x : option Z) : json :=
  match x with Some t => JDate t | None => JNull end.

(** ** ECMAScript time values

    A time value is the number of milliseconds since the epoch, here an
    integer.  The functions follow the "Date Objects" clause of ECMA-262. *)
Module JsDate.

Definition msPerDay : Z := 86400000.

Definition Day (t : Z) : Z := t / msPerDay.
Definition TimeWithinDay (t : Z) : Z := t mod msPerDay.

Definition isLeapYear (y : Z) : bool :=
  if negb (y mod 4 =? 0) then false
  else if negb (y mod 100 =? 0) then true
  else if negb (y mod 400 =? 0) then false
  else true.

Definition DaysInYear (y : Z) : Z := if isLeapYear y then 366 else 365.

Definition DayFromYear (y : Z) : Z :=
  365 * (y - 1970) + (y - 1969) / 4 - (y - 1901) / 100 + (y - 1601) / 400.

Definition TimeFromYear (y : Z) : Z := msPerDay * DayFromYear y.

(** The largest [y] with [TimeFromYear y <= t]: a first guess from the mean
    length of a Gregorian year, moved by one year where it is off. *)
Definition YearFromDay (d : Z) : Z :=
  let y := 1970 + (d * 400) / 146097 in
  if d <? DayFromYear y then y - 1
  else if DayFromYear (y + 1) <=? d then y + 1
  else y.

Definition YearFromTime (t : Z) : Z := YearFromDay (Day t).

Definition DayWithinYear (t : Z) : Z := Day t - DayFromYear (YearFromTime t).

Definition InLeapYear (t : Z) : Z :=
  if isLeapYear (YearFromTime t) then 1 else 0.

(** Day number, within its year, of the first day of month [m] (0 to 11). *)
Definition monthStart (leap : Z) (m : Z) : Z :=
  if m <=? 0 then 0
  else if m =? 1 then 31
  else if m =? 2 then 59 + leap
  else if m =? 3 then 90 + leap
  else if m =? 4 then 120 + leap
  else if m =? 5 then 151 + leap
  else if m =? 6 then 181 + leap
  else if m =? 7 then 212 + leap
  else if m =? 8 then 243 + leap
  else if m =? 9 then 273 + leap
  else if m =? 10 then 304 + leap
  else 334 + leap.

Definition MonthFromTime (t : Z) : Z :=
  let d := DayWithinYear t in
  let leap := InLeapYear t in
  if d <? 31 then 0
  else if d <? 59 + leap then 1
  else if d <? 90 + leap then 2
  else if d <? 120 + leap then 3
  else if d <? 151 + leap then 4
  else if d <? 181 + leap then 5
  else if d <? 212 + leap then 6
  else if d <? 243 + leap then 7
  else if d <? 273 + leap then 8
  else if d <? 304 + leap then 9
  else if d <? 334 + leap then 10
  else 11.

Definition DateFromTime (t : Z) : Z :=
  DayWithinYear t - monthStart (InLeapYear t) (MonthFromTime t) + 1.

(** [MakeDay]: the day number of the first of month [month mod 12] in year
    [year + floor (month / 12)], moved on by [date - 1]. *)
Definition MakeDay (year month date : Z) : Z :=
  let ym := year + month / 12 in
  let mn := month mod 12 in
  DayFromYear ym + monthStart (if isLeapYear ym then 1 else 0) mn + date - 1.

Definition MakeDate (day time : Z) : Z := day * msPerDay + time.

(** [TimeClip]: a time value lies within 8.64e15 ms of the epoch; what lies
    beyond is [NaN], the time value of an Invalid Date, here [None].  Every
    number met on the way to a time value in that range is an integer below
    2^53, which a double holds exactly. *)
Definition maxTime : Z := 8640000000000000.

Definition TimeClip (t : Z) : option Z :=
  if Z.abs t <=? maxTime then Some t else None.

Section LocalTime.
(** The host's time zone: [LocalTZA t true] is the offset of local time
    from UTC at the UTC instant [t], [LocalTZA t false] the offset to use
    for the local time [t]. *)
Variable LocalTZA : Z -> bool -> Z.

Definition LocalTime (t : Z) : Z := t + LocalTZA t true.
Definition UTC (t : Z) : Z := t - LocalTZA t false.

(** [Date.prototype.getDate] and [Date.prototype.setDate], on a Date
    whose time value [d] is valid; [setDate] gives the Date's new time
    value. *)
Definition getDate (d : Z) : Z := DateFromTime (LocalTime d).

Definition setDate (d : Z) (date : Z) : option Z :=
  let t := LocalTime d in
  let newDate :=
    MakeDate (MakeDay (YearFromTime t) (MonthFromTime t) date) (TimeWithinDay t) in
  TimeClip (UTC newDate).
End LocalTime.

End JsDate.

(** ** reportController.ts: [addDays]

    [date] is the time value of a valid Date; the Date returned has the
    time value that [setDate] leaves in the copy, [None] when it is
    invalid. *)

Definition SHARE_EXPIRES_DAYS : Z := 7.

Definition addDays (LocalTZA : Z -> bool -> Z) (date : Z) (days : Z) : option Z :=
  let d := date in
  JsDate.setDate LocalTZA d (JsDate.getDate LocalTZA d + days).

(** ** shareToken.ts

    [Buffer.prototype.toString] for the encodings ['base64url'] (RFC 4648
    section 5, written without padding) and ['base64'] (section 4, padded). *)
Module Base64.

Definition alphabet_std : string :=
  "ABCDEFGHIJKLMNOPQRSTUVWXYZabcdefghijklmnopqrstuvwxyz0123456789+/".
Definition alphabet_url : string :=
  "ABCDEFGHIJKLMNOPQRSTUVWXYZabcdefghijklmnopqrstuvwxyz0123456789-_".

Definition pad_char : ascii := "="%char.

Definition sextet_char (alphabet : string) (n : N) : ascii :=
  nth (N.to_nat n) (list_ascii_of_string alphabet) pad_char.

(** The four 6-bit groups of three octets. *)
Definition sextet0 (a : N) : N := N.shiftr a 2.
Definition sextet1 (a b : N) : N := N.lor (N.shiftl (N.land a 3) 4) (N.shiftr b 4).
Definition sextet2 (b c : N) : N := N.lor (N.shiftl (N.land b 15) 2) (N.shiftr c 6).
Definition sextet3 (c : N) : N := N.land c 63.

Fixpoint encode (alphabet : string) (padded : bool) (buf : list Byte.byte) : list ascii :=
  let ch := sextet_char alphabet in
  match buf with
  | [] => []
  | [a] =>
      let a := Byte.to_N a in
      [ch (sextet0 a); ch (sextet1 a 0)]
        ++ (if padded then [pad_char; pad_char] else [])
  | [a; b] =>
      let a := Byte.to_N a in
      let b := Byte.to_N b in
      [ch (sextet0 a); ch (sextet1 a b); ch (sextet2 b 0)]
        ++ (if padded then [pad_char] else [])
  | a :: b :: c :: rest =>
      let a := Byte.to_N a in
      let b := Byte.to_N b in
      let c := Byte.to_N c in
      [ch (sextet0 a); ch (sextet1 a b); ch (sextet2 b c); ch (sextet3 c)]
        ++ encode alphabet padded rest
  end.

Definition toString_base64url (buf : list Byte.byte) : string :=
  string_of_list_ascii (encode alphabet_url false buf).

Definition toString_base64 (buf : list Byte.byte) : string :=
  string_of_list_ascii (encode alphabet_std true buf).

End Base64.

(** [s.replace(/c/g, d)] for a one-character pattern, and
    [s.replace(/=+$/g, '')]. *)
Definition replace_char (c d : ascii) (s : string) : string :=
  string_of_list_ascii
    (map (fun x => if Ascii.eqb x c then d else x) (list_ascii_of_string s)).

Fixpoint drop_leading (c : ascii) (l : list ascii) : list ascii :=
  match l with
  | [] => []
  | x :: l' => if Ascii.eqb x c then drop_leading c l' else l
  end.

Definition strip_trailing (c : ascii) (s : string) : string :=
  string_of_list_ascii (rev (drop_leading c (rev (list_ascii_of_string s)))).

(** [crypto.randomBytes(n)]: the next [n] octets of the generator's output,
    which is a stream [source] read from position [cursor]. *)
Definition randomBytes (source : nat -> Byte.byte) (cursor : nat) (n : nat)
  : list Byte.byte :=
  map source (seq cursor n).

Definition generateShareToken (source : nat -> Byte.byte) (cursor : nat)
    (bytes : nat) : string :=
  let buf := randomBytes source cursor bytes in
  let token := Base64.toString_base64url buf in
  if truthy_string token then token
  else
    strip_trailing "="
      (replace_char "/" "_" (replace_char "+" "-" (Base64.toString_base64 buf))).

(** The characters a URL-safe token may contain. *)
Definition is_url_safe (c : ascii) : bool :=
  let n := N_of_ascii c in
  ((65 <=? n) && (n <=? 90))%N        (* A-Z *)
  || ((97 <=? n) && (n <=? 122))%N    (* a-z *)
  || ((48 <=? n) && (n <=? 57))%N     (* 0-9 *)
  || (n =? 45)%N                      (* - *)
  || (n =? 95)%N.                     (* _ *)

(** ** The store

    Rows as Prisma hands them to the controller.  Columns the controller
    never reads are kept, in column order, as already serialised fields. *)
Module Folder.
Record t := { name : string; parentId : option string }.
End Folder.

Module TestCase.
Record t := {
  scalars : list (string * json);
  sequence : Z;
  folderId : option string }.
End TestCase.

Module PlanItem.
Record t := {
  scalars : list (string * json);
  order : Z;
  testCase : TestCase.t }.
End PlanItem.

Module Plan.
Record t := {
  scalars : list (string * json);
  items : list PlanItem.t }.
End Plan.

(** A row of [report_share_links] (migration 20260107105944). *)
Module ReportShareLink.
Record t := {
  id : string;
  token : string;
  planId : string;
  createdByUserId : string;
  createdAt : Z;
  expiresAt : Z;
  revokedAt : option Z }.

Definition set_revokedAt (v : option Z) (l : t) : t :=
  {| id := id l; token := token l; planId := planId l;
     createdByUserId := createdByUserId l; createdAt := createdAt l;
     expiresAt := expiresAt l; revokedAt := v |}.
End ReportShareLink.

Record Db := {
  plans : gmap string Plan.t;           (* keyed by plans.id *)
  folders : gmap string Folder.t;       (* keyed by folders.id *)
  reportShareLinks : list ReportShareLink.t }.

Definition with_links (db : Db) (ls : list ReportShareLink.t) : Db :=
  {| plans := plans db; folders := folders db; reportShareLinks := ls |}.

(** What a rejected Prisma call throws: [code] is the thrown object's [code]
    property when it has one. *)
Record Thrown := { code : option string }.

(** The host around one request. *)
Record Env := {
  clock : Z;                           (* [new Date()] in the handler *)
  LocalTZA : Z -> bool -> Z;           (* the server's time zone *)
  randomSource : nat -> Byte.byte;     (* output of the system generator *)
  storeFault : nat -> option Thrown;   (* failure of the n-th insert, if any *)
  storeClock : nat -> Z;               (* CURRENT_TIMESTAMP at the n-th insert *)
  storeCuid : nat -> string;           (* primary key given to the n-th insert *)
  linkRank : ReportShareLink.t -> Z;   (* where the store puts a row among *)
  itemRank : PlanItem.t -> Z }.        (* rows equal in every sort key *)

(** *** Queries *)

Definition findUnique_by_id (db : Db) (id : string) : option ReportShareLink.t :=
  find (fun l => String.eqb (ReportShareLink.id l) id) (reportShareLinks db).

Definition findUnique_by_token (db : Db) (token : string) : option ReportShareLink.t :=
  find (fun l => String.eqb (ReportShareLink.token l) token) (reportShareLinks db).

Record CreateData := {
  data_token : string;
  data_planId : string;
  data_createdByUserId : string;
  data_expiresAt : option Z }.          (* a [Date]; [None] when it is invalid *)

(** [prisma.reportShareLink.create]: an Invalid Date is no [DateTime] (the
    client rejects the call with a validation error, which has no [code],
    before the store is asked); the primary key and [token] are unique
    (P2002 otherwise), [planId] references [plans] (P2003 otherwise);
    [createdAt] takes the column default and [revokedAt] starts null. *)
Definition reportShareLink_create (db : Db) (fault : option Thrown) (ts : Z)
    (cuid : string) (data : CreateData) : Thrown + (Db * ReportShareLink.t) :=
  match data_expiresAt data with
  | None => inl {| code := None |}
  | Some expiresAt =>
      match fault with
      | Some e => inl e
      | None =>
          if existsb (fun l => String.eqb (ReportShareLink.token l) (data_token data)
                               || String.eqb (ReportShareLink.id l) cuid)
               (reportShareLinks db)
          then inl {| code := Some "P2002"%string |}
          else
            match plans db !! data_planId data with
            | None => inl {| code := Some "P2003"%string |}
            | Some _ =>
                let link :=
                  {| ReportShareLink.id := cuid;
                     ReportShareLink.token := data_token data;
                     ReportShareLink.planId := data_planId data;
                     ReportShareLink.createdByUserId := data_createdByUserId data;
                     ReportShareLink.createdAt := ts;
                     ReportShareLink.expiresAt := expiresAt;
                     ReportShareLink.revokedAt := None |} in
                inr (with_links db (reportShareLinks db ++ [link]), link)
            end
      end
  end.

(** [prisma.reportShareLink.update({ where: { id }, data: { revokedAt } })];
    [None] when no row has that id (Prisma then throws). *)
Definition reportShareLink_update_revokedAt (db : Db) (id : string) (v : Z)
  : option (Db * ReportShareLink.t) :=
  match findUnique_by_id db id with
  | None => None
  | Some l =>
      Some (with_links db
              (map (fun x => if String.eqb (ReportShareLink.id x) id
                             then ReportShareLink.set_revokedAt (Some v) x else x)
                 (reportShareLinks db)),
            ReportShareLink.set_revokedAt (Some v) l)
  end.

(** An [orderBy] fixes the order of the rows it tells apart; rows equal in
    every sort key come in an order of the store's choosing, which may
    differ from one query to the next: the [rank] of the request's host. *)

(** [orderBy: { createdAt: 'desc' }] *)
Definition newer_first_ranked (rank : ReportShareLink.t -> Z)
    (a b : ReportShareLink.t) : Prop :=
  ReportShareLink.createdAt b < ReportShareLink.createdAt a
  \/ (ReportShareLink.createdAt b = ReportShareLink.createdAt a /\ rank a <= rank b).

#[global] Instance newer_first_ranked_dec rank a b : Decision (newer_first_ranked rank a b).
Proof. unfold newer_first_ranked. apply _. Defined.


(** [orderBy: [{ order: 'asc' }, { testCase: { sequence: 'asc' } }]] *)
Definition item_before_ranked (rank : PlanItem.t -> Z) (a b : PlanItem.t) : Prop :=
  PlanItem.order a < PlanItem.order b
  \/ (PlanItem.order a = PlanItem.order b
      /\ (TestCase.sequence (PlanItem.testCase a) < TestCase.sequence (PlanItem.testCase b)
          \/ (TestCase.sequence (PlanItem.testCase a) = TestCase.sequence (PlanItem.testCase b)
              /\ rank a <= rank b))).

#[global] Instance item_before_ranked_dec rank a b : Decision (item_before_ranked rank a b).
Proof. unfold item_before_ranked. apply _. Defined.

Definition orderBy_order_sequence (rank : PlanItem.t -> Z) (items : list PlanItem.t)
  : list PlanItem.t :=
  merge_sort (item_before_ranked rank) items.

(** [prisma.plan.findUnique] with the items included in that order. *)
Definition plan_findUnique_with_items (rank : PlanItem.t -> Z) (db : Db) (id : string)
  : option Plan.t :=
  match plans db !! id with
  | None => None
  | Some p =>
      Some {| Plan.scalars := Plan.scalars p;
              Plan.items := orderBy_order_sequence rank (Plan.items p) |}
  end.

(** *** Serialisation of rows *)

(** The seven-column [select] of create, list and the updating revoke. *)
Definition link_json (l : ReportShareLink.t) : json :=
  JObj [("id"%string, JStr (ReportShareLink.id l));
        ("token"%string, JStr (ReportShareLink.token l));
        ("planId"%string, JStr (ReportShareLink.planId l));
        ("createdByUserId"%string, JStr (ReportShareLink.createdByUserId l));
        ("createdAt"%string, JDate (ReportShareLink.createdAt l));
        ("expiresAt"%string, JDate (ReportShareLink.expiresAt l));
        ("revokedAt"%string, json_of_date (ReportShareLink.revokedAt l))].

(** The [select] of the public lookup: no [createdByUserId]. *)
Definition link_public_fields (l : ReportShareLink.t) : list (string * json) :=
  [("id"%string, JStr (ReportShareLink.id l));
   ("token"%string, JStr (ReportShareLink.token l));
   ("planId"%string, JStr (ReportShareLink.planId l));
   ("createdAt"%string, JDate (ReportShareLink.createdAt l));
   ("expiresAt"%string, JDate (ReportShareLink.expiresAt l));
   ("revokedAt"%string, json_of_date (ReportShareLink.revokedAt l))].

(** The [select] of the lookup in revoke: [id] and [revokedAt] only. *)
Definition link_revocation_fields (l : ReportShareLink.t) : list (string * json) :=
  [("id"%string, JStr (ReportShareLink.id l));
   ("revokedAt"%string, json_of_date (ReportShareLink.revokedAt l))].

(** [folder: { select: { id, name, parentId } }] on a test case *)
Definition folder_json (db : Db) (folderId : option string) : json :=
  match folderId with
  | None => JNull
  | Some i =>
      match folders db !! i with
      | None => JNull
      | Some f =>
          JObj [("id"%string, JStr i);
                ("name"%string, JStr (Folder.name f));
                ("parentId"%string, json_of_id (Folder.parentId f))]
      end
  end.

Definition testCase_fields (db : Db) (tc : TestCase.t) : list (string * json) :=
  TestCase.scalars tc
    ++ [("sequence"%string, JNum (TestCase.sequence tc));
        ("folderId"%string, json_of_id (TestCase.folderId tc));
        ("folder"%string, folder_json db (TestCase.folderId tc))].

Definition item_fields (db : Db) (it : PlanItem.t) : list (string * json) :=
  PlanItem.scalars it
    ++ [("order"%string, JNum (PlanItem.order it));
        ("testCase"%string, JObj (testCase_fields db (PlanItem.testCase it)))].

Definition plan_fields (db : Db) (p : Plan.t) : list (string * json) :=
  Plan.scalars p
    ++ [("items"%string, JArr (map (fun it => JObj (item_fields db it)) (Plan.items p)))].

(** ** reportController.ts

    A handler takes the host state and the store and gives the response it
    sends, with the new store when it writes.  Queries that only read are
    taken to succeed, so the [catch] branch of a handler (status 500) is
    reached through a failing insert or update only. *)

Record Response := { status : Z; body : json }.

Definition failure (st : Z) (message : string) : Response :=
  {| status := st;
     body := JObj [("success"%string, JBool false); ("message"%string, JStr message)] |}.

Definition success (data : json) : list (string * json) :=
  [("success"%string, JBool true); ("data"%string, data)].

(** *** [getFolderPath]

    One turn of the [while] loop costs one unit of [fuel]; [None] means the
    loop is still running when the fuel is spent.  [path.unshift] puts the
    folder in front. *)
Fixpoint folderWalk (fuel : nat) (db : Db) (currentId : option string)
    (path : list (string * string)) : option (list (string * string)) :=
  match currentId with
  | Some cid =>
      if truthy_id currentId then
        match fuel with
        | O => None
        | S fuel' =>
            match folders db !! cid with
            | None => Some path
            | Some folder =>
                folderWalk fuel' db (Folder.parentId folder)
                  ((cid, Folder.name folder) :: path)
            end
        end
      else Some path
  | None => Some path
  end.

Definition getFolderPath (fuel : nat) (db : Db) (folderId : option string)
  : option (list (string * string)) :=
  if negb (truthy_id folderId) then Some []
  else folderWalk fuel db folderId [].

Definition folderPath_json (path : list (string * string)) : json :=
  JArr (map (fun e => JObj [("id"%string, JStr (fst e)); ("name"%string, JStr (snd e))]) path).

(** *** [createPlanReportShareLink] *)

Record CreateRun := {
  run_db : Db;
  run_response : Response;
  run_tokens : list string }.   (* the token of every insert attempted *)

Definition is_P2002 (e : Thrown) : bool :=
  match code e with
  | Some c => String.eqb c "P2002"
  | None => false
  end.

(** The loop [for (let attempt = 0; attempt < 5; attempt++)], entered at
    [attempt] with [remaining] turns to go. *)
Fixpoint createAttempts (remaining attempt : nat) (env : Env) (db : Db)
    (planId userId : string) (expiresAt : option Z) (tried : list string) : CreateRun :=
  match remaining with
  | O =>
      {| run_db := db;
         run_response :=
           failure 500 "공유 링크 생성에 실패했습니다. 다시 시도해주세요.";
         run_tokens := tried |}
  | S remaining' =>
      let token := generateShareToken (randomSource env) (32 * attempt) 32 in
      let data :=
        {| data_token := token; data_planId := planId;
           data_createdByUserId := userId; data_expiresAt := expiresAt |} in
      match reportShareLink_create db (storeFault env attempt)
              (storeClock env attempt) (storeCuid env attempt) data with
      | inr (db', link) =>
          {| run_db := db';
             run_response := {| status := 201; body := JObj (success (link_json link)) |};
             run_tokens := tried ++ [token] |}
      | inl e =>
          if is_P2002 e
          then createAttempts remaining' (S attempt) env db planId userId expiresAt
                 (tried ++ [token])
          else
            {| run_db := db;
               run_response := failure 500 "공유 링크 생성 중 오류가 발생했습니다.";
               run_tokens := tried ++ [token] |}
      end
  end.

Definition createPlanReportShareLink (env : Env) (db : Db) (planId : string)
    (user : option string) : CreateRun :=
  match user with
  | Some userId =>
      if truthy_id user then
        match plans db !! planId with
        | None =>
            {| run_db := db;
               run_response := failure 404 "플랜을 찾을 수 없습니다.";
               run_tokens := [] |}
        | Some _ =>
            let now := clock env in
            let expiresAt := addDays (LocalTZA env) now SHARE_EXPIRES_DAYS in
            createAttempts 5 0 env db planId userId expiresAt []
        end
      else
        {| run_db := db; run_response := failure 401 "인증이 필요합니다.";
           run_tokens := [] |}
  | None =>
      {| run_db := db; run_response := failure 401 "인증이 필요합니다.";
         run_tokens := [] |}
  end.

(** *** [listPlanReportShareLinks] *)


(** *** [revokeReportShareLink] *)

Definition revokeReportShareLink (env : Env) (db : Db) (id : string)
  : Db * Response :=
  match findUnique_by_id db id with
  | None => (db, failure 404 "공유 링크를 찾을 수 없습니다.")
  | Some link =>
      if truthy_date (ReportShareLink.revokedAt link) then
        (db,
         {| status := 200;
            body := JObj (success (JObj (link_revocation_fields link))
                            ++ [("message"%string, JStr "이미 폐기된 링크입니다.")]) |})
      else
        match reportShareLink_update_revokedAt db id (clock env) with
        | Some (db', updated) =>
            (db', {| status := 200; body := JObj (success (link_json updated)) |})
        | None => (db, failure 500 "공유 링크 폐기 중 오류가 발생했습니다.")
        end
  end.

(** *** [getPublicPlanReportByToken]

    The walks started by [Promise.all] only read the store, so they are run
    one after the other; the answer exists once every walk has ended. *)

Definition itemWithFolderPath (db : Db) (it : PlanItem.t)
    (folderPath : list (string * string)) : json :=
  JObj (obj_set "testCase"
          (JObj (obj_set "folderPath" (folderPath_json folderPath)
                   (testCase_fields db (PlanItem.testCase it))))
          (item_fields db it)).

Definition itemsWithFolderPath (fuel : nat) (db : Db) (items : list PlanItem.t)
  : option (list json) :=
  mapM (fun it =>
          match getFolderPath fuel db (TestCase.folderId (PlanItem.testCase it)) with
          | Some folderPath => Some (itemWithFolderPath db it folderPath)
          | None => None
          end) items.

(** The closing [res.json] of the handler: [share: link] and
    [plan: { ...plan, items: itemsWithFolderPath }]. *)
Definition publicReport (db : Db) (link : ReportShareLink.t) (plan : Plan.t)
    (items : list json) : Response :=
  {| status := 200;
     body :=
       JObj (success
               (JObj [("share"%string, JObj (link_public_fields link));
                      ("plan"%string,
                       JObj (obj_set "items" (JArr items) (plan_fields db plan)))])) |}.

Definition getPublicPlanReportByToken (fuel : nat) (env : Env) (db : Db)
    (token : string) : option Response :=
  match findUnique_by_token db token with
  | None => Some (failure 404 "공유 링크를 찾을 수 없습니다.")
  | Some link =>
      let now := clock env in
      if truthy_date (ReportShareLink.revokedAt link)
         || (ReportShareLink.expiresAt link <=? now)
      then Some (failure 410 "만료되었거나 폐기된 공유 링크입니다.")
      else
        match plan_findUnique_with_items (itemRank env) db
                (ReportShareLink.planId link) with
        | None => Some (failure 410 "공유 대상 플랜을 찾을 수 없습니다.")
        | Some plan =>
            match itemsWithFolderPath fuel db (Plan.items plan) with
            | None => None
            | Some items => Some (publicReport db link plan items)
            end
        end
  end.

(** ** Vocabulary of the properties *)

(** The token drawn at attempt [i] of the loop, and the insert made with it. *)
Definition attempt_token (env : Env) (i : nat) : string :=
  generateShareToken (randomSource env) (32 * i) 32.

Definition attempt_insert (env : Env) (db : Db) (planId userId : string)
    (expiresAt : option Z) (i : nat) : Thrown + (Db * ReportShareLink.t) :=
  reportShareLink_create db (storeFault env i) (storeClock env i) (storeCuid env i)
    {| data_token := attempt_token env i; data_planId := planId;
       data_createdByUserId := userId; data_expiresAt := expiresAt |}.

(** The breadcrumb the walk is meant to compute: the ancestors of a folder
    from the outermost one found down to the folder itself, cut at the first
    reference that is null, empty or names no stored folder. *)
Inductive Breadcrumb (db : Db) : option string -> list (string * string) -> Prop :=
| Breadcrumb_null (i : option string) :
    truthy_id i = false -> Breadcrumb db i []
| Breadcrumb_missing (i : string) :
    truthy_id (Some i) = true -> folders db !! i = None ->
    Breadcrumb db (Some i) []
| Breadcrumb_step (i : string) (f : Folder.t) (path : list (string * string)) :
    truthy_id (Some i) = true -> folders db !! i = Some f ->
    Breadcrumb db (Folder.parentId f) path ->
    Breadcrumb db (Some i) (path ++ [(i, Folder.name f)]).

(** The operations of the subsystem, as state transformers; listing and
    resolving issue no write. *)
Inductive Operation :=
| Create (planId : string) (user : option string)
| ListLinks (planId : string)
| Revoke (id : string)
| Resolve (fuel : nat) (token : string).

Definition perform (env : Env) (op : Operation) (db : Db) : Db :=
  match op with
  | Create planId user => run_db (createPlanReportShareLink env db planId user)
  | ListLinks _ => db
  | Revoke id => fst (revokeReportShareLink env db id)
  | Resolve _ _ => db
  end.

(** A history: requests served one after the other, each in its own host
    state. *)
Fixpoint perform_all (steps : list (Env * Operation)) (db : Db) : Db :=
  match steps with
  | [] => db
  | (env, op) :: rest => perform_all rest (perform env op db)
  end.

(** What the two [orderBy] clauses ask for: newest first; by [order] and,
    among equal [order], by the test case's [sequence]. *)
Definition newer_first (a b : ReportShareLink.t) : Prop :=
  ReportShareLink.createdAt b <= ReportShareLink.createdAt a.

#[global] Instance newer_first_dec a b : Decision (newer_first a b).
Proof. unfold newer_first. apply _. Defined.

Definition item_before (a b : PlanItem.t) : Prop :=
  PlanItem.order a < PlanItem.order b
  \/ (PlanItem.order a = PlanItem.order b
      /\ TestCase.sequence (PlanItem.testCase a) <= TestCase.sequence (PlanItem.testCase b)).

#[global] Instance item_before_dec a b : Decision (item_before a b).
Proof. unfold item_before. apply _. Defined.

(** The two sort keys of an item, and their lexicographic order. *)
Definition item_key (it : PlanItem.t) : Z * Z :=
  (PlanItem.order it, TestCase.sequence (PlanItem.testCase it)).

Definition key_le (k1 k2 : Z * Z) : Prop :=
  fst k1 < fst k2 \/ (fst k1 = fst k2 /\ snd k1 <= snd k2).

(** Reading the public payload: the array [data.plan.items] of an answer,
    and of one of its items the pair ([order], [testCase.sequence]), the
    field [testCase.folderId] and the field [testCase.folderPath]. *)
Definition payload_plan_items (body : json) : option (list json) :=
  match body with
  | JObj top =>
      match obj_get "data" top with
      | Some (JObj data) =>
          match obj_get "plan" data with
          | Some (JObj plan) =>
              match obj_get "items" plan with
              | Some (JArr items) => Some items
              | _ => None
              end
          | _ => None
          end
      | _ => None
      end
  | _ => None
  end.

Definition item_testCase (item : json) : option (list (string * json)) :=
  match item with
  | JObj fs =>
      match obj_get "testCase" fs with
      | Some (JObj tc) => Some tc
      | _ => None
      end
  | _ => None
  end.

Definition item_order (item : json) : option json :=
  match item with
  | JObj fs => obj_get "order" fs
  | _ => None
  end.

Definition item_sequence (item : json) : option json :=
  match item_testCase item with
  | Some tc => obj_get "sequence" tc
  | None => None
  end.

Definition payload_item_key (item : json) : option (Z * Z) :=
  match item_order item, item_sequence item with
  | Some (JNum o), Some (JNum s) => Some (o, s)
  | _, _ => None
  end.

Definition item_folderId (item : json) : option json :=
  match item_testCase item with
  | Some tc => obj_get "folderId" tc
  | None => None
  end.

Definition item_folderPath (item : json) : option json :=
  match item with
  | JObj fs =>
      match obj_get "testCase" fs with
      | Some (JObj tc) => obj_get "folderPath" tc
      | _ => None
      end
  | _ => None
  end.

(** The columns of a row that are kept as serialised fields are other
    columns than the ones the model names. *)
Definition plain_item (it : PlanItem.t) : Prop :=
  obj_get "order" (PlanItem.scalars it) = None
  /\ obj_get "sequence" (TestCase.scalars (PlanItem.testCase it)) = None
  /\ obj_get "folderId" (TestCase.scalars (PlanItem.testCase it)) = None.

(** [n] octets drawn by a generator that yields every octet string of that
    length equally often: the draws that can be made. *)
Definition all_octets : list Byte.byte :=
  map (fun n => match Byte.of_N (N.of_nat n) with Some b => b | None => Byte.x00 end)
    (seq 0 256).

Fixpoint all_buffers (n : nat) : list (list Byte.byte) :=
  match n with
  | O => [[]]
  | S n' => flat_map (fun b => map (cons b) (all_buffers n')) all_octets
  end.

(** A generator that hands out the octets of [buf], then zeros. *)
Definition source_of (buf : list Byte.byte) : nat -> Byte.byte :=
  fun i => nth i buf Byte.x00.

(** ** Sample data *)

Definition utcZone : Z -> bool -> Z := fun _ _ => 0.

(** A folder that names itself as its parent. *)
Definition cyclic_db : Db :=
  {| plans := ∅;
     folders := {[ "f1"%string := {| Folder.name := "Loop"; Folder.parentId := Some "f1"%string |} ]};
     reportShareLinks := [] |}.

(** [B] lies under [A]; [A] names a parent that is not stored. *)
Definition dangling_db : Db :=
  {| plans := ∅;
     folders :=
       <[ "a"%string := {| Folder.name := "A"; Folder.parentId := Some "gone"%string |} ]>
         {[ "b"%string := {| Folder.name := "B"; Folder.parentId := Some "a"%string |} ]};
     reportShareLinks := [] |}.

Definition dangling_rank (i : string) : nat :=
  if String.eqb i "b" then 1%nat else 0%nat.



(** A plan of three items over the folders of [dangling_db], and three share
    links: a live one, a revoked one and one whose plan is not stored. *)
Definition sample_item (order sequence : Z) (folderId : option string) : PlanItem.t :=
  {| PlanItem.scalars := [("result"%string, JStr "PASS")];
     PlanItem.order := order;
     PlanItem.testCase :=
       {| TestCase.scalars := [("title"%string, JStr "case")];
          TestCase.sequence := sequence;
          TestCase.folderId := folderId |} |}.

Definition sample_plan : Plan.t :=
  {| Plan.scalars := [("id"%string, JStr "p1"); ("name"%string, JStr "Release")];
     Plan.items :=
       [sample_item 2 1 (Some "b"%string);
        sample_item 1 5 None;
        sample_item 1 2 (Some "a"%string)] |}.

Definition sample_link (id token planId : string) (revokedAt : option Z)
  : ReportShareLink.t :=
  {| ReportShareLink.id := id;
     ReportShareLink.token := token;
     ReportShareLink.planId := planId;
     ReportShareLink.createdByUserId := "u1";
     ReportShareLink.createdAt := 100;
     ReportShareLink.expiresAt := 100 + 7 * JsDate.msPerDay;
     ReportShareLink.revokedAt := revokedAt |}.

Definition sample_db : Db :=
  {| plans := {[ "p1"%string := sample_plan ]};
     folders := folders dangling_db;
     reportShareLinks :=
       [sample_link "l1" "tok-live" "p1" None;
        sample_link "l2" "tok-revoked" "p1" (Some 200);
        sample_link "l3" "tok-orphan" "p-deleted" None] |}.

Definition sample_byte (n : nat) : Byte.byte :=
  match Byte.of_N (N.of_nat (7 * n + 3) mod 256) with
  | Some b => b
  | None => Byte.x00
  end.

Definition sample_env : Env :=
  {| clock := 500;
     LocalTZA := utcZone;
     randomSource := sample_byte;
     storeFault := fun _ => None;
     storeClock := fun _ => 503;
     storeCuid := fun n => if Nat.eqb n 0 then "l4"%string else "l5"%string;
     linkRank := fun _ => 0; itemRank := fun _ => 0 |}.

(** The answer to resolving ["tok-live"] on [sample_db]. *)
Definition sample_report : Response :=
  publicReport sample_db (sample_link "l1" "tok-live" "p1" None)
    {| Plan.scalars := Plan.scalars sample_plan;
       Plan.items := [sample_item 1 2 (Some "a"%string);
                      sample_item 1 5 None;
                      sample_item 2 1 (Some "b"%string)] |}
    [itemWithFolderPath sample_db (sample_item 1 2 (Some "a"%string))
       [("a"%string, "A"%string)];
     itemWithFolderPath sample_db (sample_item 1 5 None) [];
     itemWithFolderPath sample_db (sample_item 2 1 (Some "b"%string))
       [("a"%string, "A"%string); ("b"%string, "B"%string)]].


(** A store whose first two inserts of a request hit the unique index, and
    one where every insert does. *)
Definition P2002 : Thrown := {| code := Some "P2002"%string |}.

Definition colliding_env : Env :=
  {| clock := clock sample_env; LocalTZA := utcZone;
     randomSource := sample_byte;
     storeFault := fun i => if (i <? 2)%nat then Some P2002 else None;
     storeClock := storeClock sample_env; storeCuid := storeCuid sample_env;
     linkRank := fun _ => 0; itemRank := fun _ => 0 |}.

Definition exhausted_env : Env :=
  {| clock := clock sample_env; LocalTZA := utcZone;
     randomSource := sample_byte;
     storeFault := fun _ => Some P2002;
     storeClock := storeClock sample_env; storeCuid := storeCuid sample_env;
     linkRank := fun _ => 0; itemRank := fun _ => 0 |}.

Definition unreachable_env : Env :=
  {| clock := clock sample_env; LocalTZA := utcZone;
     randomSource := sample_byte;
     storeFault := fun i => if (i <? 1)%nat then Some P2002
                            else Some {| code := Some "P1001"%string |};
     storeClock := storeClock sample_env; storeCuid := storeCuid sample_env;
     linkRank := fun _ => 0; itemRank := fun _ => 0 |}.

(** A host whose store gives the first insert of a request the primary key
    of the stored link [l1]. *)
Definition id_clash_env : Env :=
  {| clock := clock sample_env; LocalTZA := utcZone;
     randomSource := sample_byte;
     storeFault := fun _ => None;
     storeClock := storeClock sample_env;
     storeCuid := fun n => if Nat.eqb n 0 then "l1"%string else "l5"%string;
     linkRank := fun _ => 0; itemRank := fun _ => 0 |}.



(** A plan with two items equal in [order] and in [sequence], and a host
    whose store hands out the second of them first. *)
Definition named_item (name : string) (order sequence : Z) (folderId : option string)
  : PlanItem.t :=
  {| PlanItem.scalars := [("id"%string, JStr name)];
     PlanItem.order := order;
     PlanItem.testCase :=
       {| TestCase.scalars := [("title"%string, JStr "case")];
          TestCase.sequence := sequence;
          TestCase.folderId := folderId |} |}.

Definition tied_db : Db :=
  {| plans :=
       {[ "p1"%string :=
            {| Plan.scalars := [("id"%string, JStr "p1")];
               Plan.items := [named_item "i1" 1 1 None; named_item "i2" 1 1 None] |} ]};
     folders := ∅;
     reportShareLinks := [sample_link "l1" "tok-live" "p1" None] |}.

Definition reversing_env : Env :=
  {| clock := clock sample_env; LocalTZA := utcZone;
     randomSource := sample_byte;
     storeFault := fun _ => None;
     storeClock := storeClock sample_env; storeCuid := storeCuid sample_env;
     linkRank := fun _ => 0;
     itemRank := fun it =>
       match obj_get "id" (PlanItem.scalars it) with
       | Some (JStr name) => if String.eqb name "i1" then 1 else 0
       | _ => 0
       end |}.

(** A plan with an item in no folder and an item in the folder of
    [cyclic_db], which names itself as its parent. *)
Definition looping_db : Db :=
  {| plans :=
       {[ "p1"%string :=
            {| Plan.scalars := [("id"%string, JStr "p1")];
               Plan.items := [named_item "i1" 1 1 None;
                              named_item "i2" 2 1 (Some "f1"%string)] |} ]};
     folders := folders cyclic_db;
     reportShareLinks := [sample_link "l1" "tok-live" "p1" None] |}.

(** A zone one hour ahead of UTC that moves to two hours ahead at the UTC
    instant [dst_start] (2026-03-29T01:00:00Z): local clocks jump from 02:00
    to 03:00, and a local time in the hour skipped is read with the offset
    in force before the change.  [summer_now] is noon UTC four days
    earlier. *)
Definition dst_start : Z := 1774746000000.

Definition dstZone (t : Z) (isUTC : bool) : Z :=
  if isUTC
  then (if t <? dst_start then 3600000 else 7200000)
  else (if t <? dst_start + 7200000 then 3600000 else 7200000).

Definition summer_now : Z := 1774440000000.

(** Bounded checks, run by the evaluator. *)
Fixpoint Z_all_from (n : nat) (k : Z) (p : Z -> bool) : bool :=
  match n with
  | O => true
  | S n' => p k && Z_all_from n' (k + 1) p
  end.

Fixpoint N_all_below (n : nat) (k : N) (p : N -> bool) : bool :=
  match n with
  | O => true
  | S n' => p k && N_all_below n' (N.succ k) p
  end.

(** What [YearFromDay] has to satisfy on day [d], and the length of a year. *)
Definition year_ok (d : Z) : bool :=
  let y := JsDate.YearFromDay d in
  (JsDate.DayFromYear y <=? d) && (d <? JsDate.DayFromYear (y + 1)).

Definition step_ok (y : Z) : bool :=
  JsDate.DayFromYear (y + 1) =? JsDate.DayFromYear y + JsDate.DaysInYear y.

(** A later version of a stored link: every column as before, except that
    [revokedAt] may have been set or set again (never cleared). *)
Definition later_version (l l' : ReportShareLink.t) : Prop :=
  exists v, l' = ReportShareLink.set_revokedAt v l
            /\ (is_Some (ReportShareLink.revokedAt l) -> is_Some v).

(** A short history on [sample_db]: a revoke, a create, a second revoke. *)
Definition sample_history : list (Env * Operation) :=
  [(sample_env, Revoke "l1");
   (sample_env, Create "p1" (Some "u1"%string));
   (sample_env, Revoke "l1")].

(** ** middleware/csrf.ts

    [Buffer.prototype.toString('hex')]: two lower-case digits per octet, the
    high nibble first. *)
Definition hex_digits : string := "0123456789abcdef".

Definition hex_digit (n : N) : ascii :=
  nth (N.to_nat n) (list_ascii_of_string hex_digits) "0"%char.

Definition toString_hex (buf : list Byte.byte) : string :=
  string_of_list_ascii
    (flat_map (fun b => [hex_digit (N.shiftr (Byte.to_N b) 4);
                         hex_digit (N.land (Byte.to_N b) 15)]) buf).

Definition CSRF_COOKIE : string := "csrf_token".
Definition maxAgeMs : Z := 7 * 24 * 60 * 60 * 1000.

Record Cookie := {
  cookie_name : string;
  cookie_value : string;
  cookie_httpOnly : bool;
  cookie_secure : bool;
  cookie_sameSite : string;
  cookie_maxAge : Z;
  cookie_path : string }.

(** [issueToken]: the token and the cookie set on the response; [isProd] is
    [process.env.NODE_ENV === 'production']. *)
Definition issueToken (isProd : bool) (source : nat -> Byte.byte) (cursor : nat)
  : string * Cookie :=
  let token := toString_hex (randomBytes source cursor 16) in
  (token,
   {| cookie_name := CSRF_COOKIE;
      cookie_value := token;
      cookie_httpOnly := false;
      cookie_secure := isProd;
      cookie_sameSite := if isProd then "none"%string else "lax"%string;
      cookie_maxAge := maxAgeMs;
      cookie_path := "/" |}).

Definition is_lower_hex (c : ascii) : bool :=
  let n := N_of_ascii c in
  ((48 <=? n) && (n <=? 57))%N || ((97 <=? n) && (n <=? 102))%N.

(** ** The share-link panel of the plan page (frontend)

    [StatusBadge]: the label shown for a row of the list.  The row is the
    one [listPlanReportShareLinks] sent; its date strings are read back
    ([new Date(link.expiresAt)]) to the time values they were written from. *)
Inductive Badge := Revoked | Expired | Active.

Definition StatusBadge (now : Z) (link : ReportShareLink.t) : Badge :=
  let expired := ReportShareLink.expiresAt link <=? now in
  if truthy_date (ReportShareLink.revokedAt link) then Revoked
  else if expired then Expired
  else Active.

(** ** services/testCaseService.ts (src/unnamed/part_003, lines 1 to 552)

    The tables the service works on.  The Prisma schema is not among the
    sources: a test case is given the columns the service reads or writes by
    name ([id], [caseNumber], [sequence], [folderId]), the rest is kept as
    serialised fields; of a plan item only [testCaseId] matters here. *)
Module TestCaseRow.
Record t := {
  id : string;
  caseNumber : Z;
  sequence : Z;
  folderId : option string;
  columns : list (string * json) }.

Definition set_sequence (n : Z) (r : t) : t :=
  {| id := id r; caseNumber := caseNumber r; sequence := n;
     folderId := folderId r; columns := columns r |}.

Definition set_folder (f : option string) (n : Z) (r : t) : t :=
  {| id := id r; caseNumber := caseNumber r; sequence := n;
     folderId := f; columns := columns r |}.
End TestCaseRow.

Module PlanItemRow.
Record t := {
  id : string;
  testCaseId : string;
  columns : list (string * json) }.
End PlanItemRow.

Record Tables := {
  folderTable : gmap string Folder.t;
  testCases : list TestCaseRow.t;
  planItems : list PlanItemRow.t }.

Definition with_testCases (tb : Tables) (rows : list TestCaseRow.t) : Tables :=
  {| folderTable := folderTable tb; testCases := rows; planItems := planItems tb |}.

(** The folder table as the store [getFolderPath] walks (the service has its
    own copy of that function, word for word the controller's). *)
Definition folders_only (tb : Tables) : Db :=
  {| plans := ∅; folders := folderTable tb; reportShareLinks := [] |}.

(** What a service call comes to: a result, or an exception passed on to the
    caller. *)
Inductive Outcome :=
| Returned (r : Response)
| Threw (e : Thrown).

(** Values of type [any] taken from a request body: [None] is [undefined]. *)
Definition json_truthy (j : json) : bool :=
  match j with
  | JNull => false
  | JBool b => b
  | JNum n => negb (n =? 0)
  | JStr s => negb (String.eqb s EmptyString)
  | JDate _ | JArr _ | JObj _ => true
  end.

Definition any_truthy (x : option json) : bool :=
  match x with Some j => json_truthy j | None => false end.

Definition isArray (x : option json) : bool :=
  match x with Some (JArr _) => true | _ => false end.

Definition array_items (x : option json) : list json :=
  match x with Some (JArr l) => l | _ => [] end.

(** [x || d] and [x?.n || d] on numbers *)
Definition number_or (x : option Z) (d : Z) : Z :=
  match x with
  | Some n => if n =? 0 then d else n
  | None => d
  end.

(** Errors of the client: an argument of the wrong type, and an update or
    delete of a row that is not there. *)
Definition validationError : Thrown := {| code := None |}.
Definition P2025 : Thrown := {| code := Some "P2025"%string |}.

Definition testCase_row_fields (r : TestCaseRow.t) : list (string * json) :=
  [("id"%string, JStr (TestCaseRow.id r));
   ("caseNumber"%string, JNum (TestCaseRow.caseNumber r));
   ("sequence"%string, JNum (TestCaseRow.sequence r));
   ("folderId"%string, json_of_id (TestCaseRow.folderId r))]
    ++ TestCaseRow.columns r.

Definition testCase_json (r : TestCaseRow.t) : json :=
  JObj (testCase_row_fields r).

(** [orderBy: { sequence: 'asc' }], [{ sequence: 'desc' }] and
    [{ caseNumber: 'desc' }] *)
Definition sequence_asc (a b : TestCaseRow.t) : Prop :=
  TestCaseRow.sequence a <= TestCaseRow.sequence b.
Definition sequence_desc (a b : TestCaseRow.t) : Prop :=
  TestCaseRow.sequence b <= TestCaseRow.sequence a.
Definition caseNumber_desc (a b : TestCaseRow.t) : Prop :=
  TestCaseRow.caseNumber b <= TestCaseRow.caseNumber a.

#[global] Instance sequence_asc_dec a b : Decision (sequence_asc a b).
Proof. unfold sequence_asc. apply _. Defined.
#[global] Instance sequence_desc_dec a b : Decision (sequence_desc a b).
Proof. unfold sequence_desc. apply _. Defined.
#[global] Instance caseNumber_desc_dec a b : Decision (caseNumber_desc a b).
Proof. unfold caseNumber_desc. apply _. Defined.

(** [prisma.testCase.findFirst({ where: { folderId }, orderBy: { sequence: 'desc' } })] *)
Definition lastCase_in_folder (tb : Tables) (folderId : option string)
  : option TestCaseRow.t :=
  head (merge_sort sequence_desc
          (filter (fun r => TestCaseRow.folderId r = folderId) (testCases tb))).

(** *** [getNextCaseNumber] *)
Definition getNextCaseNumber (tb : Tables) : Z :=
  let lastCase := head (merge_sort caseNumber_desc (testCases tb)) in
  number_or (TestCaseRow.caseNumber <$> lastCase) 0 + 1.

(** [prisma.$transaction] of a list of [testCase.update] calls, the [k]-th
    statement first.  A statement fails when the store rejects it
    ([faults k]), when its [id] is not a string, or when no row has that id;
    the transaction then leaves nothing behind. *)
Fixpoint updateAll (faults : nat -> option Thrown) (k : nat)
    (stmts : list (json * (TestCaseRow.t -> TestCaseRow.t)))
    (rows : list TestCaseRow.t) : Thrown + list TestCaseRow.t :=
  match stmts with
  | [] => inr rows
  | (idj, change) :: rest =>
      match faults k with
      | Some e => inl e
      | None =>
          match idj with
          | JStr i =>
              if existsb (fun r => String.eqb (TestCaseRow.id r) i) rows
              then updateAll faults (S k) rest
                     (map (fun r => if String.eqb (TestCaseRow.id r) i
                                    then change r else r) rows)
              else inl P2025
          | _ => inl validationError
          end
      end
  end.

(** *** [TestCaseService.moveTestCasesToFolder] *)
Definition moved_body (count : nat) : json :=
  JObj (success
          (JObj [("count"%string, JNum (Z.of_nat count));
                 ("message"%string,
                  JStr (pretty count ++ "개 테스트케이스가 이동되었습니다."))])).

Definition moveTestCases_into (faults : nat -> option Thrown) (tb : Tables)
    (ids : list json) (folderId : option string) : Tables * Outcome :=
  let lastCase := lastCase_in_folder tb folderId in
  let nextSequence := number_or (TestCaseRow.sequence <$> lastCase) 0 in
  match updateAll faults 0
          (imap (fun index id =>
                   (id, TestCaseRow.set_folder folderId
                          (nextSequence + Z.of_nat index + 1))) ids)
          (testCases tb) with
  | inl e => (tb, Threw e)
  | inr rows =>
      (with_testCases tb rows,
       Returned {| status := 200; body := moved_body (length ids) |})
  end.

Definition moveTestCasesToFolder (faults : nat -> option Thrown) (tb : Tables)
    (ids targetFolderId : option json) : Tables * Outcome :=
  if negb (any_truthy ids) || negb (isArray ids)
     || (length (array_items ids) =? 0)%nat
  then (tb, Returned (failure 400 "이동할 테스트케이스 ID 목록이 필요합니다."))
  else
    let folderId := if any_truthy targetFolderId then targetFolderId else Some JNull in
    match folderId with
    | Some (JStr f) =>
        match folderTable tb !! f with
        | None => (tb, Returned (failure 404 "대상 폴더를 찾을 수 없습니다."))
        | Some _ => moveTestCases_into faults tb (array_items ids) (Some f)
        end
    | Some JNull | None => moveTestCases_into faults tb (array_items ids) None
    | Some _ => (tb, Threw validationError)
    end.

(** *** [TestCaseService.reorderTestCases]

    [ToString] is JavaScript's [String(...)], applied to the [folderId] of
    the request when that is truthy.  [reorder_where] is the [where] object
    of the read that follows the transaction ([None] for [{}]), and
    [testCase_findMany] that read, which is taken to succeed. *)
Definition reorder_where (ToString : json -> string) (folderId : option json)
  : option string :=
  match folderId with
  | Some j => if json_truthy j then Some (ToString j) else None
  | None => None
  end.

Definition matches_where (w : option string) (r : TestCaseRow.t) : Prop :=
  match w with
  | Some f => TestCaseRow.folderId r = Some f
  | None => True
  end.

#[global] Instance matches_where_dec w r : Decision (matches_where w r).
Proof. destruct w; cbn; apply _. Defined.

Definition testCase_findMany (w : option string) (rows : list TestCaseRow.t)
  : list TestCaseRow.t :=
  merge_sort sequence_asc (filter (matches_where w) rows).

Definition reorderTestCases (ToString : json -> string)
    (faults : nat -> option Thrown) (tb : Tables)
    (orderedIds folderId : option json) : Tables * Outcome :=
  if negb (any_truthy orderedIds) || negb (isArray orderedIds)
     || (length (array_items orderedIds) =? 0)%nat
  then (tb, Returned (failure 400 "순서 변경할 테스트케이스 ID 목록이 필요합니다."))
  else
    match updateAll faults 0
            (imap (fun index id =>
                     (id, TestCaseRow.set_sequence (Z.of_nat index + 1)))
               (array_items orderedIds))
            (testCases tb) with
    | inl e => (tb, Threw e)
    | inr rows =>
        (with_testCases tb rows,
         Returned {| status := 200;
                     body := JObj (success
                                     (JArr (map testCase_json
                                              (testCase_findMany
                                                 (reorder_where ToString folderId)
                                                 rows)))) |})
    end.

(** *** [TestCaseService.deleteTestCase] and [bulkDeleteTestCases]

    [fault] is the failure of the transaction, if the store rejects it. *)
Definition deleteTestCase (fault : option Thrown) (tb : Tables) (id : string)
  : Tables * Outcome :=
  match find (fun r => String.eqb (TestCaseRow.id r) id) (testCases tb) with
  | None => (tb, Returned (failure 404 "테스트케이스를 찾을 수 없습니다."))
  | Some _ =>
      match fault with
      | Some e => (tb, Threw e)
      | None =>
          ({| folderTable := folderTable tb;
              testCases :=
                filter (fun r => TestCaseRow.id r <> id) (testCases tb);
              planItems :=
                filter (fun p => PlanItemRow.testCaseId p <> id) (planItems tb) |},
           Returned {| status := 200;
                       body := JObj [("success"%string, JBool true);
                                     ("message"%string,
                                      JStr "테스트케이스가 삭제되었습니다.")] |})
      end
  end.

Definition string_ids (l : list json) : option (list string) :=
  mapM (fun j => match j with JStr s => Some s | _ => None end) l.

Definition deleted_body (count : nat) : json :=
  JObj (success
          (JObj [("count"%string, JNum (Z.of_nat count));
                 ("message"%string,
                  JStr (pretty count ++ "개 테스트케이스가 삭제되었습니다."))])).

Definition bulkDeleteTestCases (fault : option Thrown) (tb : Tables)
    (ids : option json) : Tables * Outcome :=
  if negb (any_truthy ids) || negb (isArray ids)
     || (length (array_items ids) =? 0)%nat
  then (tb, Returned (failure 400 "삭제할 테스트케이스 ID 목록이 필요합니다."))
  else
    match string_ids (array_items ids) with
    | None => (tb, Threw validationError)
    | Some wanted =>
        match fault with
        | Some e => (tb, Threw e)
        | None =>
            ({| folderTable := folderTable tb;
                testCases :=
                  filter (fun r => TestCaseRow.id r ∉ wanted) (testCases tb);
                planItems :=
                  filter (fun p => PlanItemRow.testCaseId p ∉ wanted) (planItems tb) |},
             Returned {| status := 200;
                         body := deleted_body (length (array_items ids)) |})
        end
    end.

(** Sample tables: folders [a] (with child [b]) and three test cases. *)
Definition sample_case (id : string) (caseNumber sequence : Z)
    (folderId : option string) : TestCaseRow.t :=
  {| TestCaseRow.id := id; TestCaseRow.caseNumber := caseNumber;
     TestCaseRow.sequence := sequence; TestCaseRow.folderId := folderId;
     TestCaseRow.columns := [("title"%string, JStr "case")] |}.

Definition sample_tables : Tables :=
  {| folderTable :=
       <[ "a"%string := {| Folder.name := "A"; Folder.parentId := None |} ]>
         {[ "b"%string := {| Folder.name := "B"; Folder.parentId := Some "a"%string |} ]};
     testCases :=
       [sample_case "t1" 1 1 (Some "a"%string);
        sample_case "t2" 2 2 (Some "a"%string);
        sample_case "t3" 3 1 (Some "b"%string)];
     planItems :=
       [{| PlanItemRow.id := "i1"; PlanItemRow.testCaseId := "t1";
           PlanItemRow.columns := [] |};
        {| PlanItemRow.id := "i2"; PlanItemRow.testCaseId := "t3";
           PlanItemRow.columns := [] |}] |}.

Definition no_faults : nat -> option Thrown := fun _ => None.

(** [String(...)] on the values the samples pass: a string is itself. *)
Definition sample_ToString (j : json) : string :=
  match j with JStr s => s | _ => EmptyString end.

(** Every plan item is an item of a stored test case. *)
Definition items_refer (tb : Tables) : Prop :=
  forall p, p ∈ planItems tb ->
    exists r, r ∈ testCases tb /\ TestCaseRow.id r = PlanItemRow.testCaseId p.

(** *** [getAllDescendantFolderIds]

    [folder_children] is [prisma.folder.findMany({ where: { parentId } })],
    in the order the store gives its rows.  One call of [getChildFolderIds]
    costs one unit of [fuel]; [None] means that the recursion is still going
    when the fuel is spent.  [folderIds.push] adds at the end. *)
Definition folder_children (ft : gmap string Folder.t) (parentId : string)
  : list string :=
  (map_to_list (filter (fun kf => Folder.parentId kf.2 = Some parentId) ft)).*1.

Fixpoint getChildFolderIds (fuel : nat) (ft : gmap string Folder.t)
    (parentId : string) (folderIds : list string) : option (list string) :=
  match fuel with
  | O => None
  | S fuel' =>
      fold_left
        (fun running child =>
           match running with
           | Some ids => getChildFolderIds fuel' ft child (ids ++ [child])
           | None => None
           end)
        (folder_children ft parentId) (Some folderIds)
  end.

Definition getAllDescendantFolderIds (fuel : nat) (ft : gmap string Folder.t)
    (folderId : string) : option (list string) :=
  getChildFolderIds fuel ft folderId [folderId].

(** [child_of ft p c]: folder [c] is stored with parent [p]. *)
Definition child_of (ft : gmap string Folder.t) (p c : string) : Prop :=
  exists f, ft !! c = Some f /\ Folder.parentId f = Some p.

Definition sample_folder_rank (id : string) : nat :=
  if String.eqb id "a" then 1 else 0.

(** Two folders that are each other's parent. *)
Definition cyclic_folders : gmap string Folder.t :=
  <[ "x"%string := {| Folder.name := "X"; Folder.parentId := Some "y"%string |} ]>
    {[ "y"%string := {| Folder.name := "Y"; Folder.parentId := Some "x"%string |} ]}.

(** *** [TestCaseService.getTestCases]

    [in_folders] is the [where] of the read: [None] for [{}], [Some ids] for
    [{ folderId: { in: ids } }], which a case without folder does not
    match.  The walks started by [Promise.all] only read the store, so they
    are run one after the other. *)
Definition in_folders (w : option (list string)) (r : TestCaseRow.t) : Prop :=
  match w with
  | None => True
  | Some ids =>
      match TestCaseRow.folderId r with
      | Some g => g ∈ ids
      | None => False
      end
  end.

#[global] Instance in_folders_dec w r : Decision (in_folders w r).
Proof. destruct w; cbn; [destruct (TestCaseRow.folderId r)|]; apply _. Defined.

Definition testCase_with_folder (tb : Tables) (r : TestCaseRow.t)
  : list (string * json) :=
  testCase_row_fields r
    ++ [("folder"%string, folder_json (folders_only tb) (TestCaseRow.folderId r))].

Definition testCaseWithPath (tb : Tables) (r : TestCaseRow.t)
    (folderPath : list (string * string)) : json :=
  JObj (obj_set "folderPath" (folderPath_json folderPath) (testCase_with_folder tb r)).

Definition getTestCases (fuel : nat) (tb : Tables) (folderId : option string)
  : option Response :=
  match (match folderId with
         | Some f =>
             if truthy_id folderId
             then option_map Some (getAllDescendantFolderIds fuel (folderTable tb) f)
             else Some None
         | None => Some None
         end) with
  | None => None
  | Some w =>
      let testCases :=
        merge_sort sequence_asc (filter (in_folders w) (testCases tb)) in
      match mapM (fun tc =>
                    match getFolderPath fuel (folders_only tb)
                            (TestCaseRow.folderId tc) with
                    | Some folderPath => Some (testCaseWithPath tb tc folderPath)
                    | None => None
                    end) testCases with
      | Some testCasesWithPath =>
          Some {| status := 200;
                  body := JObj (success (JArr testCasesWithPath)) |}
      | None => None
      end
  end.

Definition sample_folder_depth (id : string) : nat :=
  if String.eqb id "b" then 1 else 0.

(** The place of every test case: its folder and its [sequence] there. *)
Definition folder_sequences (tb : Tables) : list (option string * Z) :=
  (fun r => (TestCaseRow.folderId r, TestCaseRow.sequence r)) <$> testCases tb.

(** *** [TestCaseService.createTestCase]

    The fields of the input are any values, or missing.  The store decides
    on an insert ([create_fault], by attempt, numbered from 1 as in the
    source), names the new row ([create_id]) and completes its columns
    ([create_columns], from the [data] of the call).  An error that carries
    a code is one of Prisma's known request errors. *)
Record CaseInput := {
  in_title : option json;
  in_description : option json;
  in_precondition : option json;
  in_steps : option json;
  in_expectedResult : option json;
  in_priority : option json;
  in_automationType : option json;
  in_category : option json;
  in_folderId : option json }.

Record CaseStore := {
  create_fault : nat -> option Thrown;
  create_id : nat -> string;
  create_columns : list (string * option json) -> list (string * json) }.

(** [x || d] on any value *)
Definition json_or (x : option json) (d : json) : json :=
  match x with
  | Some j => if json_truthy j then j else d
  | None => d
  end.

(** [folderId || null] as the store reads it: a string, null, or neither. *)
Definition folder_or_null (folderId : option json) : option (option string) :=
  match json_or folderId JNull with
  | JStr f => Some (Some f)
  | JNull => Some None
  | _ => None
  end.

Definition case_data (input : CaseInput) : list (string * option json) :=
  [("title"%string, in_title input);
   ("description"%string, in_description input);
   ("precondition"%string, in_precondition input);
   ("steps"%string, in_steps input);
   ("expectedResult"%string, in_expectedResult input);
   ("priority"%string, Some (json_or (in_priority input) (JStr "MEDIUM")));
   ("automationType"%string, Some (json_or (in_automationType input) (JStr "MANUAL")));
   ("category"%string, Some (json_or (in_category input) JNull))].

Definition new_case (store : CaseStore) (attempt : nat) (tb : Tables)
    (input : CaseInput) (folderId : option string) : TestCaseRow.t :=
  let lastCase := lastCase_in_folder tb folderId in
  let nextSequence := number_or (TestCaseRow.sequence <$> lastCase) 0 + 1 in
  let nextCaseNumber := getNextCaseNumber tb in
  {| TestCaseRow.id := create_id store attempt;
     TestCaseRow.caseNumber := nextCaseNumber;
     TestCaseRow.sequence := nextSequence;
     TestCaseRow.folderId := folderId;
     TestCaseRow.columns := create_columns store (case_data input) |}.

(** The loop [for (let attempt = 1; attempt <= 5; attempt++)], entered at
    [attempt] with [remaining] turns to go, and the [throw lastErr] after
    it. *)
Fixpoint createCaseAttempts (remaining attempt : nat) (store : CaseStore)
    (tb : Tables) (input : CaseInput) (lastErr : option Thrown)
  : Tables * Outcome :=
  match remaining with
  | O => (tb, Threw (default {| code := None |} lastErr))
  | S remaining' =>
      match folder_or_null (in_folderId input) with
      | None => (tb, Threw validationError)
      | Some folderId =>
          match create_fault store attempt with
          | None =>
              let testCase := new_case store attempt tb input folderId in
              (with_testCases tb (testCases tb ++ [testCase]),
               Returned {| status := 201;
                           body := JObj (success (testCase_json testCase)) |})
          | Some err =>
              if is_P2002 err
              then createCaseAttempts remaining' (S attempt) store tb input (Some err)
              else (tb, Threw err)
          end
      end
  end.

Definition createTestCase (store : CaseStore) (tb : Tables) (input : CaseInput)
  : Tables * Outcome :=
  if negb (any_truthy (in_title input))
  then (tb, Returned (failure 400 "제목은 필수입니다."))
  else createCaseAttempts 5 1 store tb input None.

Definition sample_input : CaseInput :=
  {| in_title := Some (JStr "login"); in_description := None;
     in_precondition := None; in_steps := None; in_expectedResult := None;
     in_priority := None; in_automationType := None; in_category := None;
     in_folderId := Some (JStr "a") |}.

(** A store that reports a collision on the first two inserts. *)
Definition sample_store : CaseStore :=
  {| create_fault := fun attempt => if (attempt <=? 2)%nat then Some P2002 else None;
     create_id := fun attempt => ("new" ++ pretty attempt)%string;
     create_columns :=
       fun data => omap (fun kv => match kv.2 with
                                   | Some j => Some (kv.1, j)
                                   | None => None
                                   end) data |}.

(** ** frontend/src/utils/export.ts

    A JavaScript string is taken as the list of its characters.  The
    functions below compare characters with ASCII ones only, so that they
    act in the same way on the octets of the UTF-8 text. *)

Definition dquote : ascii := "034"%char.
Definition newline : ascii := "010"%char.
Definition creturn : ascii := "013"%char.

(** [s.replace(/c/g, by)] for a one-character pattern *)
Definition replace_all (c : ascii) (by_ : string) (s : list ascii) : list ascii :=
  flat_map (fun x => if Ascii.eqb x c then list_ascii_of_string by_ else [x]) s.

(** *** [escapeHtml], on the string [String(s ?? '')] *)
Definition escapeHtml (s : list ascii) : list ascii :=
  replace_all "'" "&#39;"
    (replace_all dquote "&quot;"
       (replace_all ">" "&gt;"
          (replace_all "<" "&lt;"
             (replace_all "&" "&amp;" s)))).

(** The characters with a meaning in HTML text and attribute values. *)
Definition is_markup (c : ascii) : bool :=
  Ascii.eqb c "<" || Ascii.eqb c ">" || Ascii.eqb c dquote || Ascii.eqb c "'".

(** What one character becomes. *)
Definition escaped (c : ascii) : list ascii :=
  if Ascii.eqb c "&" then list_ascii_of_string "&amp;"
  else if Ascii.eqb c "<" then list_ascii_of_string "&lt;"
  else if Ascii.eqb c ">" then list_ascii_of_string "&gt;"
  else if Ascii.eqb c dquote then list_ascii_of_string "&quot;"
  else if Ascii.eqb c "'" then list_ascii_of_string "&#39;"
  else [c].

Definition all_ascii : list ascii :=
  map (fun n => ascii_of_nat n) (seq 0 256).

(** *** [exportTestCasesToCSV]: the text of the file, after the byte-order
    mark

    [join] is [Array.prototype.join]. *)
Fixpoint join (sep : list ascii) (parts : list (list ascii)) : list ascii :=
  match parts with
  | [] => []
  | [p] => p
  | p :: rest => p ++ sep ++ join sep rest
  end.

Definition includes (c : ascii) (s : list ascii) : bool :=
  existsb (fun x => Ascii.eqb x c) s.

Definition csv_cell (cellStr : list ascii) : list ascii :=
  if includes "," cellStr || includes newline cellStr || includes dquote cellStr
  then [dquote]
         ++ replace_all dquote (String dquote (String dquote EmptyString)) cellStr
         ++ [dquote]
  else cellStr.

Definition csvContent (rows : list (list (list ascii))) : list ascii :=
  join [newline] (map (fun row => join [","%char] (map csv_cell row)) rows).

(** Reading comma-separated text as RFC 4180 describes it, with the line
    feed as the end of a record: a field is plain, or enclosed in double
    quotes with every double quote inside written twice.  [rows] and [cells]
    are the records and the fields read so far, [cur] the field being
    read. *)
Inductive CsvMode := FieldStart | Unquoted | Quoted | QuoteSeen.

Fixpoint read_csv_from (mode : CsvMode) (rows : list (list (list ascii)))
    (cells : list (list ascii)) (cur : list ascii) (input : list ascii)
  : list (list (list ascii)) :=
  match input with
  | [] => rows ++ [cells ++ [cur]]
  | c :: rest =>
      let plain :=
        if Ascii.eqb c "," then read_csv_from FieldStart rows (cells ++ [cur]) [] rest
        else if Ascii.eqb c newline
             then read_csv_from FieldStart (rows ++ [cells ++ [cur]]) [] [] rest
             else read_csv_from Unquoted rows cells (cur ++ [c]) rest in
      match mode with
      | FieldStart =>
          if Ascii.eqb c dquote then read_csv_from Quoted rows cells cur rest
          else plain
      | Unquoted => plain
      | Quoted =>
          if Ascii.eqb c dquote then read_csv_from QuoteSeen rows cells cur rest
          else read_csv_from Quoted rows cells (cur ++ [c]) rest
      | QuoteSeen =>
          if Ascii.eqb c dquote
          then read_csv_from Quoted rows cells (cur ++ [dquote]) rest
          else plain
      end
  end.

Definition read_csv (input : list ascii) : list (list (list ascii)) :=
  read_csv_from FieldStart [] [] [] input.

(** The rest of the text after a field: nothing, or a separator first. *)
Definition after_field (tail : list ascii) : Prop :=
  tail = [] \/ exists t, tail = ","%char :: t \/ tail = newline :: t.

Definition sample_sheet : list (list (list ascii)) :=
  [[list_ascii_of_string "ID"; list_ascii_of_string "Title"];
   [list_ascii_of_string "C1";
    list_ascii_of_string "say " ++ [dquote] ++ list_ascii_of_string "hi" ++ [dquote]
      ++ list_ascii_of_string ", then" ++ [newline] ++ list_ascii_of_string "leave"];
   [[]; []]].

(** ** TestCaseService.importTestCases: [convertNewlinesToBr]

    [has_tag] is [/<[^>]+>/.test(text)]: a [<], then a character other
    than [>], then, at some distance, a [>]. *)
Fixpoint has_tag (text : list ascii) : bool :=
  match text with
  | [] => false
  | c :: rest =>
      (Ascii.eqb c "<"
       && match rest with
          | c1 :: rest' => negb (Ascii.eqb c1 ">") && includes ">" rest'
          | [] => false
          end)
      || has_tag rest
  end.

Definition br : list ascii := list_ascii_of_string "<br>".

(** [text.replace(/\r\n/g, '<br>')] *)
Fixpoint replace_crlf (text : list ascii) : list ascii :=
  match text with
  | [] => []
  | c :: rest =>
      match rest with
      | c' :: rest' =>
          if Ascii.eqb c creturn && Ascii.eqb c' newline
          then br ++ replace_crlf rest'
          else c :: replace_crlf rest
      | [] => [c]
      end
  end.

Definition convertNewlinesToBr (text : list ascii) : list ascii :=
  match text with
  | [] => text
  | _ =>
      if has_tag text then text
      else replace_all newline "<br>" (replace_crlf text)
  end.

Definition sample_steps : list ascii :=
  list_ascii_of_string "open" ++ [creturn; newline] ++ list_ascii_of_string "type"
    ++ [newline] ++ list_ascii_of_string "send".

(** ** frontend/src/pages/CreatePlanPage.tsx: sections

    A folder of the tree the page receives, with its children (none when the
    field is missing), and a section of the page.  Test cases are the rows
    of the service. *)
Inductive FolderTreeItem :=
| FolderItem (id name : string) (children : list FolderTreeItem).

Definition item_id (f : FolderTreeItem) : string :=
  match f with FolderItem id _ _ => id end.

Definition item_children (f : FolderTreeItem) : list FolderTreeItem :=
  match f with FolderItem _ _ children => children end.

Module PlanSection.
Record t := {
  id : string;
  name : string;
  parentId : option string;
  depth : nat;
  testCases : list TestCaseRow.t }.
End PlanSection.

(** *** [buildSections]

    [folder_sections] is the body of [folders.forEach]: the section of the
    folder, then the sections of its children. *)
Fixpoint folder_sections (testCases : list TestCaseRow.t)
    (parentId : option string) (depth : nat) (folder : FolderTreeItem)
  : list PlanSection.t :=
  match folder with
  | FolderItem id name children =>
      {| PlanSection.id := id;
         PlanSection.name := name;
         PlanSection.parentId := parentId;
         PlanSection.depth := depth;
         PlanSection.testCases :=
           filter (fun tc => TestCaseRow.folderId tc = Some id) testCases |}
        :: flat_map (folder_sections testCases (Some id) (S depth)) children
  end.

Definition root_section (testCases : list TestCaseRow.t) : list PlanSection.t :=
  let rootTestCases :=
    filter (fun tc => truthy_id (TestCaseRow.folderId tc) = false) testCases in
  if (0 <? length rootTestCases)%nat
  then [{| PlanSection.id := "root";
           PlanSection.name := "미분류";
           PlanSection.parentId := None;
           PlanSection.depth := 0;
           PlanSection.testCases := rootTestCases |}]
  else [].

Definition buildSections (folders : list FolderTreeItem)
    (testCases : list TestCaseRow.t) (parentId : option string) (depth : nat)
  : list PlanSection.t :=
  match parentId with
  | None => root_section testCases
  | Some _ => []
  end ++ flat_map (folder_sections testCases parentId depth) folders.

(** *** [getAllTestCaseIdsInSectionAndDescendants]

    One call costs one unit of [fuel]; [None] means that the recursion is
    still going when the fuel is spent. *)
Fixpoint getAllTestCaseIdsInSectionAndDescendants (fuel : nat)
    (sectionId : string) (sections : list PlanSection.t) : option (list string) :=
  match fuel with
  | O => None
  | S fuel' =>
      let currentSection :=
        find (fun s => String.eqb (PlanSection.id s) sectionId) sections in
      let ids :=
        match currentSection with
        | Some s => map TestCaseRow.id (PlanSection.testCases s)
        | None => []
        end in
      let childSections :=
        filter (fun s => PlanSection.parentId s = Some sectionId) sections in
      fold_left
        (fun running child =>
           match running with
           | Some ids =>
               match getAllTestCaseIdsInSectionAndDescendants fuel'
                       (PlanSection.id child) sections with
               | Some more => Some (ids ++ more)
               | None => None
               end
           | None => None
           end)
        childSections (Some ids)
  end.

(** The folders of a tree, parents first, and its height. *)
Fixpoint tree_nodes (f : FolderTreeItem) : list FolderTreeItem :=
  match f with
  | FolderItem _ _ children => f :: flat_map tree_nodes children
  end.

Definition forest_nodes (folders : list FolderTreeItem) : list FolderTreeItem :=
  flat_map tree_nodes folders.

Fixpoint tree_height (f : FolderTreeItem) : nat :=
  match f with
  | FolderItem _ _ children => S (list_max (map tree_height children))
  end.

(** The ids of the test cases filed in the folders named, folder by folder. *)
Definition cases_filed (testCases : list TestCaseRow.t) (folderIds : list string)
  : list string :=
  flat_map (fun g => map TestCaseRow.id
                       (filter (fun tc => TestCaseRow.folderId tc = Some g) testCases))
    folderIds.

Definition sample_folders : list FolderTreeItem :=
  [FolderItem "a" "A" [FolderItem "b" "B" []]; FolderItem "c" "C" []].

(** A test case that some section shows: one without folder, or one filed in
    a folder of the tree. *)
Definition in_some_section (folderIds : list string) (tc : TestCaseRow.t) : Prop :=
  match TestCaseRow.folderId tc with
  | Some g => if truthy_id (Some g) then g ∈ folderIds else True
  | None => True
  end.

#[global] Instance in_some_section_dec folderIds tc :
  Decision (in_some_section folderIds tc).
Proof.
  unfold in_some_section. destruct (TestCaseRow.folderId tc) as [g|]; [|apply _].
  destruct (truthy_id (Some g)); apply _.
Defined.

(** * Properties *)

(** ** The share token *)

Lemma N_all_below_spec n :
  forall k p, N_all_below n k p = true ->
  forall j, (k <= j < k + N.of_nat n)%N -> p j = true.
Proof.
  induction n as [|n IH]; intros k p H j Hj; [lia|].
  cbn [N_all_below] in H. apply andb_prop in H as [H1 H2].
  destruct (N.eq_dec j k) as [->|Hne]; [exact H1|].
  apply (IH (N.succ k) p H2). lia.
Qed.

Lemma sextet_arith a b c :
  (a <= 255 -> b <= 255 -> c <= 255 ->
   Base64.sextet0 a = a / 4
   /\ Base64.sextet1 a b = (a mod 4) * 16 + b / 16
   /\ Base64.sextet2 b c = (b mod 16) * 4 + c / 64
   /\ Base64.sextet3 c = c mod 64)%N.
Proof.
  intros Ha Hb Hc.
  assert (H1 : N_all_below 256 0 (fun x => N_all_below 256 0 (fun y =>
            (Base64.sextet1 x y =? (x mod 4) * 16 + y / 16)%N)) = true)
    by (vm_compute; reflexivity).
  assert (H2 : N_all_below 256 0 (fun x => N_all_below 256 0 (fun y =>
            (Base64.sextet2 x y =? (x mod 16) * 4 + y / 64)%N)) = true)
    by (vm_compute; reflexivity).
  assert (H0 : N_all_below 256 0 (fun x =>
            (Base64.sextet0 x =? x / 4)%N && (Base64.sextet3 x =? x mod 64)%N) = true)
    by (vm_compute; reflexivity).
  pose proof (N_all_below_spec _ _ _ H0 a ltac:(lia)) as H0a.
  pose proof (N_all_below_spec _ _ _ H0 c ltac:(lia)) as H0c.
  pose proof (N_all_below_spec _ _ _ H1 a ltac:(lia)) as H1a. cbv beta in H1a.
  pose proof (N_all_below_spec _ _ _ H1a b ltac:(lia)) as H1b. cbv beta in H1b.
  pose proof (N_all_below_spec _ _ _ H2 b ltac:(lia)) as H2b. cbv beta in H2b.
  pose proof (N_all_below_spec _ _ _ H2b c ltac:(lia)) as H2c. cbv beta in H2c.
  apply andb_prop in H0a as [H0a _]. apply andb_prop in H0c as [_ H0c].
  apply N.eqb_eq in H0a, H0c, H1b, H2c. auto.
Qed.

(** [lia] over quotients and remainders by constants. *)
Ltac lia_div := zify; Z.to_euclidean_division_equations; lia.

Lemma sextet_char_inj i j :
  (i < 64 -> j < 64 ->
   Base64.sextet_char Base64.alphabet_url i = Base64.sextet_char Base64.alphabet_url j ->
   i = j)%N.
Proof.
  intros Hi Hj Heq.
  assert (H : N_all_below 64 0 (fun x => N_all_below 64 0 (fun y =>
            implb (Ascii.eqb (Base64.sextet_char Base64.alphabet_url x)
                             (Base64.sextet_char Base64.alphabet_url y))
                  (x =? y)%N)) = true)
    by (vm_compute; reflexivity).
  pose proof (N_all_below_spec _ _ _ H i ltac:(lia)) as Hx. cbv beta in Hx.
  pose proof (N_all_below_spec _ _ _ Hx j ltac:(lia)) as Hy. cbv beta in Hy.
  rewrite Heq, Ascii.eqb_refl in Hy. now apply N.eqb_eq.
Qed.

Lemma sextet_char_url_safe i :
  (i < 64)%N -> is_url_safe (Base64.sextet_char Base64.alphabet_url i) = true.
Proof.
  intros Hi.
  assert (H : N_all_below 64 0 (fun x =>
            is_url_safe (Base64.sextet_char Base64.alphabet_url x)) = true)
    by (vm_compute; reflexivity).
  apply (N_all_below_spec _ _ _ H i). lia.
Qed.

Lemma list_ind3 {A} (P : list A -> Prop) :
  P [] -> (forall a, P [a]) -> (forall a b, P [a; b]) ->
  (forall a b c l, P l -> P (a :: b :: c :: l)) ->
  forall l, P l.
Proof.
  intros H0 H1 H2 H3.
  assert (H : forall l, P l /\ (forall a, P (a :: l)) /\ (forall a b, P (a :: b :: l))).
  { induction l as [|x l (IH0 & IH1 & IH2)]; [now auto|].
    split; [apply IH1|]. split; [intros a; apply IH2|]. intros a b. now apply H3. }
  intros l. apply H.
Qed.

Lemma sextets_bounded a b c :
  (a <= 255 -> b <= 255 -> c <= 255 ->
   Base64.sextet0 a < 64 /\ Base64.sextet1 a b < 64
   /\ Base64.sextet2 b c < 64 /\ Base64.sextet3 c < 64)%N.
Proof.
  intros Ha Hb Hc.
  destruct (sextet_arith a b c Ha Hb Hc) as (-> & -> & -> & ->).
  repeat split; lia_div.
Qed.

Lemma encode_url_safe buf :
  Forall (fun ch => is_url_safe ch = true) (Base64.encode Base64.alphabet_url false buf).
Proof.
  induction buf as [|a|a b|a b c rest IH] using list_ind3; cbn [Base64.encode app].
  - constructor.
  - pose proof (Byte.to_N_bounded a).
    destruct (sextets_bounded (Byte.to_N a) 0 0) as (? & ? & _); [lia..|].
    repeat constructor; now apply sextet_char_url_safe.
  - pose proof (Byte.to_N_bounded a). pose proof (Byte.to_N_bounded b).
    destruct (sextets_bounded (Byte.to_N a) (Byte.to_N b) 0) as (? & ? & ? & _); [lia..|].
    repeat constructor; now apply sextet_char_url_safe.
  - pose proof (Byte.to_N_bounded a). pose proof (Byte.to_N_bounded b).
    pose proof (Byte.to_N_bounded c).
    destruct (sextets_bounded (Byte.to_N a) (Byte.to_N b) (Byte.to_N c))
      as (? & ? & ? & ?); [lia..|].
    repeat (constructor; [now apply sextet_char_url_safe|]). exact IH.
Qed.

Lemma encode_unpadded_length alphabet buf :
  length (Base64.encode alphabet false buf) = ((4 * length buf + 2) / 3)%nat.
Proof.
  induction buf as [|a|a b|a b c rest IH] using list_ind3;
    cbn [Base64.encode app length]; try reflexivity.
  rewrite IH.
  replace (4 * S (S (S (length rest))) + 2)%nat
    with ((4 * length rest + 2) + 4 * 3)%nat by lia.
  rewrite Nat.div_add by lia. lia.
Qed.

Lemma to_N_inj a b : Byte.to_N a = Byte.to_N b -> a = b.
Proof.
  intros H. pose proof (Byte.of_to_N a) as Ha. rewrite H, Byte.of_to_N in Ha.
  congruence.
Qed.

Lemma octets_of_sextets a b c a' b' c' :
  (a <= 255 -> b <= 255 -> c <= 255 -> a' <= 255 -> b' <= 255 -> c' <= 255 ->
   Base64.sextet0 a = Base64.sextet0 a' ->
   Base64.sextet1 a b = Base64.sextet1 a' b' ->
   Base64.sextet2 b c = Base64.sextet2 b' c' ->
   (Base64.sextet3 c = Base64.sextet3 c' -> c = c')
   /\ (c / 64 = c' / 64 -> a = a' /\ b = b'))%N.
Proof.
  intros Ha Hb Hc Ha' Hb' Hc'.
  destruct (sextet_arith a b c Ha Hb Hc) as (-> & -> & -> & ->).
  destruct (sextet_arith a' b' c' Ha' Hb' Hc') as (-> & -> & -> & ->).
  pose proof (N.div_mod a 4 ltac:(lia)) as Ea.
  pose proof (N.div_mod a' 4 ltac:(lia)) as Ea'.
  pose proof (N.div_mod b 16 ltac:(lia)) as Eb.
  pose proof (N.div_mod b' 16 ltac:(lia)) as Eb'.
  pose proof (N.div_mod c 64 ltac:(lia)) as Ec.
  pose proof (N.div_mod c' 64 ltac:(lia)) as Ec'.
  pose proof (N.mod_lt a 4 ltac:(lia)). pose proof (N.mod_lt a' 4 ltac:(lia)).
  pose proof (N.mod_lt b 16 ltac:(lia)). pose proof (N.mod_lt b' 16 ltac:(lia)).
  pose proof (N.mod_lt c 64 ltac:(lia)). pose proof (N.mod_lt c' 64 ltac:(lia)).
  generalize dependent (a mod 4)%N. generalize dependent (a / 4)%N.
  generalize dependent (a' mod 4)%N. generalize dependent (a' / 4)%N.
  generalize dependent (b mod 16)%N. generalize dependent (b / 16)%N.
  generalize dependent (b' mod 16)%N. generalize dependent (b' / 16)%N.
  generalize dependent (c mod 64)%N. generalize dependent (c / 64)%N.
  generalize dependent (c' mod 64)%N. generalize dependent (c' / 64)%N.
  intros. split; intros; [|split]; lia.
Qed.

Lemma group_inj (a b c a' b' c' : N) :
  let ch := Base64.sextet_char Base64.alphabet_url in
  (a <= 255)%N -> (b <= 255)%N -> (c <= 255)%N ->
  (a' <= 255)%N -> (b' <= 255)%N -> (c' <= 255)%N ->
  ch (Base64.sextet0 a) = ch (Base64.sextet0 a') ->
  ch (Base64.sextet1 a b) = ch (Base64.sextet1 a' b') ->
  ch (Base64.sextet2 b c) = ch (Base64.sextet2 b' c') ->
  (ch (Base64.sextet3 c) = ch (Base64.sextet3 c') -> c = c')
  /\ ((c / 64 = c' / 64)%N -> a = a' /\ b = b').
Proof.
  intros ch Ha Hb Hc Ha' Hb' Hc' H0 H1 H2.
  destruct (sextets_bounded a b c Ha Hb Hc) as (? & ? & ? & ?).
  destruct (sextets_bounded a' b' c' Ha' Hb' Hc') as (? & ? & ? & ?).
  apply sextet_char_inj in H0, H1, H2; try assumption.
  destruct (octets_of_sextets a b c a' b' c' Ha Hb Hc Ha' Hb' Hc' H0 H1 H2) as [Hc3 Hab].
  split; [|exact Hab].
  intros Hlast. apply sextet_char_inj in Hlast; auto.
Qed.

Lemma encode_inj l1 :
  forall l2, length l1 = length l2 ->
    Base64.encode Base64.alphabet_url false l1 = Base64.encode Base64.alphabet_url false l2 ->
    l1 = l2.
Proof.
  induction l1 as [|a|a b|a b c rest IH] using list_ind3; intros l2 Hlen Henc.
  - destruct l2; [reflexivity|discriminate].
  - destruct l2 as [|a' [|? ?]]; try discriminate.
    cbn [Base64.encode app] in Henc. injection Henc as H0 H1.
    pose proof (Byte.to_N_bounded a). pose proof (Byte.to_N_bounded a').
    destruct (group_inj (Byte.to_N a) 0 0 (Byte.to_N a') 0 0) as [_ Hab];
      try assumption; try reflexivity; try lia.
    destruct (Hab eq_refl) as [Ha _]. now rewrite (to_N_inj _ _ Ha).
  - destruct l2 as [|a' [|b' [|? ?]]]; try discriminate.
    cbn [Base64.encode app] in Henc. injection Henc as H0 H1 H2.
    pose proof (Byte.to_N_bounded a). pose proof (Byte.to_N_bounded a').
    pose proof (Byte.to_N_bounded b). pose proof (Byte.to_N_bounded b').
    destruct (group_inj (Byte.to_N a) (Byte.to_N b) 0 (Byte.to_N a') (Byte.to_N b') 0)
      as [_ Hab]; try assumption; try lia.
    destruct (Hab eq_refl) as [Ha Hb].
    now rewrite (to_N_inj _ _ Ha), (to_N_inj _ _ Hb).
  - destruct l2 as [|a' [|b' [|c' rest']]]; try discriminate.
    cbn [Base64.encode app] in Henc. injection Henc as H0 H1 H2 H3 Hrest.
    pose proof (Byte.to_N_bounded a). pose proof (Byte.to_N_bounded a').
    pose proof (Byte.to_N_bounded b). pose proof (Byte.to_N_bounded b').
    pose proof (Byte.to_N_bounded c). pose proof (Byte.to_N_bounded c').
    destruct (group_inj (Byte.to_N a) (Byte.to_N b) (Byte.to_N c)
                (Byte.to_N a') (Byte.to_N b') (Byte.to_N c'))
      as [Hc3 Hab]; try assumption.
    pose proof (Hc3 H3) as Hc. destruct (Hab ltac:(now rewrite Hc)) as [Ha Hb].
    rewrite (to_N_inj _ _ Ha), (to_N_inj _ _ Hb), (to_N_inj _ _ Hc).
    do 3 f_equal. apply IH; [|exact Hrest].
    cbn [length] in Hlen. lia.
Qed.

Lemma length_string_of_list_ascii l :
  String.length (string_of_list_ascii l) = length l.
Proof. induction l as [|c l IH]; cbn; [reflexivity|now rewrite IH]. Qed.

Lemma string_of_list_ascii_inj l1 l2 :
  string_of_list_ascii l1 = string_of_list_ascii l2 -> l1 = l2.
Proof.
  intros H. apply (f_equal list_ascii_of_string) in H.
  now rewrite !list_ascii_of_string_of_list_ascii in H.
Qed.

Lemma randomBytes_length source cursor n : length (randomBytes source cursor n) = n.
Proof. unfold randomBytes. now rewrite length_map, length_seq. Qed.

Lemma generateShareToken_base64url source cursor n :
  (0 < n)%nat ->
  generateShareToken source cursor n
  = Base64.toString_base64url (randomBytes source cursor n).
Proof.
  intros Hn. unfold generateShareToken, truthy_string.
  destruct (String.eqb_spec (Base64.toString_base64url (randomBytes source cursor n))
              EmptyString) as [E|E]; [exfalso|reflexivity].
  apply (f_equal String.length) in E. unfold Base64.toString_base64url in E.
  rewrite length_string_of_list_ascii, encode_unpadded_length, randomBytes_length in E.
  cbn [String.length] in E.
  assert (1 <= (4 * n + 2) / 3)%nat by (apply Nat.div_le_lower_bound; lia). lia.
Qed.

(** *** The draws behind a token *)

Lemma all_octets_length : length all_octets = 256%nat.
Proof. reflexivity. Qed.

Lemma all_octets_complete b : In b all_octets.
Proof.
  unfold all_octets. apply in_map_iff. exists (N.to_nat (Byte.to_N b)). split.
  - now rewrite N2Nat.id, Byte.of_to_N.
  - apply in_seq. pose proof (Byte.to_N_bounded b). lia.
Qed.

Lemma all_octets_NoDup : NoDup all_octets.
Proof.
  unfold all_octets. apply NoDup_fmap_2_strong; [|apply NoDup_seq].
  intros x y Hx Hy. apply elem_of_seq in Hx, Hy.
  destruct (Byte.of_N (N.of_nat x)) as [bx|] eqn:Ex;
    [|apply Byte.of_N_None_iff in Ex; lia].
  destruct (Byte.of_N (N.of_nat y)) as [by'|] eqn:Ey;
    [|apply Byte.of_N_None_iff in Ey; lia].
  intros ->. apply Byte.to_of_N in Ex, Ey. lia.
Qed.

Lemma all_buffers_In n : forall buf, In buf (all_buffers n) <-> length buf = n.
Proof.
  induction n as [|n IH]; intros buf; cbn [all_buffers].
  - split.
    + intros [<-|[]]. reflexivity.
    + destruct buf; [now left|discriminate].
  - rewrite in_flat_map. split.
    + intros (b & _ & Hb). apply in_map_iff in Hb as (rest & <- & Hrest).
      cbn [length]. f_equal. now apply IH.
    + destruct buf as [|b rest]; [discriminate|]. intros [= Hlen].
      exists b. split; [apply all_octets_complete|].
      apply in_map_iff. exists rest. split; [reflexivity|now apply IH].
Qed.

Lemma flat_map_length_const {A B} (f : A -> list B) (l : list A) (k : nat) :
  (forall x, length (f x) = k) -> length (flat_map f l) = (length l * k)%nat.
Proof.
  intros Hk. induction l as [|x l IH]; [reflexivity|].
  cbn [flat_map length]. rewrite length_app, Hk, IH. lia.
Qed.

Lemma all_buffers_count n :
  N.of_nat (length (all_buffers n)) = (256 ^ N.of_nat n)%N.
Proof.
  induction n as [|n IH]; [reflexivity|].
  rewrite Nat2N.inj_succ, N.pow_succ_r', <- IH. cbn [all_buffers].
  rewrite (flat_map_length_const _ _ (length (all_buffers n)))
    by (intros b; apply length_map).
  now rewrite all_octets_length, Nat2N.inj_mul.
Qed.

Lemma NoDup_flat_map_cons {A} (heads : list A) (tails : list (list A)) :
  NoDup heads -> NoDup tails ->
  NoDup (flat_map (fun b => map (cons b) tails) heads).
Proof.
  intros Hh Ht. induction Hh as [|b heads Hb _ IH]; cbn [flat_map]; [constructor|].
  apply NoDup_app. split; [|split; [|exact IH]].
  - apply NoDup_fmap_2; [|exact Ht]. intros x y [= ->]. reflexivity.
  - intros x Hx Hx'. apply list_elem_of_fmap in Hx as (t & -> & _).
    apply list_elem_of_In, in_flat_map in Hx' as (b' & Hb' & Hin).
    apply in_map_iff in Hin as (t' & [= <- _] & _).
    apply Hb. now apply list_elem_of_In.
Qed.

Lemma all_buffers_NoDup n : NoDup (all_buffers n).
Proof.
  induction n as [|n IH]; cbn [all_buffers].
  - apply NoDup_singleton.
  - apply NoDup_flat_map_cons; [apply all_octets_NoDup|exact IH].
Qed.

Lemma map_nth_seq {A} (d : A) (l : list A) :
  map (fun i => nth i l d) (seq 0 (length l)) = l.
Proof.
  induction l as [|a l IH]; [reflexivity|].
  cbn [length seq map nth]. f_equal.
  rewrite <- seq_shift, map_map. exact IH.
Qed.

Lemma randomBytes_source_of buf :
  randomBytes (source_of buf) 0 (length buf) = buf.
Proof. unfold randomBytes, source_of. apply map_nth_seq. Qed.

Lemma NoDup_all_equal {A} (l : list A) :
  NoDup l -> (forall x y, x ∈ l -> y ∈ l -> x = y) -> (length l <= 1)%nat.
Proof.
  intros Hnd Heq. destruct l as [|x [|y l]]; cbn [length]; [lia..|exfalso].
  apply NoDup_cons in Hnd as [Hx _]. apply Hx.
  rewrite (Heq x y); [left|left|right; left].
Qed.

Lemma one_draw_per_token n t :
  (0 < n)%nat ->
  (length (filter (fun buf => generateShareToken (source_of buf) 0 n = t)
             (all_buffers n)) <= 1)%nat.
Proof.
  intros Hn. apply NoDup_all_equal.
  - apply NoDup_filter, all_buffers_NoDup.
  - intros x y Hx Hy.
    apply list_elem_of_filter in Hx as [Hx Hxin], Hy as [Hy Hyin].
    apply list_elem_of_In, all_buffers_In in Hxin, Hyin.
    rewrite generateShareToken_base64url in Hx, Hy by exact Hn.
    rewrite <- Hxin in Hx at 1. rewrite <- Hyin in Hy at 1.
    rewrite randomBytes_source_of in Hx, Hy. rewrite <- Hy in Hx.
    apply string_of_list_ascii_inj, encode_inj in Hx; [exact Hx|congruence].
Qed.

Lemma sextet_char_in_alphabet i :
  (i < 64)%N ->
  In (Base64.sextet_char Base64.alphabet_url i)
    (list_ascii_of_string Base64.alphabet_url).
Proof.
  intros Hi. unfold Base64.sextet_char. apply nth_In.
  change (length (list_ascii_of_string Base64.alphabet_url)) with 64%nat. lia.
Qed.

Lemma encode_in_alphabet buf :
  Forall (fun ch => In ch (list_ascii_of_string Base64.alphabet_url))
    (Base64.encode Base64.alphabet_url false buf).
Proof.
  induction buf as [|a|a b|a b c rest IH] using list_ind3; cbn [Base64.encode app].
  - constructor.
  - pose proof (Byte.to_N_bounded a).
    destruct (sextets_bounded (Byte.to_N a) 0 0) as (? & ? & _); [lia..|].
    repeat (constructor; [now apply sextet_char_in_alphabet|]). constructor.
  - pose proof (Byte.to_N_bounded a). pose proof (Byte.to_N_bounded b).
    destruct (sextets_bounded (Byte.to_N a) (Byte.to_N b) 0) as (? & ? & ? & _); [lia..|].
    repeat (constructor; [now apply sextet_char_in_alphabet|]). constructor.
  - pose proof (Byte.to_N_bounded a). pose proof (Byte.to_N_bounded b).
    pose proof (Byte.to_N_bounded c).
    destruct (sextets_bounded (Byte.to_N a) (Byte.to_N b) (Byte.to_N c))
      as (? & ? & ? & ?); [lia..|].
    repeat (constructor; [now apply sextet_char_in_alphabet|]). exact IH.
Qed.

(** C8: the token is the base64url text of the 32 octets the generator
    hands out next, and of nothing else: 43 characters, each of them one of
    A-Z, a-z, 0-9, [-] and [_], none the padding character [=]; the 32
    octets can be read back from it.  So when the generator yields every
    string of 32 octets equally often (2^256 draws), no token comes from
    more than one draw: a token carries the 256 bits of its draw, which is
    more than 128. *)
Theorem generateShareToken_32_bytes (source : nat -> Byte.byte) (cursor : nat) :
  generateShareToken source cursor 32
  = Base64.toString_base64url (map source (seq cursor 32))
  /\ length (map source (seq cursor 32)) = 32%nat
  /\ String.length (generateShareToken source cursor 32) = 43%nat
  /\ (forall c, In c (list_ascii_of_string (generateShareToken source cursor 32)) ->
        In c (list_ascii_of_string
                "ABCDEFGHIJKLMNOPQRSTUVWXYZabcdefghijklmnopqrstuvwxyz0123456789-_"))
  /\ ~ In "="%char (list_ascii_of_string (generateShareToken source cursor 32))
  /\ (forall source' cursor',
        generateShareToken source' cursor' 32 = generateShareToken source cursor 32 <->
        map source' (seq cursor' 32) = map source (seq cursor 32))
  /\ In (map source (seq cursor 32)) (all_buffers 32)
  /\ NoDup (all_buffers 32)
  /\ N.of_nat (length (all_buffers 32)) = (2 ^ 256)%N
  /\ forall t,
       (length (filter (fun buf => generateShareToken (source_of buf) 0 32 = t)
                  (all_buffers 32)) <= 1)%nat.
Proof.
  assert (Htok : forall src cur,
            generateShareToken src cur 32
            = Base64.toString_base64url (map src (seq cur 32))).
  { intros src cur. apply (generateShareToken_base64url src cur 32). lia. }
  assert (Hlen : forall (src : nat -> Byte.byte) cur,
            length (map src (seq cur 32)) = 32%nat).
  { intros src cur. now rewrite length_map, length_seq. }
  assert (Halpha : forall c,
            In c (list_ascii_of_string (generateShareToken source cursor 32)) ->
            In c (list_ascii_of_string
                    "ABCDEFGHIJKLMNOPQRSTUVWXYZabcdefghijklmnopqrstuvwxyz0123456789-_")).
  { intros c Hc. rewrite Htok in Hc. unfold Base64.toString_base64url in Hc.
    rewrite list_ascii_of_string_of_list_ascii in Hc.
    pose proof (encode_in_alphabet (map source (seq cursor 32))) as Hall.
    rewrite List.Forall_forall in Hall. exact (Hall c Hc). }
  split; [apply Htok|]. split; [apply Hlen|].
  split.
  { rewrite Htok. unfold Base64.toString_base64url.
    now rewrite length_string_of_list_ascii, encode_unpadded_length, Hlen. }
  split; [exact Halpha|].
  split.
  { intros Hpad. apply Halpha in Hpad. cbn in Hpad.
    repeat (destruct Hpad as [Hpad|Hpad]; [discriminate Hpad|]). exact Hpad. }
  split.
  { intros source' cursor'. rewrite !Htok. split.
    - intros Heq. apply string_of_list_ascii_inj, encode_inj in Heq; [exact Heq|].
      now rewrite !Hlen.
    - now intros ->. }
  split; [apply all_buffers_In, Hlen|].
  split; [apply all_buffers_NoDup|].
  split.
  { rewrite all_buffers_count. vm_compute. reflexivity. }
  intros t. apply one_draw_per_token. lia.
Qed.

(** Two blocks of the sample generator's output, two tokens. *)
Example generateShareToken_next_block :
  generateShareToken sample_byte 32 32 = "4-rx-P8GDRQbIikwNz5FTFNaYWhvdn2Ei5KZoKeutbw"%string
  /\ generateShareToken sample_byte 32 32 <> generateShareToken sample_byte 0 32.
Proof. split; [vm_compute; reflexivity|vm_compute; discriminate]. Qed.

Example generateShareToken_sample :
  generateShareToken sample_byte 0 32 = "AwoRGB8mLTQ7QklQV15lbHN6gYiPlp2kq7K5wMfO1dw"%string.
Proof. vm_compute. reflexivity. Qed.

(** On octets whose padded encoding has [+], [/] and [=], the fallback
    expression of [generateShareToken] gives the base64url text as well. *)
Example fallback_agrees :
  Base64.toString_base64 [Byte.xfb; Byte.xff] = "+/8="%string
  /\ strip_trailing "="
       (replace_char "/" "_"
          (replace_char "+" "-" (Base64.toString_base64 [Byte.xfb; Byte.xff])))
     = Base64.toString_base64url [Byte.xfb; Byte.xff].
Proof. split; reflexivity. Qed.

(** ** Dates *)

Lemma MonthFromTime_range t : 0 <= JsDate.MonthFromTime t <= 11.
Proof.
  unfold JsDate.MonthFromTime.
  repeat (case (Z.ltb_spec _ _); intros; try lia).
Qed.

Lemma MakeDay_of_time t date :
  JsDate.MakeDay (JsDate.YearFromTime t) (JsDate.MonthFromTime t) date
  = JsDate.Day t + (date - JsDate.DateFromTime t).
Proof.
  pose proof (MonthFromTime_range t) as Hm.
  unfold JsDate.MakeDay, JsDate.DateFromTime, JsDate.DayWithinYear, JsDate.InLeapYear.
  rewrite (Z.div_small (JsDate.MonthFromTime t) 12) by lia.
  rewrite (Z.mod_small (JsDate.MonthFromTime t) 12) by lia.
  rewrite Z.add_0_r. lia.
Qed.

Lemma TimeClip_Some t u : JsDate.TimeClip t = Some u -> u = t.
Proof. unfold JsDate.TimeClip. destruct (_ <=? _); congruence. Qed.

Lemma TimeClip_in_range t :
  Z.abs t <= JsDate.maxTime -> JsDate.TimeClip t = Some t.
Proof.
  intros H. unfold JsDate.TimeClip.
  destruct (Z.leb_spec (Z.abs t) JsDate.maxTime); [reflexivity|lia].
Qed.

Lemma TimeClip_out_of_range t :
  JsDate.maxTime < Z.abs t -> JsDate.TimeClip t = None.
Proof.
  intros H. unfold JsDate.TimeClip.
  destruct (Z.leb_spec (Z.abs t) JsDate.maxTime); [lia|reflexivity].
Qed.

(** [addDays] moves the local wall-clock reading on by whole days; the Date
    it returns is invalid when that lands outside the range of time
    values. *)
Lemma addDays_local tz date days :
  addDays tz date days
  = JsDate.TimeClip
      (JsDate.UTC tz (JsDate.LocalTime tz date + days * JsDate.msPerDay)).
Proof.
  unfold addDays, JsDate.setDate, JsDate.getDate. do 2 f_equal.
  rewrite MakeDay_of_time.
  unfold JsDate.MakeDate, JsDate.Day, JsDate.TimeWithinDay, JsDate.msPerDay.
  pose proof (Z.div_mod (JsDate.LocalTime tz date) 86400000 ltac:(lia)). lia.
Qed.

Example addDays_leap_day :
  addDays utcZone 1709078400000 2 = Some 1709251200000.
Proof. reflexivity. Qed.

(** Seven days after the last day a Date can hold there is no Date. *)
Example addDays_beyond_range :
  addDays utcZone JsDate.maxTime 7 = None.
Proof. reflexivity. Qed.

Example date_of_migration :
  (JsDate.YearFromTime 1767783584000, JsDate.MonthFromTime 1767783584000,
   JsDate.DateFromTime 1767783584000) = (2026, 0, 7).
Proof. reflexivity. Qed.

(** Across the change to summer time seven calendar days are 167 hours. *)
Example addDays_across_dst :
  addDays dstZone summer_now 7 = Some (summer_now + 7 * JsDate.msPerDay - 3600000).
Proof. reflexivity. Qed.

(** *** The calendar behind [YearFromTime] *)

Lemma Z_all_from_spec n :
  forall k p, Z_all_from n k p = true ->
  forall j, k <= j < k + Z.of_nat n -> p j = true.
Proof.
  induction n as [|n IH]; intros k p H j Hj; [lia|].
  cbn [Z_all_from] in H. apply andb_prop in H as [H1 H2].
  destruct (Z.eq_dec j k) as [->|Hne]; [exact H1|].
  apply (IH (k + 1) p H2). lia.
Qed.

(** The Gregorian calendar repeats every 400 years, which are 146097 days. *)
Lemma DayFromYear_era y e :
  JsDate.DayFromYear (y + 400 * e) = JsDate.DayFromYear y + 146097 * e.
Proof.
  unfold JsDate.DayFromYear.
  replace (y + 400 * e - 1969) with (y - 1969 + (100 * e) * 4) by lia.
  replace (y + 400 * e - 1901) with (y - 1901 + (4 * e) * 100) by lia.
  replace (y + 400 * e - 1601) with (y - 1601 + e * 400) by lia.
  rewrite !Z.div_add by lia. lia.
Qed.

Lemma isLeapYear_era y e : JsDate.isLeapYear (y + 400 * e) = JsDate.isLeapYear y.
Proof.
  unfold JsDate.isLeapYear.
  replace (y + 400 * e) with (y + (100 * e) * 4) at 1 by lia.
  replace (y + 400 * e) with (y + (4 * e) * 100) at 1 by lia.
  replace (y + 400 * e) with (y + e * 400) by lia.
  now rewrite !Z_mod_plus_full.
Qed.

Lemma YearFromDay_era d e :
  JsDate.YearFromDay (d + 146097 * e) = JsDate.YearFromDay d + 400 * e.
Proof.
  unfold JsDate.YearFromDay.
  replace ((d + 146097 * e) * 400) with (d * 400 + (400 * e) * 146097) by lia.
  rewrite Z.div_add by lia.
  replace (1970 + (d * 400 / 146097 + 400 * e))
    with (1970 + d * 400 / 146097 + 400 * e) by lia.
  replace (1970 + d * 400 / 146097 + 400 * e + 1)
    with (1970 + d * 400 / 146097 + 1 + 400 * e) by lia.
  rewrite !DayFromYear_era.
  repeat match goal with
         | |- context [Z.ltb ?a ?b] => destruct (Z.ltb_spec a b)
         | |- context [Z.leb ?a ?b] => destruct (Z.leb_spec a b)
         end; lia.
Qed.

Lemma year_ok_era : Z_all_from (Z.to_nat 146097) 0 year_ok = true.
Proof. vm_cast_no_check (eq_refl true). Qed.

Lemma step_ok_era : Z_all_from 400 0 step_ok = true.
Proof. vm_compute. reflexivity. Qed.

(** [YearFromDay d] is a year that contains day [d]. *)
Lemma YearFromDay_spec d :
  JsDate.DayFromYear (JsDate.YearFromDay d) <= d
  < JsDate.DayFromYear (JsDate.YearFromDay d + 1).
Proof.
  assert (Hera : forall k e, 0 <= k < 146097 ->
            JsDate.DayFromYear (JsDate.YearFromDay (k + 146097 * e)) <= k + 146097 * e
            < JsDate.DayFromYear (JsDate.YearFromDay (k + 146097 * e) + 1)).
  { intros k e Hk. rewrite YearFromDay_era.
    replace (JsDate.YearFromDay k + 400 * e + 1)
      with (JsDate.YearFromDay k + 1 + 400 * e) by lia.
    rewrite !DayFromYear_era.
    assert (Hr : 0 <= k < 0 + Z.of_nat (Z.to_nat 146097)) by (rewrite Z2Nat.id; lia).
    pose proof (Z_all_from_spec _ _ _ year_ok_era k Hr) as H.
    unfold year_ok in H. apply andb_prop in H as [H1 H2].
    apply Z.leb_le in H1. apply Z.ltb_lt in H2. lia. }
  pose proof (Z.div_mod d 146097 ltac:(lia)) as Hd.
  pose proof (Z.mod_pos_bound d 146097 ltac:(lia)) as Hk.
  specialize (Hera (d mod 146097) (d / 146097) Hk).
  replace (d mod 146097 + 146097 * (d / 146097)) with d in Hera by lia.
  exact Hera.
Qed.

Lemma DayFromYear_step y :
  JsDate.DayFromYear (y + 1) = JsDate.DayFromYear y + JsDate.DaysInYear y.
Proof.
  assert (Hera : forall r e, 0 <= r < 400 ->
            JsDate.DayFromYear (r + 400 * e + 1)
            = JsDate.DayFromYear (r + 400 * e) + JsDate.DaysInYear (r + 400 * e)).
  { intros r e Hr.
    pose proof (Z_all_from_spec _ _ _ step_ok_era r ltac:(lia)) as H.
    apply Z.eqb_eq in H.
    replace (r + 400 * e + 1) with (r + 1 + 400 * e) by lia.
    unfold JsDate.DaysInYear in *. rewrite !DayFromYear_era, isLeapYear_era. lia. }
  pose proof (Z.div_mod y 400 ltac:(lia)) as Hy.
  pose proof (Z.mod_pos_bound y 400 ltac:(lia)) as Hr.
  specialize (Hera (y mod 400) (y / 400) Hr).
  replace (y mod 400 + 400 * (y / 400)) with y in Hera by lia.
  exact Hera.
Qed.

Lemma DayFromYear_mono y1 y2 :
  y1 <= y2 -> JsDate.DayFromYear y1 <= JsDate.DayFromYear y2.
Proof.
  intros H. replace y2 with (y1 + Z.of_nat (Z.to_nat (y2 - y1))) by lia.
  induction (Z.to_nat (y2 - y1)) as [|n IH].
  - rewrite Z.add_0_r. lia.
  - replace (y1 + Z.of_nat (S n)) with (y1 + Z.of_nat n + 1) by lia.
    rewrite DayFromYear_step. unfold JsDate.DaysInYear.
    destruct (JsDate.isLeapYear _); lia.
Qed.

(** [YearFromTime t] is the largest year that has begun by [t]. *)
Lemma YearFromTime_largest t y :
  JsDate.TimeFromYear y <= t <-> y <= JsDate.YearFromTime t.
Proof.
  unfold JsDate.YearFromTime, JsDate.TimeFromYear.
  pose proof (YearFromDay_spec (JsDate.Day t)) as [H1 H2].
  assert (Hday : JsDate.msPerDay * JsDate.DayFromYear y <= t
                 <-> JsDate.DayFromYear y <= JsDate.Day t).
  { unfold JsDate.Day, JsDate.msPerDay.
    pose proof (Z.div_mod t 86400000 ltac:(lia)).
    pose proof (Z.mod_pos_bound t 86400000 ltac:(lia)). lia. }
  rewrite Hday. split; intros H.
  - destruct (Z_le_gt_dec y (JsDate.YearFromDay (JsDate.Day t))) as [|Hgt]; [assumption|].
    pose proof (DayFromYear_mono (JsDate.YearFromDay (JsDate.Day t) + 1) y ltac:(lia)). lia.
  - pose proof (DayFromYear_mono y (JsDate.YearFromDay (JsDate.Day t)) H). lia.
Qed.

(** ** Folder walk *)

Lemma folderWalk_fuel_mono fuel db :
  forall i acc r, folderWalk fuel db i acc = Some r ->
  forall fuel', (fuel <= fuel')%nat -> folderWalk fuel' db i acc = Some r.
Proof.
  induction fuel as [|fuel IH]; intros i acc r H fuel' Hle.
  - destruct i as [cid|]; simpl in *; [|destruct fuel'; exact H].
    destruct (negb (cid =? EmptyString)%string) eqn:E; [discriminate|].
    destruct fuel'; simpl; rewrite E; exact H.
  - destruct fuel' as [|fuel']; [lia|].
    destruct i as [cid|]; simpl in *; [|exact H].
    destruct (negb (cid =? EmptyString)%string); [|exact H].
    destruct (folders db !! cid) as [f|]; [|exact H].
    apply IH; [exact H|lia].
Qed.

Lemma folderWalk_Breadcrumb fuel db :
  forall i acc r, folderWalk fuel db i acc = Some r ->
  exists path, Breadcrumb db i path /\ r = path ++ acc.
Proof.
  assert (Hstop : forall (i : option string) acc r,
             truthy_id i = false -> Some acc = Some r ->
             exists path, Breadcrumb db i path /\ r = path ++ acc).
  { intros i acc r E [= <-]. exists []. split; [apply Breadcrumb_null, E|reflexivity]. }
  induction fuel as [|fuel IH]; intros i acc r H.
  - destruct i as [cid|]; simpl in H; [|now apply Hstop].
    destruct (negb (cid =? EmptyString)%string) eqn:E; [discriminate|].
    now apply Hstop.
  - destruct i as [cid|]; simpl in H; [|now apply Hstop].
    destruct (negb (cid =? EmptyString)%string) eqn:E; [|now apply Hstop].
    destruct (folders db !! cid) as [f|] eqn:Ef.
    + apply IH in H as (path & Hp & ->).
      exists (path ++ [(cid, Folder.name f)]). split.
      * now apply Breadcrumb_step.
      * now rewrite <- app_assoc.
    + injection H as <-. exists []. split; [now apply Breadcrumb_missing|reflexivity].
Qed.

Lemma Breadcrumb_folderWalk db i path :
  Breadcrumb db i path ->
  forall acc, folderWalk (S (length path)) db i acc = Some (path ++ acc).
Proof.
  induction 1 as [i E|i E Hm|i f path E Hf _ IH]; intros acc.
  - destruct i as [cid|]; [|reflexivity].
    simpl in *. now rewrite E.
  - simpl in *. now rewrite E, Hm.
  - simpl in E. cbn [folderWalk truthy_id]. rewrite E, Hf.
    rewrite length_app, Nat.add_comm. cbn [length Nat.add].
    rewrite IH. now rewrite <- app_assoc.
Qed.

Lemma Breadcrumb_functional db i p1 :
  Breadcrumb db i p1 -> forall p2, Breadcrumb db i p2 -> p1 = p2.
Proof.
  induction 1 as [i E|i E Hm|i f path E Hf _ IH]; intros p2 H2;
    inversion H2; subst; try congruence.
  assert (f0 = f) by congruence. subst f0.
  f_equal. now apply IH.
Qed.

Lemma getFolderPath_Breadcrumb fuel db i path :
  getFolderPath fuel db i = Some path -> Breadcrumb db i path.
Proof.
  unfold getFolderPath. destruct (truthy_id i) eqn:E; simpl.
  - intros H. apply folderWalk_Breadcrumb in H as (p & Hp & ->).
    now rewrite app_nil_r.
  - intros [= <-]. now constructor.
Qed.

Lemma getFolderPath_fuel_indep fuel1 fuel2 db i p1 p2 :
  getFolderPath fuel1 db i = Some p1 -> getFolderPath fuel2 db i = Some p2 -> p1 = p2.
Proof.
  intros H1 H2. apply getFolderPath_Breadcrumb in H1, H2.
  eapply Breadcrumb_functional; eassumption.
Qed.

Lemma getFolderPath_falsy fuel db i :
  truthy_id i = false -> getFolderPath fuel db i = Some [].
Proof. unfold getFolderPath. now intros ->. Qed.

Lemma cyclic_walk_never_ends fuel :
  forall acc, folderWalk fuel cyclic_db (Some "f1"%string) acc = None.
Proof.
  induction fuel as [|fuel IH]; intros acc; [reflexivity|].
  cbn [folderWalk truthy_id]. simpl negb. cbv iota.
  change (folders cyclic_db) with
    ({[ "f1"%string := {| Folder.name := "Loop"; Folder.parentId := Some "f1"%string |} ]}
       : gmap string Folder.t).
  rewrite lookup_singleton_eq. apply IH.
Qed.

(** C3, counterexample: on a folder whose [parentId] is its own
    id, the walk of [getFolderPath] is still running after any number of
    loop turns. *)
Lemma getFolderPath_cycle_diverges :
  ~ (exists fuel path, getFolderPath fuel cyclic_db (Some "f1"%string) = Some path).
Proof.
  intros (fuel & path & H). unfold getFolderPath in H. simpl in H.
  now rewrite cyclic_walk_never_ends in H.
Qed.

Lemma ranked_Breadcrumb (db : Db) (rank : string -> nat) :
  (forall i f p, folders db !! i = Some f -> Folder.parentId f = Some p ->
     truthy_id (Some p) = true -> is_Some (folders db !! p) ->
     (rank p < rank i)%nat) ->
  forall n i, (rank i < n)%nat -> exists path, Breadcrumb db (Some i) path.
Proof.
  intros Hrank. induction n as [|n IH]; intros i Hn; [lia|].
  destruct (truthy_id (Some i)) eqn:Ei;
    [|exists []; now apply Breadcrumb_null].
  destruct (folders db !! i) as [f|] eqn:Ef;
    [|exists []; now apply Breadcrumb_missing].
  assert (Hparent : exists path, Breadcrumb db (Folder.parentId f) path).
  { destruct (Folder.parentId f) as [p|] eqn:Ep;
      [|exists []; now apply Breadcrumb_null].
    destruct (truthy_id (Some p)) eqn:Etp;
      [|exists []; now apply Breadcrumb_null].
    destruct (folders db !! p) as [g|] eqn:Eg;
      [|exists []; now apply Breadcrumb_missing].
    apply IH. specialize (Hrank i f p Ef Ep Etp). rewrite Eg in Hrank.
    specialize (Hrank (mk_is_Some _ _ eq_refl)). lia. }
  destruct Hparent as [path Hpath].
  exists (path ++ [(i, Folder.name f)]). now apply Breadcrumb_step with (f := f).
Qed.

(** C3, amended: when the parent references that lead to stored folders
    strictly decrease some rank (no cycle; a null, empty or dangling
    [parentId] is allowed anywhere), the walk of [getFolderPath] ends, and
    its result is the breadcrumb cut at the first missing folder. *)
Theorem getFolderPath_terminates_acyclic (db : Db) (rank : string -> nat) :
  (forall i f p, folders db !! i = Some f -> Folder.parentId f = Some p ->
     truthy_id (Some p) = true -> is_Some (folders db !! p) ->
     (rank p < rank i)%nat) ->
  forall folderId, exists fuel path,
    getFolderPath fuel db folderId = Some path /\ Breadcrumb db folderId path.
Proof.
  intros Hrank folderId.
  destruct (truthy_id folderId) eqn:E.
  - destruct folderId as [i|]; [|discriminate].
    destruct (ranked_Breadcrumb db rank Hrank (S (rank i)) i) as [path Hp]; [lia|].
    exists (S (length path)), path. split; [|exact Hp].
    unfold getFolderPath. rewrite E. simpl negb. cbv iota.
    rewrite (Breadcrumb_folderWalk db (Some i) path Hp []). now rewrite app_nil_r.
  - exists 0%nat, []. split; [now apply getFolderPath_falsy|now apply Breadcrumb_null].
Qed.

Lemma getFolderPath_terminates_acyclic_witness :
  (forall i f p, folders dangling_db !! i = Some f -> Folder.parentId f = Some p ->
     truthy_id (Some p) = true -> is_Some (folders dangling_db !! p) ->
     (dangling_rank p < dangling_rank i)%nat)
  /\ exists fuel path,
       getFolderPath fuel dangling_db (Some "b"%string) = Some path
       /\ Breadcrumb dangling_db (Some "b"%string) path.
Proof.
  assert (H : forall i f p, folders dangling_db !! i = Some f ->
            Folder.parentId f = Some p ->
            truthy_id (Some p) = true -> is_Some (folders dangling_db !! p) ->
            (dangling_rank p < dangling_rank i)%nat).
  { intros i f p Hi Hp _ Hsome. unfold dangling_db in *. simpl in *.
    apply lookup_insert_Some in Hi as [[<- <-]|[Hne Hi]].
    - simpl in Hp. injection Hp as <-. destruct Hsome as [g Hg].
      rewrite lookup_insert_ne in Hg by discriminate.
      rewrite lookup_singleton_ne in Hg by discriminate. discriminate.
    - apply lookup_singleton_Some in Hi as [<- <-].
      simpl in Hp. injection Hp as <-. unfold dangling_rank. simpl. lia. }
  split; [exact H|].
  exact (getFolderPath_terminates_acyclic dangling_db dangling_rank H (Some "b"%string)).
Defined.

Example getFolderPath_dangling :
  getFolderPath 3 dangling_db (Some "b"%string)
  = Some [("a"%string, "A"%string); ("b"%string, "B"%string)].
Proof. vm_compute. reflexivity. Qed.

(** ** How the store evolves *)

Lemma find_id_some (ls : list ReportShareLink.t) i l :
  find (fun x => String.eqb (ReportShareLink.id x) i) ls = Some l ->
  l ∈ ls /\ ReportShareLink.id l = i.
Proof.
  intros H. apply find_some in H as [Hin Heq].
  split; [now apply list_elem_of_In|now apply String.eqb_eq].
Qed.

Lemma NoDup_id_inj (ls : list ReportShareLink.t) l1 l2 :
  NoDup (map ReportShareLink.id ls) -> l1 ∈ ls -> l2 ∈ ls ->
  ReportShareLink.id l1 = ReportShareLink.id l2 -> l1 = l2.
Proof.
  induction ls as [|x ls IH]; intros Hnd H1 H2 Heq; [inversion H1|].
  cbn [map] in Hnd. apply NoDup_cons in Hnd as [Hx Hnd].
  apply elem_of_cons in H1 as [->|H1]; apply elem_of_cons in H2 as [->|H2].
  - reflexivity.
  - exfalso. apply Hx. rewrite Heq. now apply list_elem_of_fmap_2.
  - exfalso. apply Hx. rewrite <- Heq. now apply list_elem_of_fmap_2.
  - now apply IH.
Qed.

Lemma createAttempts_links remaining env db planId userId expiresAt :
  forall attempt tried,
    let run := createAttempts remaining attempt env db planId userId expiresAt tried in
    run_db run = db
    \/ exists link,
         run_db run = with_links db (reportShareLinks db ++ [link])
         /\ forall l, l ∈ reportShareLinks db ->
              ReportShareLink.token l <> ReportShareLink.token link
              /\ ReportShareLink.id l <> ReportShareLink.id link.
Proof.
  induction remaining as [|remaining IH]; intros attempt tried; [now left|].
  cbn [createAttempts].
  destruct (reportShareLink_create db _ _ _ _) as [e|[db' link]] eqn:Hc.
  - destruct (is_P2002 e); [apply IH|now left].
  - right. exists link. cbn [run_db].
    unfold reportShareLink_create in Hc. cbn [data_expiresAt] in Hc.
    destruct expiresAt as [expires|]; [|discriminate].
    destruct (storeFault env attempt); [discriminate|].
    destruct (existsb _ _) eqn:Hex; [discriminate|].
    destruct (plans db !! _); [|discriminate].
    injection Hc as <- <-. split; [reflexivity|].
    intros l Hl. cbn [ReportShareLink.token ReportShareLink.id data_token].
    assert (Hl' : In l (reportShareLinks db)) by now apply list_elem_of_In.
    destruct (String.eqb (ReportShareLink.token l)
                (generateShareToken (randomSource env) (32 * attempt) 32)
              || String.eqb (ReportShareLink.id l) (storeCuid env attempt)) eqn:Hne.
    { exfalso. apply not_true_iff_false in Hex. apply Hex.
      apply existsb_exists. exists l. split; [exact Hl'|exact Hne]. }
    apply orb_false_elim in Hne as [H1 H2].
    split; [now apply String.eqb_neq|now apply String.eqb_neq].
Qed.


(** The primary key and the unique index on [token] hold after every
    operation. *)
Lemma perform_unique env op db :
  NoDup (map ReportShareLink.id (reportShareLinks db)) ->
  NoDup (map ReportShareLink.token (reportShareLinks db)) ->
  NoDup (map ReportShareLink.id (reportShareLinks (perform env op db)))
  /\ NoDup (map ReportShareLink.token (reportShareLinks (perform env op db))).
Proof.
  intros Hid Htok.
  destruct op as [planId user|planId|i|fuel token]; cbn [perform]; auto.
  - unfold createPlanReportShareLink.
    destruct user as [userId|]; [|auto].
    destruct (truthy_id (Some userId)); [|auto].
    destruct (plans db !! planId); [|auto].
    destruct (createAttempts_links 5 env db planId userId
                (addDays (LocalTZA env) (clock env) SHARE_EXPIRES_DAYS) 0%nat [])
      as [->|(link & -> & Hfresh)]; [auto|].
    cbn [reportShareLinks with_links]. rewrite !map_app. cbn [map].
    split; apply NoDup_app; (split; [assumption|]);
      (split; [|apply NoDup_singleton]);
      intros x Hx Hx1; apply list_elem_of_singleton in Hx1; subst x;
      apply list_elem_of_fmap in Hx as (l & Heq & Hl);
      destruct (Hfresh l Hl) as [Ht Hi]; congruence.
  - unfold revokeReportShareLink.
    destruct (findUnique_by_id db i) as [l0|] eqn:Hf; [|auto].
    destruct (truthy_date (ReportShareLink.revokedAt l0)); [auto|].
    unfold reportShareLink_update_revokedAt. rewrite Hf.
    cbn [fst reportShareLinks with_links]. rewrite !map_map.
    split.
    + erewrite map_ext; [exact Hid|].
      intros l. now destruct (String.eqb (ReportShareLink.id l) i).
    + erewrite map_ext; [exact Htok|].
      intros l. now destruct (String.eqb (ReportShareLink.id l) i).
Qed.


(** ** Creation *)

Lemma createAttempts_spec env db planId userId expiresAt remaining :
  forall attempt tried, (0 < remaining)%nat ->
    let run := createAttempts remaining attempt env db planId userId expiresAt tried in
    exists n, (1 <= n <= remaining)%nat
      /\ run_tokens run = tried ++ map (attempt_token env) (seq attempt n)
      /\ (forall i, (attempt <= i < attempt + n - 1)%nat ->
            exists e, attempt_insert env db planId userId expiresAt i = inl e
                      /\ is_P2002 e = true)
      /\ match attempt_insert env db planId userId expiresAt (attempt + n - 1) with
         | inr (db', link) =>
             run_db run = db'
             /\ run_response run
                = {| status := 201; body := JObj (success (link_json link)) |}
         | inl e =>
             run_db run = db
             /\ run_response run
                = failure 500
                    (if is_P2002 e
                     then "공유 링크 생성에 실패했습니다. 다시 시도해주세요."
                     else "공유 링크 생성 중 오류가 발생했습니다.")
             /\ (is_P2002 e = true -> n = remaining)
         end.
Proof.
  induction remaining as [|remaining IH]; intros attempt tried Hpos; [lia|].
  cbn [createAttempts].
  change (reportShareLink_create db (storeFault env attempt) (storeClock env attempt)
            (storeCuid env attempt) _)
    with (attempt_insert env db planId userId expiresAt attempt).
  change (generateShareToken (randomSource env) (32 * attempt) 32)
    with (attempt_token env attempt).
  destruct (attempt_insert env db planId userId expiresAt attempt)
    as [e|[db' link]] eqn:Hins.
  - destruct (is_P2002 e) eqn:He.
    + destruct remaining as [|remaining'].
      * exists 1%nat. cbn [createAttempts run_tokens run_db run_response].
        split; [lia|]. split; [reflexivity|]. split; [intros i Hi; lia|].
        replace (attempt + 1 - 1)%nat with attempt by lia. rewrite Hins, He.
        repeat split.
      * destruct (IH (S attempt) (tried ++ [attempt_token env attempt]) ltac:(lia))
          as (n & Hn & Htok & Hbefore & Hlast).
        exists (S n). split; [lia|]. split.
        { rewrite Htok. cbn [seq map]. now rewrite <- app_assoc. }
        split.
        { intros i Hi. destruct (Nat.eq_dec i attempt) as [->|Hne].
          - exists e. now split.
          - apply Hbefore. lia. }
        replace (attempt + S n - 1)%nat with (S attempt + n - 1)%nat by lia.
        destruct (attempt_insert env db planId userId expiresAt (S attempt + n - 1))
          as [e'|[db'' link'']]; [|exact Hlast].
        destruct Hlast as (H1 & H2 & H3). repeat split; try assumption.
        intros He'. rewrite (H3 He'). reflexivity.
    + exists 1%nat. cbn [run_tokens run_db run_response].
      split; [lia|]. split; [reflexivity|]. split; [intros i Hi; lia|].
      replace (attempt + 1 - 1)%nat with attempt by lia. rewrite Hins, He.
      repeat split. discriminate.
  - exists 1%nat. cbn [run_tokens run_db run_response].
    split; [lia|]. split; [reflexivity|]. split; [intros i Hi; lia|].
    replace (attempt + 1 - 1)%nat with attempt by lia. rewrite Hins.
    split; reflexivity.
Qed.

Lemma is_P2002_code e : is_P2002 e = true <-> code e = Some "P2002"%string.
Proof.
  unfold is_P2002. destruct (code e) as [c|]; [|split; discriminate].
  rewrite String.eqb_eq. split; congruence.
Qed.

Lemma attempt_insert_P2002 env db planId userId expiresAt i e :
  attempt_insert env db planId userId expiresAt i = inl e -> is_P2002 e = true ->
  storeFault env i = Some e
  \/ (storeFault env i = None
      /\ exists l, l ∈ reportShareLinks db
           /\ (ReportShareLink.token l = attempt_token env i
               \/ ReportShareLink.id l = storeCuid env i)).
Proof.
  unfold attempt_insert, reportShareLink_create. cbn [data_expiresAt data_token data_planId].
  destruct expiresAt as [expires|]; [|intros [= <-]; discriminate].
  destruct (storeFault env i) as [e0|]; [intros [= <-] _; now left|].
  destruct (existsb _ _) eqn:Hex.
  - intros _ _. right. split; [reflexivity|].
    apply existsb_exists in Hex as (l & Hl & Hor). exists l.
    split; [now apply list_elem_of_In|].
    apply orb_prop in Hor as [H|H]; apply String.eqb_eq in H; auto.
  - destruct (plans db !! planId); [discriminate|]. intros [= <-]. discriminate.
Qed.

Lemma attempt_insert_conflict env db planId userId expires i l :
  storeFault env i = None -> l ∈ reportShareLinks db ->
  ReportShareLink.token l = attempt_token env i \/ ReportShareLink.id l = storeCuid env i ->
  attempt_insert env db planId userId (Some expires) i
  = inl {| code := Some "P2002"%string |}.
Proof.
  intros Hfault Hl Hor. unfold attempt_insert, reportShareLink_create.
  cbn [data_expiresAt data_token]. rewrite Hfault.
  assert (Hex : existsb (fun l => String.eqb (ReportShareLink.token l) (attempt_token env i)
                                  || String.eqb (ReportShareLink.id l) (storeCuid env i))
                  (reportShareLinks db) = true).
  { apply existsb_exists. exists l. split; [now apply list_elem_of_In|].
    apply orb_true_intro. destruct Hor as [H|H]; [left|right]; now apply String.eqb_eq. }
  now rewrite Hex.
Qed.

(** C5, counterexample: the store gives the first insert the primary key of
    the stored link [l1]; no stored link carries the token drawn, yet the
    insert fails with P2002 and the handler tries again, with a new token,
    and answers 201. *)
Lemma create_retries_without_token_conflict :
  (forall l, l ∈ reportShareLinks sample_db ->
     ReportShareLink.token l <> attempt_token id_clash_env 0)
  /\ attempt_insert id_clash_env sample_db "p1" "u1"
       (addDays (LocalTZA id_clash_env) (clock id_clash_env) SHARE_EXPIRES_DAYS) 0
     = inl {| code := Some "P2002"%string |}
  /\ run_tokens (createPlanReportShareLink id_clash_env sample_db "p1" (Some "u1"%string))
     = [attempt_token id_clash_env 0; attempt_token id_clash_env 1]
  /\ status (run_response
               (createPlanReportShareLink id_clash_env sample_db "p1" (Some "u1"%string)))
     = 201.
Proof.
  split.
  { intros l Hl. cbn [reportShareLinks sample_db] in Hl.
    repeat (apply elem_of_cons in Hl as [->|Hl]); [ .. | inversion Hl];
      vm_compute; discriminate. }
  split; [vm_compute; reflexivity|].
  split; vm_compute; reflexivity.
Qed.

(** C5, amended: for an authenticated caller, an unknown plan is answered
    404 without any insert.  Otherwise the handler makes [n] inserts,
    [1 <= n <= 5], the [i]-th with the token encoded from the [i]-th block
    of 32 fresh octets; every insert but the last failed with the code
    P2002; the last one either succeeded (201), or failed otherwise (500, no
    further attempt), or failed with P2002 as the fifth (500).  An insert
    fails with P2002 when the store says so, which it does when a stored
    link has the same token and just as well when one has the same primary
    key. *)
Theorem create_bounded_retry env db planId userId :
  truthy_id (Some userId) = true ->
  let run := createPlanReportShareLink env db planId (Some userId) in
  let expiresAt := addDays (LocalTZA env) (clock env) SHARE_EXPIRES_DAYS in
  (plans db !! planId = None ->
     run_response run = failure 404 "플랜을 찾을 수 없습니다."
     /\ run_tokens run = [] /\ run_db run = db)
  /\ (is_Some (plans db !! planId) ->
      exists n, (1 <= n <= 5)%nat
        /\ run_tokens run
           = map (fun i => generateShareToken (randomSource env) (32 * i) 32) (seq 0 n)
        /\ (forall i, (i < n - 1)%nat ->
              exists e, attempt_insert env db planId userId expiresAt i = inl e
                        /\ code e = Some "P2002"%string)
        /\ match attempt_insert env db planId userId expiresAt (n - 1) with
           | inr (db', link) =>
               run_db run = db'
               /\ run_response run
                  = {| status := 201; body := JObj (success (link_json link)) |}
           | inl e =>
               run_db run = db
               /\ run_response run
                  = failure 500
                      (if is_P2002 e
                       then "공유 링크 생성에 실패했습니다. 다시 시도해주세요."
                       else "공유 링크 생성 중 오류가 발생했습니다.")
               /\ (code e = Some "P2002"%string -> n = 5%nat)
           end)
  /\ (forall i e,
        attempt_insert env db planId userId expiresAt i = inl e ->
        code e = Some "P2002"%string ->
        storeFault env i = Some e
        \/ (storeFault env i = None
            /\ exists l, l ∈ reportShareLinks db
                 /\ (ReportShareLink.token l
                     = generateShareToken (randomSource env) (32 * i) 32
                     \/ ReportShareLink.id l = storeCuid env i)))
  /\ (forall i l expires,
        expiresAt = Some expires -> storeFault env i = None ->
        l ∈ reportShareLinks db ->
        ReportShareLink.token l = generateShareToken (randomSource env) (32 * i) 32
        \/ ReportShareLink.id l = storeCuid env i ->
        attempt_insert env db planId userId expiresAt i
        = inl {| code := Some "P2002"%string |}).
Proof.
  intros Huser run expiresAt. subst run. unfold createPlanReportShareLink.
  rewrite Huser. split; [|split; [|split]].
  - intros ->. repeat split.
  - intros [p ->].
    destruct (createAttempts_spec env db planId userId expiresAt 5 0%nat [] ltac:(lia))
      as (n & Hn & Htok & Hbefore & Hlast).
    exists n. split; [exact Hn|]. split; [exact Htok|].
    split.
    { intros i Hi. destruct (Hbefore i ltac:(lia)) as (e & He & HP).
      exists e. split; [exact He|now apply is_P2002_code]. }
    cbn [Nat.add] in Hlast.
    destruct (attempt_insert env db planId userId expiresAt (n - 1)) as [e|[db' link]];
      [|exact Hlast].
    destruct Hlast as (H1 & H2 & H3). repeat split; try assumption.
    intros Hc. apply H3. now apply is_P2002_code.
  - intros i e Hins Hc. apply is_P2002_code in Hc.
    exact (attempt_insert_P2002 _ _ _ _ _ _ _ Hins Hc).
  - intros i l expires -> Hfault Hl Hor.
    now apply (attempt_insert_conflict env db planId userId expires i l).
Qed.

Lemma create_bounded_retry_witness :
  (truthy_id (Some "u1"%string) = true /\ is_Some (plans sample_db !! "p1"%string))
  /\ exists n, (1 <= n <= 5)%nat
       /\ run_tokens (createPlanReportShareLink colliding_env sample_db "p1" (Some "u1"%string))
          = map (fun i => generateShareToken (randomSource colliding_env) (32 * i) 32)
              (seq 0 n)
       /\ n = 3%nat
       /\ status (run_response (createPlanReportShareLink colliding_env sample_db "p1"
                                  (Some "u1"%string))) = 201.
Proof.
  assert (Hu : truthy_id (Some "u1"%string) = true) by reflexivity.
  assert (Hp : is_Some (plans sample_db !! "p1"%string))
    by (exists sample_plan; vm_compute; reflexivity).
  split; [split; assumption|].
  destruct (create_bounded_retry colliding_env sample_db "p1" "u1" Hu) as (_ & Hrun & _).
  destruct (Hrun Hp) as (n & Hn & Htok & _).
  exists n. split; [exact Hn|]. split; [exact Htok|].
  split; [|vm_compute; reflexivity].
  apply (f_equal (@length string)) in Htok. rewrite length_map, length_seq in Htok.
  rewrite <- Htok. vm_compute. reflexivity.
Defined.

Example create_after_two_collisions :
  let run := createPlanReportShareLink colliding_env sample_db "p1" (Some "u1"%string) in
  (status (run_response run), length (run_tokens run),
   length (reportShareLinks (run_db run))) = (201, 3%nat, 4%nat).
Proof. vm_compute. reflexivity. Qed.

Example create_exhausted :
  let run := createPlanReportShareLink exhausted_env sample_db "p1" (Some "u1"%string) in
  run_response run = failure 500 "공유 링크 생성에 실패했습니다. 다시 시도해주세요."
  /\ length (run_tokens run) = 5%nat /\ run_db run = sample_db.
Proof. vm_compute. repeat split. Qed.

Example create_other_error_not_retried :
  let run := createPlanReportShareLink unreachable_env sample_db "p1" (Some "u1"%string) in
  run_response run = failure 500 "공유 링크 생성 중 오류가 발생했습니다."
  /\ length (run_tokens run) = 2%nat /\ run_db run = sample_db.
Proof. vm_compute. repeat split. Qed.

Example create_unauthenticated :
  run_response (createPlanReportShareLink sample_env sample_db "p1" None)
  = failure 401 "인증이 필요합니다.".
Proof. reflexivity. Qed.

(** *** Expiry of a new link *)

Lemma attempt_insert_inr env db planId userId expiresAt i db' link :
  attempt_insert env db planId userId expiresAt i = inr (db', link) ->
  reportShareLinks db' = reportShareLinks db ++ [link]
  /\ ReportShareLink.createdAt link = storeClock env i
  /\ expiresAt = Some (ReportShareLink.expiresAt link).
Proof.
  unfold attempt_insert, reportShareLink_create. cbn [data_expiresAt].
  destruct expiresAt as [expires|]; [|discriminate].
  destruct (storeFault env i); [discriminate|].
  destruct (existsb _ _); [discriminate|].
  destruct (plans db !! _); [|discriminate].
  intros [= <- <-]. repeat split.
Qed.

(** C2, counterexample: the handler reads its clock at 500, the
    store stamps the row at 503, and the stored [expiresAt] is seven days
    after the former, not after [createdAt]. *)
Lemma create_expiresAt_is_not_createdAt_plus_7_days :
  exists link,
    status (run_response (createPlanReportShareLink sample_env sample_db "p1"
                            (Some "u1"%string))) = 201
    /\ reportShareLinks (run_db (createPlanReportShareLink sample_env sample_db "p1"
                                   (Some "u1"%string)))
       = reportShareLinks sample_db ++ [link]
    /\ ReportShareLink.createdAt link = 503
    /\ ReportShareLink.expiresAt link = 500 + 7 * 86400000
    /\ ReportShareLink.expiresAt link <> ReportShareLink.createdAt link + 7 * 86400000.
Proof.
  eexists. split; [vm_compute; reflexivity|].
  split; [vm_compute; reflexivity|].
  split; [reflexivity|]. split; [reflexivity|]. cbn. lia.
Qed.

(** C2, amended: the link stored by a successful create has [expiresAt]
    equal to the handler's clock reading moved on by seven calendar days of
    server-local time, that is, exactly 7 * 24 hours later whenever the
    local offset from UTC is the same at both ends; [createdAt] is the
    store's own time stamp of the insert, so [expiresAt] is [createdAt] plus
    7 days exactly when that stamp equals the handler's reading. *)
Theorem create_expiresAt env db planId user :
  status (run_response (createPlanReportShareLink env db planId user)) = 201 ->
  exists link n,
    (n < 5)%nat
    /\ run_response (createPlanReportShareLink env db planId user)
       = {| status := 201; body := JObj (success (link_json link)) |}
    /\ reportShareLinks (run_db (createPlanReportShareLink env db planId user))
       = reportShareLinks db ++ [link]
    /\ ReportShareLink.createdAt link = storeClock env n
    /\ addDays (LocalTZA env) (clock env) SHARE_EXPIRES_DAYS
       = Some (ReportShareLink.expiresAt link)
    /\ ReportShareLink.expiresAt link
       = JsDate.UTC (LocalTZA env)
           (JsDate.LocalTime (LocalTZA env) (clock env) + 7 * JsDate.msPerDay)
    /\ (LocalTZA env (JsDate.LocalTime (LocalTZA env) (clock env) + 7 * JsDate.msPerDay) false
        = LocalTZA env (clock env) true ->
        ReportShareLink.expiresAt link = clock env + 7 * JsDate.msPerDay
        /\ (ReportShareLink.expiresAt link
            = ReportShareLink.createdAt link + 7 * JsDate.msPerDay
            <-> storeClock env n = clock env)).
Proof.
  unfold createPlanReportShareLink.
  destruct user as [userId|]; [|discriminate].
  destruct (truthy_id (Some userId)); [|discriminate].
  destruct (plans db !! planId) as [p|]; [|discriminate].
  set (expiresAt := addDays (LocalTZA env) (clock env) SHARE_EXPIRES_DAYS).
  destruct (createAttempts_spec env db planId userId expiresAt 5 0%nat [] ltac:(lia))
    as (n & Hn & _ & _ & Hlast).
  cbn [Nat.add] in Hlast.
  destruct (attempt_insert env db planId userId expiresAt (n - 1))
    as [e|[db' link]] eqn:Hins.
  { destruct Hlast as (_ & -> & _). discriminate. }
  destruct Hlast as [Hdb Hresp]. intros _.
  destruct (attempt_insert_inr _ _ _ _ _ _ _ _ Hins) as (Hlinks & Hcreated & Hexp).
  exists link, (n - 1)%nat.
  split; [lia|]. split; [exact Hresp|]. split; [now rewrite Hdb|].
  split; [exact Hcreated|]. split; [exact Hexp|].
  assert (Hlocal : ReportShareLink.expiresAt link
                   = JsDate.UTC (LocalTZA env)
                       (JsDate.LocalTime (LocalTZA env) (clock env) + 7 * JsDate.msPerDay)).
  { unfold expiresAt in Hexp. rewrite addDays_local in Hexp.
    now apply TimeClip_Some in Hexp. }
  split; [exact Hlocal|].
  intros Hzone.
  assert (H7 : ReportShareLink.expiresAt link = clock env + 7 * JsDate.msPerDay).
  { rewrite Hlocal. unfold JsDate.UTC. rewrite Hzone. unfold JsDate.LocalTime. lia. }
  split; [exact H7|]. rewrite H7, Hcreated. lia.
Qed.

Lemma create_expiresAt_witness :
  status (run_response (createPlanReportShareLink sample_env sample_db "p1"
                          (Some "u1"%string))) = 201
  /\ exists link n,
       reportShareLinks (run_db (createPlanReportShareLink sample_env sample_db "p1"
                                   (Some "u1"%string)))
       = reportShareLinks sample_db ++ [link]
       /\ ReportShareLink.createdAt link = storeClock sample_env n
       /\ ReportShareLink.expiresAt link = clock sample_env + 7 * JsDate.msPerDay.
Proof.
  assert (H : status (run_response (createPlanReportShareLink sample_env sample_db "p1"
                                      (Some "u1"%string))) = 201)
    by (vm_compute; reflexivity).
  split; [exact H|].
  destruct (create_expiresAt sample_env sample_db "p1" (Some "u1"%string) H)
    as (link & n & _ & _ & Hlinks & Hcreated & _ & _ & Hzone).
  exists link, n. split; [exact Hlinks|]. split; [exact Hcreated|].
  apply Hzone. reflexivity.
Defined.

(** ** Listing *)

#[local] Instance newer_first_ranked_total rank : Total (newer_first_ranked rank).
Proof. intros a b. unfold newer_first_ranked. lia. Qed.

#[local] Instance newer_first_ranked_trans rank : Transitive (newer_first_ranked rank).
Proof. intros a b c. unfold newer_first_ranked. lia. Qed.

Lemma StronglySorted_weaken {A} (R S : relation A) (l : list A) :
  (forall x y, R x y -> S x y) -> StronglySorted R l -> StronglySorted S l.
Proof.
  intros HRS H. induction H as [|x l _ IH Hx]; constructor; [exact IH|].
  eapply Forall_impl; [exact Hx|]. intros y. apply HRS.
Qed.

Lemma StronglySorted_lookup_lt {A} (R : relation A) (l : list A) :
  StronglySorted R l ->
  forall i j a b, (i < j)%nat -> l !! i = Some a -> l !! j = Some b -> R a b.
Proof.
  induction 1 as [|x l _ IH Hx]; intros i j a b Hij Hi Hj; [discriminate|].
  destruct j as [|j]; [lia|]. cbn in Hj. destruct i as [|i]; cbn in Hi.
  - injection Hi as <-. rewrite Forall_forall in Hx. apply Hx.
    now apply list_elem_of_lookup_2 in Hj.
  - apply (IH i j); [lia|assumption..].
Qed.





(** ** Revocation *)

Lemma perform_keeps_revoked env op db l :
  l ∈ reportShareLinks db -> is_Some (ReportShareLink.revokedAt l) ->
  exists l', l' ∈ reportShareLinks (perform env op db)
             /\ ReportShareLink.id l' = ReportShareLink.id l
             /\ is_Some (ReportShareLink.revokedAt l')
             /\ (NoDup (map ReportShareLink.id (reportShareLinks db)) -> l' = l).
Proof.
  intros Hin Hrev.
  assert (Hsame : l ∈ reportShareLinks db ->
            exists l', l' ∈ reportShareLinks db
              /\ ReportShareLink.id l' = ReportShareLink.id l
              /\ is_Some (ReportShareLink.revokedAt l')
              /\ (NoDup (map ReportShareLink.id (reportShareLinks db)) -> l' = l))
    by (intros; exists l; auto).
  destruct op as [planId user|planId|i|fuel token]; cbn [perform]; auto.
  - unfold createPlanReportShareLink.
    destruct user as [userId|]; [|auto].
    destruct (truthy_id (Some userId)); [|auto].
    destruct (plans db !! planId); [|auto].
    destruct (createAttempts_links 5 env db planId userId
                (addDays (LocalTZA env) (clock env) SHARE_EXPIRES_DAYS) 0%nat [])
      as [->|(link & -> & _)]; [auto|].
    exists l. cbn [reportShareLinks with_links].
    split; [apply elem_of_app; now left|auto].
  - unfold revokeReportShareLink.
    destruct (findUnique_by_id db i) as [l0|] eqn:Hf; [|auto].
    destruct (truthy_date (ReportShareLink.revokedAt l0)) eqn:Hr0; [auto|].
    unfold reportShareLink_update_revokedAt. rewrite Hf. cbn [fst reportShareLinks with_links].
    apply find_id_some in Hf as [Hin0 Hid0].
    destruct (String.eqb (ReportShareLink.id l) i) eqn:E.
    + exists (ReportShareLink.set_revokedAt (Some (clock env)) l).
      split.
      { apply list_elem_of_fmap. exists l. rewrite E. auto. }
      apply String.eqb_eq in E.
      split; [reflexivity|]. split; [cbn; eauto|].
      intros Hnd. exfalso.
      assert (l = l0) by (apply (NoDup_id_inj _ _ _ Hnd Hin Hin0); congruence).
      subst l0. destruct Hrev as [t Ht]. rewrite Ht in Hr0. discriminate.
    + exists l. split; [|auto].
      apply list_elem_of_fmap. exists l. now rewrite E.
Qed.

Lemma perform_all_keeps_revoked steps :
  forall db l,
    l ∈ reportShareLinks db -> is_Some (ReportShareLink.revokedAt l) ->
    exists l', l' ∈ reportShareLinks (perform_all steps db)
               /\ ReportShareLink.id l' = ReportShareLink.id l
               /\ is_Some (ReportShareLink.revokedAt l')
               /\ (NoDup (map ReportShareLink.id (reportShareLinks db)) ->
                   NoDup (map ReportShareLink.token (reportShareLinks db)) -> l' = l).
Proof.
  induction steps as [|[env op] steps IH]; intros db l Hl Hrev; cbn [perform_all].
  - exists l. auto.
  - destruct (perform_keeps_revoked env op db l Hl Hrev) as (l1 & Hl1 & Hid1 & Hrev1 & Hsame1).
    destruct (IH (perform env op db) l1 Hl1 Hrev1) as (l' & Hl' & Hid' & Hrev' & Hsame').
    exists l'. split; [exact Hl'|]. split; [congruence|]. split; [exact Hrev'|].
    intros Hid Htok. destruct (perform_unique env op db Hid Htok) as [Hid2 Htok2].
    rewrite (Hsame' Hid2 Htok2). now apply Hsame1.
Qed.

(** C4: revoking the already revoked link [l2] answers 200 with a message
    and leaves the store as it was, but what it shows as [data] is an
    object of two fields, [id] and [revokedAt]: not the stored record, whose
    [token] and four more columns are missing.  The first revoke of a link
    (here [l1]) does answer with the record, all seven columns. *)
Lemma revoke_again_returns_two_fields :
  (exists fields,
     revokeReportShareLink sample_env sample_db "l2"
     = (sample_db,
        {| status := 200;
           body := JObj [("success"%string, JBool true);
                         ("data"%string, JObj fields);
                         ("message"%string, JStr "이미 폐기된 링크입니다.")] |})
     /\ fields = [("id"%string, JStr "l2"); ("revokedAt"%string, JDate 200)]
     /\ obj_get "token" fields = None
     /\ JObj fields <> link_json (sample_link "l2" "tok-revoked" "p1" (Some 200)))
  /\ (exists fields,
        snd (revokeReportShareLink sample_env sample_db "l1")
        = {| status := 200;
             body := JObj [("success"%string, JBool true);
                           ("data"%string, JObj fields)] |}
        /\ map fst fields
           = ["id"; "token"; "planId"; "createdByUserId"; "createdAt"; "expiresAt";
              "revokedAt"]%string).
Proof.
  split.
  - eexists. split; [reflexivity|].
    split; [reflexivity|]. split; [reflexivity|]. discriminate.
  - eexists. split; reflexivity.
Qed.

(** Revoking a link whose [revokedAt] is set answers 200 with the link's
    [id] and its unchanged [revokedAt] (the two selected fields) and a
    message, and leaves the store as it was; and after any history of
    operations of the subsystem a revoked link is still stored revoked, the
    row itself being untouched when ids and tokens are unique. *)
Lemma revoke_already_revoked env db i link t :
  findUnique_by_id db i = Some link ->
  ReportShareLink.revokedAt link = Some t ->
  revokeReportShareLink env db i
  = (db,
     {| status := 200;
        body := JObj (success (JObj [("id"%string, JStr (ReportShareLink.id link));
                                     ("revokedAt"%string, JDate t)])
                        ++ [("message"%string, JStr "이미 폐기된 링크입니다.")]) |})
  /\ forall steps l,
       l ∈ reportShareLinks db -> is_Some (ReportShareLink.revokedAt l) ->
       exists l', l' ∈ reportShareLinks (perform_all steps db)
                  /\ ReportShareLink.id l' = ReportShareLink.id l
                  /\ is_Some (ReportShareLink.revokedAt l')
                  /\ (NoDup (map ReportShareLink.id (reportShareLinks db)) ->
                      NoDup (map ReportShareLink.token (reportShareLinks db)) ->
                      l' = l).
Proof.
  intros Hf Hr. split.
  - unfold revokeReportShareLink. rewrite Hf, Hr. cbn [truthy_date].
    unfold link_revocation_fields. now rewrite Hr.
  - intros steps l. apply perform_all_keeps_revoked.
Qed.

Example revoke_twice_then_create :
  exists l',
    l' ∈ reportShareLinks
           (perform_all [(sample_env, Revoke "l2"); (sample_env, Revoke "l2");
                         (sample_env, Create "p1" (Some "u1"%string))] sample_db)
    /\ ReportShareLink.id l' = "l2"%string
    /\ ReportShareLink.revokedAt l' = Some 200.
Proof.
  exists (sample_link "l2" "tok-revoked" "p1" (Some 200)).
  split; [|split; reflexivity]. vm_compute. right. left.
Qed.

Example revoke_live_sets_revokedAt :
  reportShareLinks (fst (revokeReportShareLink sample_env sample_db "l1"))
  = [sample_link "l1" "tok-live" "p1" (Some 500);
     sample_link "l2" "tok-revoked" "p1" (Some 200);
     sample_link "l3" "tok-orphan" "p-deleted" None].
Proof. reflexivity. Qed.

(** ** The public resolver *)


Lemma resolve_live fuel env db token link :
  findUnique_by_token db token = Some link ->
  ReportShareLink.revokedAt link = None ->
  clock env < ReportShareLink.expiresAt link ->
  getPublicPlanReportByToken fuel env db token =
    match plan_findUnique_with_items (itemRank env) db (ReportShareLink.planId link) with
    | None => Some (failure 410 "공유 대상 플랜을 찾을 수 없습니다.")
    | Some plan =>
        match itemsWithFolderPath fuel db (Plan.items plan) with
        | None => None
        | Some items => Some (publicReport db link plan items)
        end
    end.
Proof.
  intros Hf Hr He. unfold getPublicPlanReportByToken. rewrite Hf, Hr.
  destruct (Z.leb_spec (ReportShareLink.expiresAt link) (clock env)); [lia|].
  reflexivity.
Qed.

Lemma resolve_success_inv fuel env db token r :
  getPublicPlanReportByToken fuel env db token = Some r -> status r = 200 ->
  exists link p items,
    findUnique_by_token db token = Some link
    /\ ReportShareLink.revokedAt link = None
    /\ clock env < ReportShareLink.expiresAt link
    /\ plans db !! ReportShareLink.planId link = Some p
    /\ itemsWithFolderPath fuel db (orderBy_order_sequence (itemRank env) (Plan.items p))
       = Some items
    /\ r = publicReport db link
             {| Plan.scalars := Plan.scalars p;
                Plan.items := orderBy_order_sequence (itemRank env) (Plan.items p) |} items.
Proof.
  unfold getPublicPlanReportByToken.
  destruct (findUnique_by_token db token) as [link|] eqn:Hf;
    [|intros [= <-]; discriminate].
  destruct (ReportShareLink.revokedAt link) as [t|] eqn:Hr;
    [intros [= <-]; discriminate|].
  simpl orb.
  destruct (Z.leb_spec (ReportShareLink.expiresAt link) (clock env)) as [He|He];
    [intros [= <-]; discriminate|].
  unfold plan_findUnique_with_items.
  destruct (plans db !! ReportShareLink.planId link) as [p|] eqn:Hp;
    [|intros [= <-]; discriminate].
  cbn [Plan.items].
  destruct (itemsWithFolderPath fuel db (orderBy_order_sequence (itemRank env) (Plan.items p)))
    as [items|] eqn:Hi; [|discriminate].
  intros [= <-] _. exists link, p, items. repeat split; assumption.
Qed.



Example resolve_unknown_token :
  getPublicPlanReportByToken 0 sample_env sample_db "never-issued"
  = Some (failure 404 "공유 링크를 찾을 수 없습니다.").
Proof. reflexivity. Qed.

Example resolve_revoked_token :
  (status <$> getPublicPlanReportByToken 0 sample_env sample_db "tok-revoked") = Some 410.
Proof. reflexivity. Qed.

(** *** Order of the items *)

#[local] Instance item_before_total : Total item_before.
Proof. intros a b. unfold item_before. lia. Qed.

#[local] Instance item_before_trans : Transitive item_before.
Proof. intros a b c. unfold item_before. lia. Qed.

#[local] Instance item_before_ranked_total rank : Total (item_before_ranked rank).
Proof. intros a b. unfold item_before_ranked. lia. Qed.

#[local] Instance item_before_ranked_trans rank : Transitive (item_before_ranked rank).
Proof. intros a b c. unfold item_before_ranked. lia. Qed.

Lemma orderBy_order_sequence_Permutation rank l :
  orderBy_order_sequence rank l ≡ₚ l.
Proof. apply merge_sort_Permutation. Qed.

Lemma orderBy_order_sequence_sorted rank l :
  StronglySorted item_before (orderBy_order_sequence rank l).
Proof.
  apply (StronglySorted_weaken (item_before_ranked rank)).
  - intros x y. unfold item_before_ranked, item_before. lia.
  - apply StronglySorted_merge_sort; apply _.
Qed.

Lemma itemsWithFolderPath_Forall2 fuel db l items :
  itemsWithFolderPath fuel db l = Some items ->
  Forall2 (fun it j => exists path,
             getFolderPath fuel db (TestCase.folderId (PlanItem.testCase it)) = Some path
             /\ j = itemWithFolderPath db it path) l items.
Proof.
  intros H. apply mapM_Some_1 in H.
  induction H as [|it j l items Hj _ IH]; constructor; [|exact IH].
  destruct (getFolderPath fuel db _) as [path|]; [|discriminate].
  injection Hj as <-. now exists path.
Qed.

Lemma itemsWithFolderPath_fuel_indep fuel1 fuel2 db l items1 items2 :
  itemsWithFolderPath fuel1 db l = Some items1 ->
  itemsWithFolderPath fuel2 db l = Some items2 ->
  items1 = items2.
Proof.
  intros H1 H2. apply itemsWithFolderPath_Forall2 in H1, H2.
  revert items2 H2. induction H1 as [|it j l items1 (p1 & Hp1 & ->) _ IH];
    intros items2 H2; inversion H2 as [|? j2 ? items2' (p2 & Hp2 & ->) Hrest]; subst.
  - reflexivity.
  - rewrite (getFolderPath_fuel_indep _ _ _ _ _ _ Hp1 Hp2).
    f_equal. now apply IH.
Qed.

Lemma itemsWithFolderPath_total fuel db (l : list PlanItem.t) :
  (forall it, it ∈ l ->
     truthy_id (TestCase.folderId (PlanItem.testCase it)) = true ->
     is_Some (getFolderPath fuel db (TestCase.folderId (PlanItem.testCase it)))) ->
  is_Some (itemsWithFolderPath fuel db l).
Proof.
  intros Hwalks. apply mapM_is_Some_2, Forall_forall. intros it Hit. simpl.
  destruct (truthy_id (TestCase.folderId (PlanItem.testCase it))) eqn:E.
  - destruct (Hwalks it Hit E) as [path ->]. eauto.
  - rewrite getFolderPath_falsy by exact E. eauto.
Qed.

Lemma sorted_keys_unique (l1 l2 : list PlanItem.t) :
  StronglySorted item_before l1 -> StronglySorted item_before l2 -> l1 ≡ₚ l2 ->
  map item_key l1 = map item_key l2
  /\ (NoDup (map item_key l1) -> l1 = l2).
Proof.
  intros H1 H2 Hperm. split.
  - apply (StronglySorted_unique_strong key_le).
    + intros [o1 s1] [o2 s2] _ _. unfold key_le. cbn. intros ? ?. f_equal; lia.
    + apply (StronglySorted_fmap item_key item_before key_le); [|exact H1].
      intros x y Hxy. exact Hxy.
    + apply (StronglySorted_fmap item_key item_before key_le); [|exact H2].
      intros x y Hxy. exact Hxy.
    + now apply fmap_Permutation.
  - intros Hnd. apply (StronglySorted_unique_strong item_before); try assumption.
    intros x1 x2 Hx1 Hx2 H12 H21.
    assert (Hkey : item_key x1 = item_key x2).
    { unfold item_before in H12, H21. unfold item_key. f_equal; lia. }
    rewrite <- Hperm in Hx2.
    clear -Hnd Hx1 Hx2 Hkey. induction l1 as [|y l1 IH]; [inversion Hx1|].
    cbn [map] in Hnd. apply NoDup_cons in Hnd as [Hy Hnd].
    apply elem_of_cons in Hx1 as [->|Hx1]; apply elem_of_cons in Hx2 as [->|Hx2].
    + reflexivity.
    + exfalso. apply Hy. rewrite Hkey. now apply list_elem_of_fmap_2.
    + exfalso. apply Hy. rewrite <- Hkey. now apply list_elem_of_fmap_2.
    + now apply IH.
Qed.

(** *** Reading the payload *)

Lemma obj_get_set_eq k v o : obj_get k (obj_set k v o) = Some v.
Proof.
  induction o as [|[k' v'] o IH]; simpl.
  - now rewrite String.eqb_refl.
  - destruct (String.eqb k k') eqn:E; simpl; rewrite E; [reflexivity|exact IH].
Qed.

Lemma obj_get_set_ne k k' v o :
  k <> k' -> obj_get k (obj_set k' v o) = obj_get k o.
Proof.
  intros Hne. induction o as [|[k0 v0] o IH]; simpl.
  - destruct (String.eqb_spec k k'); [contradiction|reflexivity].
  - destruct (String.eqb_spec k' k0) as [->|Hk0]; simpl.
    + destruct (String.eqb_spec k k0); [contradiction|reflexivity].
    + destruct (String.eqb k k0); [reflexivity|exact IH].
Qed.

Lemma obj_get_app_None k o1 o2 :
  obj_get k o1 = None -> obj_get k (o1 ++ o2) = obj_get k o2.
Proof.
  induction o1 as [|[k0 v0] o1 IH]; simpl; [reflexivity|].
  destruct (String.eqb k k0); [discriminate|exact IH].
Qed.

Lemma payload_plan_items_publicReport db link plan items :
  payload_plan_items (body (publicReport db link plan items)) = Some items.
Proof.
  change (payload_plan_items (body (publicReport db link plan items)))
    with (match obj_get "items" (obj_set "items" (JArr items) (plan_fields db plan)) with
          | Some (JArr items) => Some items
          | _ => None
          end).
  now rewrite obj_get_set_eq.
Qed.

Lemma item_testCase_itemWithFolderPath db it path :
  item_testCase (itemWithFolderPath db it path)
  = Some (obj_set "folderPath" (folderPath_json path)
            (testCase_fields db (PlanItem.testCase it))).
Proof. unfold item_testCase, itemWithFolderPath. now rewrite obj_get_set_eq. Qed.

Lemma item_folderPath_itemWithFolderPath db it path :
  item_folderPath (itemWithFolderPath db it path) = Some (folderPath_json path).
Proof.
  unfold item_folderPath, itemWithFolderPath.
  rewrite obj_get_set_eq. apply obj_get_set_eq.
Qed.

Lemma payload_item_key_itemWithFolderPath db it path :
  plain_item it ->
  payload_item_key (itemWithFolderPath db it path) = Some (item_key it).
Proof.
  intros (Ho & Hs & _). unfold payload_item_key, item_sequence.
  rewrite item_testCase_itemWithFolderPath. unfold item_order, itemWithFolderPath.
  rewrite (obj_get_set_ne "order" "testCase") by discriminate.
  rewrite (obj_get_set_ne "sequence" "folderPath") by discriminate.
  unfold item_fields, testCase_fields.
  rewrite (obj_get_app_None _ _ _ Ho), (obj_get_app_None _ _ _ Hs). reflexivity.
Qed.

Lemma item_folderId_itemWithFolderPath db it path :
  plain_item it ->
  item_folderId (itemWithFolderPath db it path)
  = Some (json_of_id (TestCase.folderId (PlanItem.testCase it))).
Proof.
  intros (_ & _ & Hf). unfold item_folderId.
  rewrite item_testCase_itemWithFolderPath.
  rewrite (obj_get_set_ne "folderId" "folderPath") by discriminate.
  unfold testCase_fields. rewrite (obj_get_app_None _ _ _ Hf). reflexivity.
Qed.

Lemma payload_keys db (sorted : list PlanItem.t) (items : list json) :
  Forall plain_item sorted ->
  Forall2 (fun it j => exists path, j = itemWithFolderPath db it path) sorted items ->
  map payload_item_key items = map (fun it => Some (item_key it)) sorted.
Proof.
  intros Hplain H. induction H as [|it j l items (path & ->) _ IH]; [reflexivity|].
  apply Forall_cons in Hplain as [Hit Hplain]. cbn [map].
  rewrite (payload_item_key_itemWithFolderPath _ _ _ Hit). f_equal. now apply IH.
Qed.

Lemma resolve_payload fuel env db token r :
  getPublicPlanReportByToken fuel env db token = Some r -> status r = 200 ->
  exists link p items,
    findUnique_by_token db token = Some link
    /\ plans db !! ReportShareLink.planId link = Some p
    /\ itemsWithFolderPath fuel db (orderBy_order_sequence (itemRank env) (Plan.items p))
       = Some items
    /\ payload_plan_items (body r) = Some items
    /\ r = publicReport db link
             {| Plan.scalars := Plan.scalars p;
                Plan.items := orderBy_order_sequence (itemRank env) (Plan.items p) |} items.
Proof.
  intros Hres Hst.
  destruct (resolve_success_inv _ _ _ _ _ Hres Hst)
    as (link & p & items & Hf & _ & _ & Hp & Hi & ->).
  exists link, p, items. repeat split; try assumption.
  apply payload_plan_items_publicReport.
Qed.

(** C7, counterexample: the two items of the plan of [tied_db] are equal in
    [order] and in [sequence]; the store is free to hand them out either
    way round, and two requests on that one stored state are answered with
    the items in different orders. *)
Lemma resolve_order_of_ties_varies :
  exists r1 r2 a b,
    getPublicPlanReportByToken 0 sample_env tied_db "tok-live" = Some r1
    /\ getPublicPlanReportByToken 0 reversing_env tied_db "tok-live" = Some r2
    /\ status r1 = 200 /\ status r2 = 200
    /\ payload_plan_items (body r1) = Some [a; b]
    /\ payload_plan_items (body r2) = Some [b; a]
    /\ payload_item_key a = Some (1, 1) /\ payload_item_key b = Some (1, 1)
    /\ a <> b /\ r1 <> r2.
Proof.
  do 4 eexists.
  split; [vm_compute; reflexivity|]. split; [vm_compute; reflexivity|].
  split; [reflexivity|]. split; [reflexivity|].
  split; [vm_compute; reflexivity|]. split; [vm_compute; reflexivity|].
  split; [vm_compute; reflexivity|]. split; [vm_compute; reflexivity|].
  split; intros H; discriminate H.
Qed.

(** C7, amended: in a successful answer [data.plan.items] holds the items of
    the plan, each once, arranged so that [order] never decreases and, among
    equal [order], the test case's [sequence] never decreases; read from
    the payload, the ([order], [sequence]) pairs show that arrangement.
    Every other successful request on the same store, at whatever time,
    shows the same sequence of pairs, and the very same answer when no two
    items of the plan share a pair. *)
Theorem resolve_items_ordered fuel env db token r :
  getPublicPlanReportByToken fuel env db token = Some r -> status r = 200 ->
  exists link p items sorted,
    findUnique_by_token db token = Some link
    /\ plans db !! ReportShareLink.planId link = Some p
    /\ payload_plan_items (body r) = Some items
    /\ sorted ≡ₚ Plan.items p
    /\ Forall2 (fun it j => exists path, j = itemWithFolderPath db it path) sorted items
    /\ (forall i j a b, (i < j)%nat -> sorted !! i = Some a -> sorted !! j = Some b ->
          PlanItem.order a < PlanItem.order b
          \/ (PlanItem.order a = PlanItem.order b
              /\ TestCase.sequence (PlanItem.testCase a)
                 <= TestCase.sequence (PlanItem.testCase b)))
    /\ (Forall plain_item (Plan.items p) ->
          map payload_item_key items
          = map (fun it => Some (PlanItem.order it,
                                 TestCase.sequence (PlanItem.testCase it))) sorted
          /\ forall i j a b, (i < j)%nat -> items !! i = Some a -> items !! j = Some b ->
               exists oa sa ob sb,
                 payload_item_key a = Some (oa, sa)
                 /\ payload_item_key b = Some (ob, sb)
                 /\ (oa < ob \/ (oa = ob /\ sa <= sb)))
    /\ forall fuel' env' r',
         getPublicPlanReportByToken fuel' env' db token = Some r' -> status r' = 200 ->
         exists items' sorted',
           payload_plan_items (body r') = Some items'
           /\ sorted' ≡ₚ Plan.items p
           /\ Forall2 (fun it j => exists path, j = itemWithFolderPath db it path)
                sorted' items'
           /\ map item_key sorted' = map item_key sorted
           /\ (Forall plain_item (Plan.items p) ->
                 map payload_item_key items' = map payload_item_key items)
           /\ (NoDup (map item_key (Plan.items p)) -> r' = r).
Proof.
  intros Hres Hst.
  destruct (resolve_payload _ _ _ _ _ Hres Hst) as (link & p & items & Hf & Hp & Hi & Hpay & Hr).
  pose proof (orderBy_order_sequence_Permutation (itemRank env) (Plan.items p)) as Hperm.
  pose proof (orderBy_order_sequence_sorted (itemRank env) (Plan.items p)) as Hsorted.
  assert (HF2 : Forall2 (fun it j => exists path, j = itemWithFolderPath db it path)
                  (orderBy_order_sequence (itemRank env) (Plan.items p)) items).
  { eapply Forall2_impl; [apply itemsWithFolderPath_Forall2, Hi|].
    intros it j (path & _ & ->). now exists path. }
  assert (Hkeys : Forall plain_item (Plan.items p) ->
            map payload_item_key items
            = map (fun it => Some (item_key it))
                (orderBy_order_sequence (itemRank env) (Plan.items p))).
  { intros Hplain. apply (payload_keys db); [|exact HF2]. now rewrite Hperm. }
  exists link, p, items, (orderBy_order_sequence (itemRank env) (Plan.items p)).
  split; [exact Hf|]. split; [exact Hp|]. split; [exact Hpay|].
  split; [exact Hperm|]. split; [exact HF2|].
  split.
  { intros i j a b Hij Ha Hb.
    exact (StronglySorted_lookup_lt item_before _ Hsorted i j a b Hij Ha Hb). }
  split.
  { intros Hplain. pose proof (Hkeys Hplain) as HK. split; [exact HK|].
    intros i j a b Hij Ha Hb.
    pose proof (f_equal (fun l => l !! i) HK) as Hia.
    pose proof (f_equal (fun l => l !! j) HK) as Hjb.
    cbv beta in Hia, Hjb. rewrite !list_lookup_fmap in Hia, Hjb.
    rewrite Ha in Hia. rewrite Hb in Hjb.
    destruct (orderBy_order_sequence (itemRank env) (Plan.items p) !! i)
      as [ita|] eqn:Ei; [|discriminate Hia].
    destruct (orderBy_order_sequence (itemRank env) (Plan.items p) !! j)
      as [itb|] eqn:Ej; [|discriminate Hjb].
    cbn in Hia, Hjb. injection Hia as Hia. injection Hjb as Hjb.
    exists (PlanItem.order ita), (TestCase.sequence (PlanItem.testCase ita)),
      (PlanItem.order itb), (TestCase.sequence (PlanItem.testCase itb)).
    split; [exact Hia|]. split; [exact Hjb|].
    exact (StronglySorted_lookup_lt item_before _ Hsorted i j ita itb Hij Ei Ej). }
  intros fuel' env' r' Hres' Hst'.
  destruct (resolve_payload _ _ _ _ _ Hres' Hst')
    as (link' & p' & items' & Hf' & Hp' & Hi' & Hpay' & Hr').
  assert (link' = link) by congruence. subst link'.
  assert (p' = p) by congruence. subst p'.
  pose proof (orderBy_order_sequence_Permutation (itemRank env') (Plan.items p)) as Hperm'.
  pose proof (orderBy_order_sequence_sorted (itemRank env') (Plan.items p)) as Hsorted'.
  assert (HF2' : Forall2 (fun it j => exists path, j = itemWithFolderPath db it path)
                   (orderBy_order_sequence (itemRank env') (Plan.items p)) items').
  { eapply Forall2_impl; [apply itemsWithFolderPath_Forall2, Hi'|].
    intros it j (path & _ & ->). now exists path. }
  destruct (sorted_keys_unique _ _ Hsorted' Hsorted ltac:(now rewrite Hperm, Hperm'))
    as [Hsame Hequal].
  exists items', (orderBy_order_sequence (itemRank env') (Plan.items p)).
  split; [exact Hpay'|]. split; [exact Hperm'|]. split; [exact HF2'|].
  split; [exact Hsame|]. split.
  - intros Hplain. rewrite (Hkeys Hplain).
    assert (Hplain' : Forall plain_item
                        (orderBy_order_sequence (itemRank env') (Plan.items p)))
      by now rewrite Hperm'.
    rewrite (payload_keys db _ _ Hplain' HF2').
    rewrite <- !(map_map item_key Some). now rewrite Hsame.
  - intros Hnd.
    assert (Hnd' : NoDup (map item_key (orderBy_order_sequence (itemRank env') (Plan.items p)))).
    { assert (Hk : map item_key (orderBy_order_sequence (itemRank env') (Plan.items p))
                   ≡ₚ map item_key (Plan.items p)) by now apply fmap_Permutation.
      now rewrite Hk. }
    rewrite (Hequal Hnd') in Hi', Hr'.
    rewrite (itemsWithFolderPath_fuel_indep _ _ _ _ _ _ Hi' Hi) in Hr'. congruence.
Qed.

Lemma resolve_items_ordered_witness :
  (getPublicPlanReportByToken 3 sample_env sample_db "tok-live" = Some sample_report
   /\ status sample_report = 200)
  /\ exists items,
       payload_plan_items (body sample_report) = Some items
       /\ map payload_item_key items = [Some (1, 2); Some (1, 5); Some (2, 1)].
Proof.
  assert (Hres : getPublicPlanReportByToken 3 sample_env sample_db "tok-live"
                 = Some sample_report) by (vm_compute; reflexivity).
  split; [split; [exact Hres|reflexivity]|].
  destruct (resolve_items_ordered 3%nat sample_env sample_db "tok-live" _ Hres eq_refl)
    as (link & p & items & sorted & _ & _ & Hpay & _).
  exists items. split; [exact Hpay|].
  vm_compute in Hpay. injection Hpay as <-. vm_compute. reflexivity.
Defined.

(** *** Items without a folder *)

Lemma looping_walk_never_ends fuel :
  forall acc, folderWalk fuel looping_db (Some "f1"%string) acc = None.
Proof.
  induction fuel as [|fuel IH]; intros acc; [reflexivity|].
  cbn [folderWalk truthy_id]. simpl negb. cbv iota.
  change (folders looping_db) with
    ({[ "f1"%string := {| Folder.name := "Loop"; Folder.parentId := Some "f1"%string |} ]}
       : gmap string Folder.t).
  rewrite lookup_singleton_eq. apply IH.
Qed.

(** C10, counterexample: the plan of [looping_db] has an item in no folder
    and an item in a folder that is its own parent; the link is live, yet
    however long the handler runs it sends no answer. *)
Lemma resolve_null_folder_item_beside_cycle :
  (exists it p,
     plans looping_db !! "p1"%string = Some p
     /\ it ∈ Plan.items p /\ TestCase.folderId (PlanItem.testCase it) = None)
  /\ (exists link,
        findUnique_by_token looping_db "tok-live" = Some link
        /\ ReportShareLink.planId link = "p1"%string
        /\ ReportShareLink.revokedAt link = None
        /\ clock sample_env < ReportShareLink.expiresAt link)
  /\ ~ (exists fuel r,
          getPublicPlanReportByToken fuel sample_env looping_db "tok-live" = Some r).
Proof.
  split.
  { exists (named_item "i1" 1 1 None). eexists.
    split; [vm_compute; reflexivity|]. split; [left|reflexivity]. }
  split.
  { eexists. split; [reflexivity|]. split; [reflexivity|].
    split; [reflexivity|vm_compute; reflexivity]. }
  intros (fuel & r & H).
  rewrite (resolve_live fuel sample_env looping_db "tok-live"
             (sample_link "l1" "tok-live" "p1" None)) in H;
    [|reflexivity|reflexivity|vm_compute; reflexivity].
  unfold plan_findUnique_with_items in H.
  change (plans looping_db !! ReportShareLink.planId (sample_link "l1" "tok-live" "p1" None))
    with (plans looping_db !! "p1"%string) in H.
  destruct (plans looping_db !! "p1"%string) as [p|] eqn:Hp; [|vm_compute in Hp; discriminate Hp].
  vm_compute in Hp. injection Hp as <-. cbn [Plan.items] in H.
  match type of H with
  | match itemsWithFolderPath ?f ?d ?l with _ => _ end = _ =>
      destruct (itemsWithFolderPath f d l) as [items|] eqn:Hi; [|discriminate H]
  end.
  apply itemsWithFolderPath_Forall2 in Hi.
  match type of Hi with
  | Forall2 _ ?l _ =>
      assert (Hin : named_item "i2" 2 1 (Some "f1"%string) ∈ l)
  end.
  { rewrite orderBy_order_sequence_Permutation. right. left. }
  apply list_elem_of_lookup in Hin as [k Hk].
  destruct (Forall2_lookup_l _ _ _ _ _ Hi Hk) as (j & _ & path & Hpath & _).
  unfold getFolderPath in Hpath. simpl in Hpath.
  now rewrite looping_walk_never_ends in Hpath.
Qed.

(** C10, amended: a live link to a stored plan is answered exactly when
    the walks of the items that do have a folder have ended (an item without
    a folder asks for no walk, and while a walk of another item runs,
    nothing is answered); the answer is then 200, [data.plan.items] holds
    the items of the plan, and every item whose test case has a null
    [folderId] carries [folderPath: []]. *)
Theorem resolve_null_folder_item fuel env db token link p :
  findUnique_by_token db token = Some link ->
  ReportShareLink.revokedAt link = None ->
  clock env < ReportShareLink.expiresAt link ->
  plans db !! ReportShareLink.planId link = Some p ->
  (is_Some (getPublicPlanReportByToken fuel env db token) <->
   forall it, it ∈ Plan.items p ->
     truthy_id (TestCase.folderId (PlanItem.testCase it)) = true ->
     is_Some (getFolderPath fuel db (TestCase.folderId (PlanItem.testCase it))))
  /\ forall r,
       getPublicPlanReportByToken fuel env db token = Some r ->
       status r = 200
       /\ exists items sorted,
            payload_plan_items (body r) = Some items
            /\ sorted ≡ₚ Plan.items p
            /\ Forall2 (fun it j =>
                          (exists path, j = itemWithFolderPath db it path)
                          /\ (TestCase.folderId (PlanItem.testCase it) = None ->
                              item_folderPath j = Some (JArr [])))
                 sorted items
            /\ (Forall plain_item (Plan.items p) ->
                forall j, j ∈ items -> item_folderId j = Some JNull ->
                          item_folderPath j = Some (JArr [])).
Proof.
  intros Hf Hr He Hp.
  pose proof (orderBy_order_sequence_Permutation (itemRank env) (Plan.items p)) as Hperm.
  assert (Hres : getPublicPlanReportByToken fuel env db token
                 = match itemsWithFolderPath fuel db
                           (orderBy_order_sequence (itemRank env) (Plan.items p)) with
                   | None => None
                   | Some items =>
                       Some (publicReport db link
                               {| Plan.scalars := Plan.scalars p;
                                  Plan.items :=
                                    orderBy_order_sequence (itemRank env) (Plan.items p) |}
                               items)
                   end).
  { rewrite (resolve_live _ _ _ _ _ Hf Hr He).
    unfold plan_findUnique_with_items. now rewrite Hp. }
  rewrite Hres. split; [split|].
  - intros Hsome it Hit _.
    destruct (itemsWithFolderPath fuel db _) as [items|] eqn:Hitems;
      [|now destruct Hsome].
    apply itemsWithFolderPath_Forall2 in Hitems.
    rewrite <- Hperm in Hit. apply list_elem_of_lookup in Hit as [k Hk].
    destruct (Forall2_lookup_l _ _ _ _ _ Hitems Hk) as (j & _ & path & Hpath & _).
    now exists path.
  - intros Hwalks.
    destruct (itemsWithFolderPath_total fuel db
                (orderBy_order_sequence (itemRank env) (Plan.items p)))
      as [items ->]; [|eauto].
    intros it Hit. apply Hwalks. now rewrite <- Hperm.
  - intros r.
    destruct (itemsWithFolderPath fuel db _) as [items|] eqn:Hitems; [|discriminate].
    intros [= <-]. split; [reflexivity|].
    exists items, (orderBy_order_sequence (itemRank env) (Plan.items p)).
    split; [apply payload_plan_items_publicReport|].
    split; [exact Hperm|].
    pose proof (itemsWithFolderPath_Forall2 _ _ _ _ Hitems) as HF2.
    assert (HF2' : Forall2 (fun it j =>
                      (exists path, j = itemWithFolderPath db it path)
                      /\ (TestCase.folderId (PlanItem.testCase it) = None ->
                          item_folderPath j = Some (JArr [])))
                     (orderBy_order_sequence (itemRank env) (Plan.items p)) items).
    { eapply Forall2_impl; [exact HF2|].
      intros it j (path & Hpath & ->). split; [now exists path|].
      intros Hnull. rewrite Hnull in Hpath. injection Hpath as <-.
      apply item_folderPath_itemWithFolderPath. }
    split; [exact HF2'|].
    intros Hplain j Hj Hnull.
    apply list_elem_of_lookup in Hj as [k Hk].
    destruct (Forall2_lookup_r _ _ _ _ _ HF2' Hk) as (it & Hit & (path & ->) & Hempty).
    apply Hempty.
    assert (Hit' : plain_item it).
    { rewrite Forall_forall in Hplain. apply Hplain. rewrite <- Hperm.
      now apply list_elem_of_lookup_2 in Hit. }
    rewrite (item_folderId_itemWithFolderPath _ _ _ Hit') in Hnull.
    destruct (TestCase.folderId (PlanItem.testCase it)); [discriminate Hnull|reflexivity].
Qed.

Lemma resolve_null_folder_item_witness :
  (findUnique_by_token sample_db "tok-live" = Some (sample_link "l1" "tok-live" "p1" None)
   /\ ReportShareLink.revokedAt (sample_link "l1" "tok-live" "p1" None) = None
   /\ clock sample_env < ReportShareLink.expiresAt (sample_link "l1" "tok-live" "p1" None)
   /\ plans sample_db !! "p1"%string = Some sample_plan)
  /\ exists r items,
       getPublicPlanReportByToken 3 sample_env sample_db "tok-live" = Some r
       /\ status r = 200
       /\ payload_plan_items (body r) = Some items
       /\ map item_folderId items = [Some (JStr "a"); Some JNull; Some (JStr "b")]
       /\ exists j, items !! 1%nat = Some j /\ item_folderPath j = Some (JArr []).
Proof.
  assert (Hf : findUnique_by_token sample_db "tok-live"
               = Some (sample_link "l1" "tok-live" "p1" None)) by reflexivity.
  assert (Hr : ReportShareLink.revokedAt (sample_link "l1" "tok-live" "p1" None) = None)
    by reflexivity.
  assert (He : clock sample_env
               < ReportShareLink.expiresAt (sample_link "l1" "tok-live" "p1" None))
    by (vm_compute; reflexivity).
  assert (Hp : plans sample_db !! "p1"%string = Some sample_plan)
    by (vm_compute; reflexivity).
  split; [repeat split; assumption|].
  destruct (resolve_null_folder_item 3%nat sample_env sample_db "tok-live" _ _ Hf Hr He Hp)
    as [Hiff Hanswer].
  assert (Hw : forall it, it ∈ Plan.items sample_plan ->
            truthy_id (TestCase.folderId (PlanItem.testCase it)) = true ->
            is_Some (getFolderPath 3 sample_db (TestCase.folderId (PlanItem.testCase it)))).
  { intros it Hit _. unfold sample_plan in Hit. cbn [Plan.items] in Hit.
    repeat (apply elem_of_cons in Hit as [->|Hit]);
      [ .. | inversion Hit]; vm_compute; eauto. }
  destruct (proj2 Hiff Hw) as [r Hres].
  destruct (Hanswer r Hres) as (Hst & items & sorted & Hpay & _ & _ & Hnull).
  exists r, items. split; [exact Hres|]. split; [exact Hst|]. split; [exact Hpay|].
  assert (Hsample : getPublicPlanReportByToken 3 sample_env sample_db "tok-live"
                    = Some sample_report) by (vm_compute; reflexivity).
  rewrite Hsample in Hres. injection Hres as <-.
  assert (Hplain : Forall plain_item (Plan.items sample_plan))
    by (repeat constructor).
  specialize (Hnull Hplain).
  vm_compute in Hpay. injection Hpay as <-.
  split; [vm_compute; reflexivity|].
  eexists. split; [reflexivity|].
  apply Hnull; [right; left|vm_compute; reflexivity].
Defined.

(** *** What the public answer says about the link *)

Lemma folderWalk_with_links db ls fuel :
  forall i acc, folderWalk fuel (with_links db ls) i acc = folderWalk fuel db i acc.
Proof.
  induction fuel as [|fuel IH]; intros [cid|] acc; try reflexivity.
  cbn [folderWalk]. destruct (truthy_id (Some cid)); [|reflexivity].
  change (folders (with_links db ls)) with (folders db).
  destruct (folders db !! cid); [apply IH|reflexivity].
Qed.

Lemma itemsWithFolderPath_with_links db ls fuel items :
  itemsWithFolderPath fuel (with_links db ls) items = itemsWithFolderPath fuel db items.
Proof.
  unfold itemsWithFolderPath. apply mapM_ext. intros it.
  unfold getFolderPath. rewrite folderWalk_with_links. reflexivity.
Qed.





(** * Further properties *)

(** ** shareToken.ts: both branches of [generateShareToken] *)

Lemma sextet_char_swapped n :
  (n < 64)%N ->
  (fun y => if Ascii.eqb y "/" then "_"%char else y)
    ((fun y => if Ascii.eqb y "+" then "-"%char else y)
       (Base64.sextet_char Base64.alphabet_std n))
  = Base64.sextet_char Base64.alphabet_url n.
Proof.
  intros Hn.
  assert (H : N_all_below 64 0 (fun x =>
            Ascii.eqb
              ((fun y => if Ascii.eqb y "/" then "_"%char else y)
                 ((fun y => if Ascii.eqb y "+" then "-"%char else y)
                    (Base64.sextet_char Base64.alphabet_std x)))
              (Base64.sextet_char Base64.alphabet_url x)) = true)
    by (vm_compute; reflexivity).
  apply Ascii.eqb_eq. apply (N_all_below_spec _ _ _ H n). lia.
Qed.

Lemma encode_std_swapped buf :
  exists k,
    map (fun y => if Ascii.eqb y "/" then "_"%char else y)
      (map (fun y => if Ascii.eqb y "+" then "-"%char else y)
         (Base64.encode Base64.alphabet_std true buf))
    = Base64.encode Base64.alphabet_url false buf ++ repeat Base64.pad_char k.
Proof.
  induction buf as [|a|a b|a b c rest IH] using list_ind3.
  - exists 0%nat. reflexivity.
  - pose proof (Byte.to_N_bounded a).
    destruct (sextets_bounded (Byte.to_N a) 0 0) as (? & ? & _); [lia..|].
    exists 2%nat. cbn [Base64.encode app map repeat].
    rewrite !sextet_char_swapped by assumption. reflexivity.
  - pose proof (Byte.to_N_bounded a). pose proof (Byte.to_N_bounded b).
    destruct (sextets_bounded (Byte.to_N a) (Byte.to_N b) 0) as (? & ? & ? & _); [lia..|].
    exists 1%nat. cbn [Base64.encode app map repeat].
    rewrite !sextet_char_swapped by assumption. reflexivity.
  - pose proof (Byte.to_N_bounded a). pose proof (Byte.to_N_bounded b).
    pose proof (Byte.to_N_bounded c).
    destruct (sextets_bounded (Byte.to_N a) (Byte.to_N b) (Byte.to_N c))
      as (? & ? & ? & ?); [lia..|].
    destruct IH as [k IH]. exists k. cbn [Base64.encode app map].
    rewrite !sextet_char_swapped by assumption. now rewrite IH.
Qed.

Lemma drop_leading_repeat c k l :
  drop_leading c (repeat c k ++ l) = drop_leading c l.
Proof.
  induction k as [|k IH]; [reflexivity|].
  cbn [repeat app drop_leading]. now rewrite Ascii.eqb_refl.
Qed.

Lemma drop_leading_other c l :
  Forall (fun x => x <> c) l -> drop_leading c l = l.
Proof.
  intros H. destruct H as [|x l Hx _]; [reflexivity|].
  cbn [drop_leading]. destruct (Ascii.eqb_spec x c); [contradiction|reflexivity].
Qed.

Lemma rev_repeat_char (c : ascii) k : rev (repeat c k) = repeat c k.
Proof.
  induction k as [|k IH]; [reflexivity|].
  cbn [repeat rev]. rewrite IH. clear IH.
  induction k as [|k IH]; [reflexivity|]. cbn [repeat app]. now rewrite IH.
Qed.

(** X1: the fallback expression of [generateShareToken] (padded base64,
    [+] and [/] replaced, trailing [=] removed) is the base64url text of the
    same octets, for every buffer. *)
Theorem fallback_is_base64url (buf : list Byte.byte) :
  strip_trailing "="
    (replace_char "/" "_" (replace_char "+" "-" (Base64.toString_base64 buf)))
  = Base64.toString_base64url buf.
Proof.
  unfold strip_trailing, replace_char, Base64.toString_base64, Base64.toString_base64url.
  rewrite !list_ascii_of_string_of_list_ascii. f_equal.
  destruct (encode_std_swapped buf) as [k ->].
  rewrite rev_app_distr, rev_repeat_char.
  change "="%char with Base64.pad_char. rewrite drop_leading_repeat.
  rewrite drop_leading_other; [apply rev_involutive|].
  apply Forall_forall. intros x Hx. apply list_elem_of_In, in_rev in Hx.
  pose proof (encode_url_safe buf) as Hsafe. rewrite Forall_forall in Hsafe.
  specialize (Hsafe x (proj2 (list_elem_of_In _ _) Hx)).
  intros ->. discriminate.
Qed.


(** ** reportController.ts: [addDays] away from zone changes *)

(** X3: in a zone whose offset from UTC never changes, [addDays] applied
    to a valid Date and an integer [days] adds exactly [days] times 24
    hours, whatever month or year ends lie in between, as long as the
    instant reached is within 8.64e15 ms of the epoch; when it is not, the
    Date returned is invalid. *)
Theorem addDays_fixed_offset (tz : Z -> bool -> Z) (offset date days : Z) :
  (forall t isUTC, tz t isUTC = offset) ->
  Z.abs date <= 8640000000000000 ->
  (Z.abs (date + days * 86400000) <= 8640000000000000 ->
     addDays tz date days = Some (date + days * 86400000))
  /\ (8640000000000000 < Z.abs (date + days * 86400000) ->
      addDays tz date days = None).
Proof.
  intros Hfix _. rewrite addDays_local.
  unfold JsDate.UTC, JsDate.LocalTime. rewrite !Hfix.
  replace (date + offset + days * JsDate.msPerDay - offset)
    with (date + days * 86400000) by (unfold JsDate.msPerDay; lia).
  split; intros H.
  - now apply TimeClip_in_range.
  - now apply TimeClip_out_of_range.
Qed.

Lemma addDays_fixed_offset_witness :
  ((forall t isUTC, utcZone t isUTC = 0)
   /\ Z.abs 1767783584000 <= 8640000000000000
   /\ Z.abs (1767783584000 + (-40) * 86400000) <= 8640000000000000
   /\ Z.abs 8640000000000000 <= 8640000000000000
   /\ 8640000000000000 < Z.abs (8640000000000000 + 7 * 86400000))
  /\ addDays utcZone 1767783584000 (-40) = Some (1767783584000 + (-40) * 86400000)
  /\ addDays utcZone 8640000000000000 7 = None.
Proof.
  assert (H : forall t isUTC, utcZone t isUTC = 0) by reflexivity.
  assert (H1 : Z.abs 1767783584000 <= 8640000000000000) by lia.
  assert (H2 : Z.abs (1767783584000 + (-40) * 86400000) <= 8640000000000000) by lia.
  assert (H3 : Z.abs 8640000000000000 <= 8640000000000000) by lia.
  assert (H4 : 8640000000000000 < Z.abs (8640000000000000 + 7 * 86400000)) by lia.
  split; [repeat split; assumption|].
  split.
  - exact (proj1 (addDays_fixed_offset utcZone 0 1767783584000 (-40) H H1) H2).
  - exact (proj2 (addDays_fixed_offset utcZone 0 8640000000000000 7 H H3) H4).
Defined.

(** ** reportController.ts: how links evolve *)

Lemma later_version_refl l : later_version l l.
Proof.
  exists (ReportShareLink.revokedAt l). split; [now destruct l|auto].
Qed.

Lemma later_version_trans l1 l2 l3 :
  later_version l1 l2 -> later_version l2 l3 -> later_version l1 l3.
Proof.
  intros (v1 & -> & H1) (v2 & -> & H2). exists v2. split; [reflexivity|].
  intros H. apply H2. cbn. now apply H1.
Qed.

Lemma perform_later_version env op db l :
  l ∈ reportShareLinks db ->
  exists l', l' ∈ reportShareLinks (perform env op db) /\ later_version l l'.
Proof.
  intros Hl.
  assert (Hsame : exists l', l' ∈ reportShareLinks db /\ later_version l l')
    by (exists l; split; [exact Hl|apply later_version_refl]).
  destruct op as [planId user|planId|i|fuel token]; cbn [perform]; auto.
  - unfold createPlanReportShareLink.
    destruct user as [userId|]; [|auto].
    destruct (truthy_id (Some userId)); [|auto].
    destruct (plans db !! planId); [|auto].
    destruct (createAttempts_links 5 env db planId userId
                (addDays (LocalTZA env) (clock env) SHARE_EXPIRES_DAYS) 0%nat [])
      as [->|(link & -> & _)]; [auto|].
    exists l. cbn [reportShareLinks with_links].
    split; [apply elem_of_app; now left|apply later_version_refl].
  - unfold revokeReportShareLink.
    destruct (findUnique_by_id db i) as [l0|] eqn:Hf; [|auto].
    destruct (truthy_date (ReportShareLink.revokedAt l0)); [auto|].
    unfold reportShareLink_update_revokedAt. rewrite Hf.
    cbn [fst reportShareLinks with_links].
    destruct (String.eqb (ReportShareLink.id l) i) eqn:E.
    + exists (ReportShareLink.set_revokedAt (Some (clock env)) l). split.
      * apply list_elem_of_fmap. exists l. now rewrite E.
      * exists (Some (clock env)). split; [reflexivity|eauto].
    + exists l. split; [|apply later_version_refl].
      apply list_elem_of_fmap. exists l. now rewrite E.
Qed.

Lemma perform_all_later_version steps :
  forall db l, l ∈ reportShareLinks db ->
  exists l', l' ∈ reportShareLinks (perform_all steps db) /\ later_version l l'.
Proof.
  induction steps as [|[env op] steps IH]; intros db l Hl; cbn [perform_all].
  - exists l. split; [exact Hl|apply later_version_refl].
  - destruct (perform_later_version env op db l Hl) as (l1 & Hl1 & H1).
    destruct (IH _ l1 Hl1) as (l2 & Hl2 & H2).
    exists l2. split; [exact Hl2|]. eapply later_version_trans; eassumption.
Qed.

Lemma perform_all_unique steps :
  forall db,
    NoDup (map ReportShareLink.id (reportShareLinks db)) ->
    NoDup (map ReportShareLink.token (reportShareLinks db)) ->
    NoDup (map ReportShareLink.id (reportShareLinks (perform_all steps db)))
    /\ NoDup (map ReportShareLink.token (reportShareLinks (perform_all steps db))).
Proof.
  induction steps as [|[env op] steps IH]; intros db Hid Htok; cbn [perform_all].
  - now split.
  - destruct (perform_unique env op db Hid Htok) as [Hid' Htok']. now apply IH.
Qed.

Lemma find_token_unique (ls : list ReportShareLink.t) l :
  NoDup (map ReportShareLink.token ls) -> l ∈ ls ->
  find (fun x => String.eqb (ReportShareLink.token x) (ReportShareLink.token l)) ls
  = Some l.
Proof.
  induction ls as [|x ls IH]; intros Hnd Hl; [inversion Hl|].
  cbn [map] in Hnd. apply NoDup_cons in Hnd as [Hx Hnd]. cbn [find].
  apply elem_of_cons in Hl as [->|Hl].
  - now rewrite String.eqb_refl.
  - destruct (String.eqb_spec (ReportShareLink.token x) (ReportShareLink.token l)) as [E|E].
    + exfalso. apply Hx. rewrite E. now apply list_elem_of_fmap_2.
    + now apply IH.
Qed.

(** X4: the primary key and the unique index on [token] survive every
    history of creates, revokes, listings and resolutions. *)
Theorem unique_keys_preserved (steps : list (Env * Operation)) (db : Db) :
  NoDup (map ReportShareLink.id (reportShareLinks db)) ->
  NoDup (map ReportShareLink.token (reportShareLinks db)) ->
  NoDup (map ReportShareLink.id (reportShareLinks (perform_all steps db)))
  /\ NoDup (map ReportShareLink.token (reportShareLinks (perform_all steps db))).
Proof. apply perform_all_unique. Qed.

Lemma unique_keys_preserved_witness :
  (NoDup (map ReportShareLink.id (reportShareLinks sample_db))
   /\ NoDup (map ReportShareLink.token (reportShareLinks sample_db)))
  /\ NoDup (map ReportShareLink.token
              (reportShareLinks (perform_all sample_history sample_db)))
  /\ length (reportShareLinks (perform_all sample_history sample_db)) = 4%nat.
Proof.
  assert (Hid : NoDup (map ReportShareLink.id (reportShareLinks sample_db)))
    by compute_done.
  assert (Htok : NoDup (map ReportShareLink.token (reportShareLinks sample_db)))
    by compute_done.
  split; [split; assumption|].
  destruct (unique_keys_preserved sample_history sample_db Hid Htok) as [_ H].
  split; [exact H|vm_compute; reflexivity].
Defined.

Lemma dead_stays_gone db l t :
  NoDup (map ReportShareLink.id (reportShareLinks db)) ->
  NoDup (map ReportShareLink.token (reportShareLinks db)) ->
  l ∈ reportShareLinks db ->
  is_Some (ReportShareLink.revokedAt l) \/ ReportShareLink.expiresAt l <= t ->
  forall steps fuel env, t <= clock env ->
    getPublicPlanReportByToken fuel env (perform_all steps db) (ReportShareLink.token l)
    = Some (failure 410 "만료되었거나 폐기된 공유 링크입니다.").
Proof.
  intros Hid Htok Hl Hdead steps fuel env Ht.
  destruct (perform_all_later_version steps db l Hl) as (l' & Hl' & v & -> & Hv).
  destruct (perform_all_unique steps db Hid Htok) as [_ Htok'].
  pose proof (find_token_unique _ _ Htok' Hl') as Hfind.
  cbn [ReportShareLink.set_revokedAt ReportShareLink.token] in Hfind.
  unfold getPublicPlanReportByToken, findUnique_by_token. rewrite Hfind.
  cbn [ReportShareLink.set_revokedAt ReportShareLink.revokedAt ReportShareLink.expiresAt].
  destruct Hdead as [Hrev|Hexp].
  - destruct (Hv Hrev) as [w ->]. reflexivity.
  - destruct v; [reflexivity|]. cbn [truthy_date orb].
    destruct (Z.leb_spec (ReportShareLink.expiresAt l) (clock env)); [reflexivity|lia].
Qed.

(** X5: a link that is revoked, or expired at time [t], never resolves
    again: after any history of operations, and for every clock reading from
    [t] on, resolving its token answers 410. *)
Theorem dead_link_never_resolves db l t steps fuel env :
  NoDup (map ReportShareLink.id (reportShareLinks db)) ->
  NoDup (map ReportShareLink.token (reportShareLinks db)) ->
  l ∈ reportShareLinks db ->
  is_Some (ReportShareLink.revokedAt l) \/ ReportShareLink.expiresAt l <= t ->
  t <= clock env ->
  getPublicPlanReportByToken fuel env (perform_all steps db) (ReportShareLink.token l)
  = Some (failure 410 "만료되었거나 폐기된 공유 링크입니다.").
Proof. intros Hid Htok Hl Hdead Ht. now apply (dead_stays_gone db l t). Qed.

Lemma dead_link_never_resolves_witness :
  (NoDup (map ReportShareLink.id (reportShareLinks sample_db))
   /\ NoDup (map ReportShareLink.token (reportShareLinks sample_db))
   /\ sample_link "l1" "tok-live" "p1" None ∈ reportShareLinks sample_db
   /\ ReportShareLink.expiresAt (sample_link "l1" "tok-live" "p1" None)
      <= 100 + 7 * JsDate.msPerDay
   /\ 100 + 7 * JsDate.msPerDay <= 100 + 8 * JsDate.msPerDay)
  /\ getPublicPlanReportByToken 0
       {| clock := 100 + 8 * JsDate.msPerDay; LocalTZA := utcZone;
          randomSource := sample_byte; storeFault := fun _ => None;
          storeClock := fun _ => 0; storeCuid := fun _ => "l6"%string;
          linkRank := fun _ => 0; itemRank := fun _ => 0 |}
       (perform_all sample_history sample_db) "tok-live"
     = Some (failure 410 "만료되었거나 폐기된 공유 링크입니다.").
Proof.
  assert (Hid : NoDup (map ReportShareLink.id (reportShareLinks sample_db)))
    by compute_done.
  assert (Htok : NoDup (map ReportShareLink.token (reportShareLinks sample_db)))
    by compute_done.
  assert (Hl : sample_link "l1" "tok-live" "p1" None ∈ reportShareLinks sample_db)
    by left.
  assert (He : ReportShareLink.expiresAt (sample_link "l1" "tok-live" "p1" None)
               <= 100 + 7 * JsDate.msPerDay) by (cbn; lia).
  assert (Ht : 100 + 7 * JsDate.msPerDay <= 100 + 8 * JsDate.msPerDay)
    by (unfold JsDate.msPerDay; lia).
  split; [repeat split; assumption|].
  exact (dead_link_never_resolves sample_db _ (100 + 7 * JsDate.msPerDay)
           sample_history 0%nat
           {| clock := 100 + 8 * JsDate.msPerDay; LocalTZA := utcZone;
              randomSource := sample_byte; storeFault := fun _ => None;
              storeClock := fun _ => 0; storeCuid := fun _ => "l6"%string;
              linkRank := fun _ => 0; itemRank := fun _ => 0 |}
           Hid Htok Hl (or_intror He) Ht).
Defined.

Lemma revoke_marks_row env db i l :
  findUnique_by_id db i = Some l ->
  exists l', l' ∈ reportShareLinks (fst (revokeReportShareLink env db i))
             /\ ReportShareLink.token l' = ReportShareLink.token l
             /\ is_Some (ReportShareLink.revokedAt l').
Proof.
  intros Hf. unfold revokeReportShareLink. rewrite Hf.
  pose proof (find_id_some _ _ _ Hf) as [Hin Hid].
  destruct (ReportShareLink.revokedAt l) as [t|] eqn:Hr; cbn [truthy_date].
  - exists l. cbn [fst]. rewrite Hr. eauto.
  - unfold reportShareLink_update_revokedAt. rewrite Hf.
    cbn [fst reportShareLinks with_links].
    exists (ReportShareLink.set_revokedAt (Some (clock env)) l).
    split; [|split; [reflexivity|cbn; eauto]].
    apply list_elem_of_fmap. exists l.
    rewrite (proj2 (String.eqb_eq _ _) Hid). auto.
Qed.

(** X6: once Revoke has been served for a stored link (first time or not),
    resolving that link's token answers 410 after any further history of
    operations and at any time. *)
Theorem resolve_after_revoke env0 db i l steps fuel env :
  NoDup (map ReportShareLink.id (reportShareLinks db)) ->
  NoDup (map ReportShareLink.token (reportShareLinks db)) ->
  findUnique_by_id db i = Some l ->
  getPublicPlanReportByToken fuel env
    (perform_all steps (fst (revokeReportShareLink env0 db i)))
    (ReportShareLink.token l)
  = Some (failure 410 "만료되었거나 폐기된 공유 링크입니다.").
Proof.
  intros Hid Htok Hf.
  destruct (revoke_marks_row env0 db i l Hf) as (l' & Hl' & Ht & Hrev).
  destruct (perform_unique env0 (Revoke i) db Hid Htok) as [Hid' Htok'].
  cbn [perform] in Hid', Htok'. rewrite <- Ht.
  apply (dead_stays_gone _ l' (clock env)); auto. lia.
Qed.

Lemma resolve_after_revoke_witness :
  (NoDup (map ReportShareLink.id (reportShareLinks sample_db))
   /\ NoDup (map ReportShareLink.token (reportShareLinks sample_db))
   /\ findUnique_by_id sample_db "l1" = Some (sample_link "l1" "tok-live" "p1" None))
  /\ getPublicPlanReportByToken 0 sample_env
       (perform_all sample_history (fst (revokeReportShareLink sample_env sample_db "l1")))
       "tok-live"
     = Some (failure 410 "만료되었거나 폐기된 공유 링크입니다.").
Proof.
  assert (Hid : NoDup (map ReportShareLink.id (reportShareLinks sample_db)))
    by compute_done.
  assert (Htok : NoDup (map ReportShareLink.token (reportShareLinks sample_db)))
    by compute_done.
  assert (Hf : findUnique_by_id sample_db "l1"
               = Some (sample_link "l1" "tok-live" "p1" None)) by reflexivity.
  split; [repeat split; assumption|].
  exact (resolve_after_revoke sample_env sample_db "l1" _ sample_history 0%nat
           sample_env Hid Htok Hf).
Defined.

(** ** reportController.ts: what a create leaves behind *)

Lemma createAttempts_outcome env db planId userId expiresAt remaining :
  forall attempt tried,
    let run := createAttempts remaining attempt env db planId userId expiresAt tried in
    (run_db run = db /\ status (run_response run) = 500)
    \/ exists i link,
         attempt_insert env db planId userId expiresAt i = inr (run_db run, link)
         /\ run_response run
            = {| status := 201; body := JObj (success (link_json link)) |}
         /\ last (run_tokens run) = Some (ReportShareLink.token link).
Proof.
  induction remaining as [|remaining IH]; intros attempt tried; [now left|].
  cbn [createAttempts].
  change (reportShareLink_create db (storeFault env attempt) (storeClock env attempt)
            (storeCuid env attempt) _)
    with (attempt_insert env db planId userId expiresAt attempt).
  destruct (attempt_insert env db planId userId expiresAt attempt)
    as [e|[db' link]] eqn:Hins.
  - destruct (is_P2002 e); [apply IH|now left].
  - right. exists attempt, link. cbn [run_db run_response run_tokens].
    split; [exact Hins|]. split; [reflexivity|].
    rewrite last_snoc. f_equal.
    unfold attempt_insert, reportShareLink_create in Hins.
    cbn [data_expiresAt] in Hins.
    destruct expiresAt as [expires|]; [|discriminate].
    destruct (storeFault env attempt); [discriminate|].
    destruct (existsb _ _); [discriminate|].
    destruct (plans db !! _); [|discriminate].
    now injection Hins as _ <-.
Qed.

Lemma attempt_insert_row env db planId userId expiresAt i db' link :
  attempt_insert env db planId userId expiresAt i = inr (db', link) ->
  db' = with_links db (reportShareLinks db ++ [link])
  /\ link = {| ReportShareLink.id := storeCuid env i;
               ReportShareLink.token := attempt_token env i;
               ReportShareLink.planId := planId;
               ReportShareLink.createdByUserId := userId;
               ReportShareLink.createdAt := storeClock env i;
               ReportShareLink.expiresAt := ReportShareLink.expiresAt link;
               ReportShareLink.revokedAt := None |}
  /\ expiresAt = Some (ReportShareLink.expiresAt link)
  /\ is_Some (plans db !! planId)
  /\ forall l, l ∈ reportShareLinks db ->
       ReportShareLink.token l <> ReportShareLink.token link
       /\ ReportShareLink.id l <> ReportShareLink.id link.
Proof.
  unfold attempt_insert, reportShareLink_create. cbn [data_token data_planId
    data_createdByUserId data_expiresAt].
  destruct expiresAt as [expires|]; [|discriminate].
  destruct (storeFault env i); [discriminate|].
  destruct (existsb _ _) eqn:Hex; [discriminate|].
  destruct (plans db !! planId) as [p|]; [|discriminate].
  intros [= <- <-]. split; [reflexivity|]. split; [reflexivity|].
  split; [reflexivity|]. split; [eauto|].
  intros l Hl. cbn [ReportShareLink.token ReportShareLink.id].
  destruct (String.eqb (ReportShareLink.token l) (attempt_token env i)
            || String.eqb (ReportShareLink.id l) (storeCuid env i)) eqn:Hne.
  { exfalso. apply not_true_iff_false in Hex. apply Hex.
    apply existsb_exists. exists l. split; [now apply list_elem_of_In|exact Hne]. }
  apply orb_false_elim in Hne as [H1 H2].
  split; now apply String.eqb_neq.
Qed.

(** X7: a create answers 201 only by appending one row: the rows stored
    before are untouched, the new row belongs to the requested plan and the
    calling user, is not revoked, and its token and id differ from those of
    every row stored before; any other answer leaves the store as it was. *)
Theorem create_appends_one_row env db planId user :
  (status (run_response (createPlanReportShareLink env db planId user)) <> 201 ->
     run_db (createPlanReportShareLink env db planId user) = db)
  /\ (status (run_response (createPlanReportShareLink env db planId user)) = 201 ->
      exists link,
        run_response (createPlanReportShareLink env db planId user)
        = {| status := 201; body := JObj (success (link_json link)) |}
        /\ reportShareLinks (run_db (createPlanReportShareLink env db planId user))
           = reportShareLinks db ++ [link]
        /\ plans (run_db (createPlanReportShareLink env db planId user)) = plans db
        /\ folders (run_db (createPlanReportShareLink env db planId user)) = folders db
        /\ ReportShareLink.planId link = planId
        /\ user = Some (ReportShareLink.createdByUserId link)
        /\ ReportShareLink.revokedAt link = None
        /\ last (run_tokens (createPlanReportShareLink env db planId user))
           = Some (ReportShareLink.token link)
        /\ forall l, l ∈ reportShareLinks db ->
             ReportShareLink.token l <> ReportShareLink.token link
             /\ ReportShareLink.id l <> ReportShareLink.id link).
Proof.
  unfold createPlanReportShareLink.
  destruct user as [userId|]; [|split; [reflexivity|discriminate]].
  destruct (truthy_id (Some userId)); [|split; [reflexivity|discriminate]].
  destruct (plans db !! planId) as [p|]; [|split; [reflexivity|discriminate]].
  destruct (createAttempts_outcome env db planId userId
              (addDays (LocalTZA env) (clock env) SHARE_EXPIRES_DAYS) 5 0%nat [])
    as [[Hdb Hst]|(i & link & Hins & Hresp & Hlast)].
  - split; [intros _; exact Hdb|]. rewrite Hst. discriminate.
  - split; [rewrite Hresp; intros H; now contradiction H|]. intros _.
    destruct (attempt_insert_row _ _ _ _ _ _ _ _ Hins) as (Hdb & Hlink & Hexp & _ & Hfresh).
    exists link. split; [exact Hresp|]. rewrite Hdb. cbn [reportShareLinks plans folders with_links].
    repeat split; try exact Hlast; try (rewrite Hlink; reflexivity).
    + apply (Hfresh l H).
    + apply (Hfresh l H).
Qed.

Lemma create_appends_one_row_witness :
  status (run_response (createPlanReportShareLink colliding_env sample_db "p1"
                          (Some "u1"%string))) = 201
  /\ exists link,
       reportShareLinks (run_db (createPlanReportShareLink colliding_env sample_db "p1"
                                   (Some "u1"%string)))
       = reportShareLinks sample_db ++ [link]
       /\ ReportShareLink.planId link = "p1"%string
       /\ ReportShareLink.revokedAt link = None.
Proof.
  assert (H : status (run_response (createPlanReportShareLink colliding_env sample_db "p1"
                                      (Some "u1"%string))) = 201)
    by (vm_compute; reflexivity).
  split; [exact H|].
  destruct (create_appends_one_row colliding_env sample_db "p1" (Some "u1"%string))
    as [_ Hok].
  destruct (Hok H) as (link & _ & Hlinks & _ & _ & Hplan & _ & Hrev & _).
  exists link. repeat split; assumption.
Defined.

Lemma find_token_appended (ls : list ReportShareLink.t) link :
  (forall l, l ∈ ls -> ReportShareLink.token l <> ReportShareLink.token link) ->
  find (fun x => String.eqb (ReportShareLink.token x) (ReportShareLink.token link))
    (ls ++ [link]) = Some link.
Proof.
  induction ls as [|x ls IH]; intros Hfresh; cbn [app find].
  - now rewrite String.eqb_refl.
  - destruct (String.eqb_spec (ReportShareLink.token x) (ReportShareLink.token link)) as [E|E].
    + exfalso. apply (Hfresh x); [left|exact E].
    + apply IH. intros l Hl. apply Hfresh. now right.
Qed.

(** X8: the token handed out by a successful create resolves: as long as
    the clock has not reached the new link's [expiresAt], and the folder
    walks of the plan's items end, resolving it answers 200 with the report
    of the plan the link was created for. *)
Theorem resolve_after_create env db planId user p fuel env' :
  status (run_response (createPlanReportShareLink env db planId user)) = 201 ->
  plans db !! planId = Some p ->
  (forall it, it ∈ Plan.items p ->
     truthy_id (TestCase.folderId (PlanItem.testCase it)) = true ->
     is_Some (getFolderPath fuel db (TestCase.folderId (PlanItem.testCase it)))) ->
  exists link items,
    run_response (createPlanReportShareLink env db planId user)
    = {| status := 201; body := JObj (success (link_json link)) |}
    /\ addDays (LocalTZA env) (clock env) SHARE_EXPIRES_DAYS
       = Some (ReportShareLink.expiresAt link)
    /\ length items = length (Plan.items p)
    /\ (clock env' < ReportShareLink.expiresAt link ->
        getPublicPlanReportByToken fuel env'
          (run_db (createPlanReportShareLink env db planId user))
          (ReportShareLink.token link)
        = Some (publicReport (run_db (createPlanReportShareLink env db planId user)) link
                  {| Plan.scalars := Plan.scalars p;
                     Plan.items :=
                       orderBy_order_sequence (itemRank env') (Plan.items p) |} items)).
Proof.
  intros Hst Hp Hwalks.
  destruct (itemsWithFolderPath_total fuel db
              (orderBy_order_sequence (itemRank env') (Plan.items p)))
    as [items Hitems].
  { intros it Hit. apply Hwalks.
    now rewrite orderBy_order_sequence_Permutation in Hit. }
  revert Hst. unfold createPlanReportShareLink.
  destruct user as [userId|]; [|discriminate].
  destruct (truthy_id (Some userId)); [|discriminate].
  rewrite Hp.
  destruct (createAttempts_outcome env db planId userId
              (addDays (LocalTZA env) (clock env) SHARE_EXPIRES_DAYS) 5 0%nat [])
    as [[_ Hst]|(i & link & Hins & Hresp & _)]; [rewrite Hst; discriminate|].
  intros _.
  destruct (attempt_insert_row _ _ _ _ _ _ _ _ Hins) as (Hdb & Hlink & Hexp & _ & Hfresh).
  exists link, items. split; [exact Hresp|].
  split; [exact Hexp|].
  split.
  { apply mapM_Some_1, Forall2_length in Hitems. rewrite <- Hitems.
    apply Permutation_length, orderBy_order_sequence_Permutation. }
  intros Hlive. rewrite Hdb.
  assert (Hfind : findUnique_by_token (with_links db (reportShareLinks db ++ [link]))
                    (ReportShareLink.token link) = Some link).
  { unfold findUnique_by_token. cbn [reportShareLinks with_links].
    apply find_token_appended. intros l Hl. apply (Hfresh l Hl). }
  rewrite (resolve_live _ _ _ _ _ Hfind); [|rewrite Hlink; reflexivity|exact Hlive].
  unfold plan_findUnique_with_items. cbn [plans with_links].
  replace (ReportShareLink.planId link) with planId by (rewrite Hlink; reflexivity).
  rewrite Hp. cbn [Plan.items].
  now rewrite itemsWithFolderPath_with_links, Hitems.
Qed.

Lemma resolve_after_create_witness :
  (status (run_response (createPlanReportShareLink sample_env sample_db "p1"
                           (Some "u1"%string))) = 201
   /\ plans sample_db !! "p1"%string = Some sample_plan
   /\ (forall it, it ∈ Plan.items sample_plan ->
         truthy_id (TestCase.folderId (PlanItem.testCase it)) = true ->
         is_Some (getFolderPath 3 sample_db (TestCase.folderId (PlanItem.testCase it)))))
  /\ exists link r,
       clock sample_env < ReportShareLink.expiresAt link
       /\ getPublicPlanReportByToken 3 sample_env
            (run_db (createPlanReportShareLink sample_env sample_db "p1"
                       (Some "u1"%string)))
            (ReportShareLink.token link) = Some r
       /\ status r = 200.
Proof.
  assert (H : status (run_response (createPlanReportShareLink sample_env sample_db "p1"
                                      (Some "u1"%string))) = 201)
    by (vm_compute; reflexivity).
  assert (Hp : plans sample_db !! "p1"%string = Some sample_plan)
    by (vm_compute; reflexivity).
  assert (Hw : forall it, it ∈ Plan.items sample_plan ->
            truthy_id (TestCase.folderId (PlanItem.testCase it)) = true ->
            is_Some (getFolderPath 3 sample_db (TestCase.folderId (PlanItem.testCase it)))).
  { intros it Hit _. unfold sample_plan in Hit. cbn [Plan.items] in Hit.
    repeat (apply elem_of_cons in Hit as [->|Hit]);
      [ .. | inversion Hit]; vm_compute; eauto. }
  split; [repeat split; assumption|].
  destruct (resolve_after_create sample_env sample_db "p1" (Some "u1"%string)
              sample_plan 3%nat sample_env H Hp Hw)
    as (link & items & _ & Hexp & _ & Hres).
  assert (Hlive : clock sample_env < ReportShareLink.expiresAt link).
  { rewrite addDays_local in Hexp. apply TimeClip_Some in Hexp.
    rewrite Hexp. vm_compute. reflexivity. }
  exists link. eexists. split; [exact Hlive|]. split; [exact (Hres Hlive)|reflexivity].
Defined.

(** ** reportController.ts: the first revoke of a link *)

(** X9: revoking an unknown id answers 404 and changes nothing.  Revoking a
    stored link that is not yet revoked answers 200 with the whole row, its
    [revokedAt] now the handler's clock reading; in the store exactly that
    row has changed, and only in [revokedAt]. *)
Theorem revoke_live_link env db i :
  (findUnique_by_id db i = None ->
     revokeReportShareLink env db i
     = (db, failure 404 "공유 링크를 찾을 수 없습니다."))
  /\ (forall l,
        NoDup (map ReportShareLink.id (reportShareLinks db)) ->
        findUnique_by_id db i = Some l ->
        ReportShareLink.revokedAt l = None ->
        snd (revokeReportShareLink env db i)
        = {| status := 200;
             body := JObj (success
                             (link_json (ReportShareLink.set_revokedAt
                                           (Some (clock env)) l))) |}
        /\ plans (fst (revokeReportShareLink env db i)) = plans db
        /\ folders (fst (revokeReportShareLink env db i)) = folders db
        /\ length (reportShareLinks (fst (revokeReportShareLink env db i)))
           = length (reportShareLinks db)
        /\ findUnique_by_id (fst (revokeReportShareLink env db i)) i
           = Some (ReportShareLink.set_revokedAt (Some (clock env)) l)
        /\ (forall x, x ∈ reportShareLinks db -> x <> l ->
              x ∈ reportShareLinks (fst (revokeReportShareLink env db i)))
        /\ (forall x, x ∈ reportShareLinks (fst (revokeReportShareLink env db i)) ->
              x = ReportShareLink.set_revokedAt (Some (clock env)) l
              \/ (x ∈ reportShareLinks db /\ x <> l))).
Proof.
  split.
  - intros Hf. unfold revokeReportShareLink. now rewrite Hf.
  - intros l Hnd Hf Hr. unfold revokeReportShareLink, reportShareLink_update_revokedAt.
    rewrite Hf, Hr. cbn [truthy_date fst snd plans folders reportShareLinks with_links].
    pose proof (find_id_some _ _ _ Hf) as [Hin Hid].
    split; [reflexivity|]. split; [reflexivity|]. split; [reflexivity|].
    split; [apply length_map|].
    split.
    { unfold findUnique_by_id in *. cbn [reportShareLinks with_links].
      clear Hnd Hin. induction (reportShareLinks db) as [|x ls IH]; [discriminate|].
      cbn [find map] in *.
      destruct (String.eqb (ReportShareLink.id x) i) eqn:E.
      - injection Hf as ->. cbn [ReportShareLink.set_revokedAt ReportShareLink.id].
        now rewrite E.
      - rewrite E. now apply IH. }
    split.
    { intros x Hx Hne. apply list_elem_of_fmap. exists x. split; [|exact Hx].
      destruct (String.eqb_spec (ReportShareLink.id x) i) as [E|E]; [|reflexivity].
      exfalso. apply Hne. apply (NoDup_id_inj _ _ _ Hnd Hx Hin). congruence. }
    intros x Hx. apply list_elem_of_fmap in Hx as (y & -> & Hy).
    destruct (String.eqb_spec (ReportShareLink.id y) i) as [E|E].
    + left. f_equal. apply (NoDup_id_inj _ _ _ Hnd Hy Hin). congruence.
    + right. split; [exact Hy|]. intros ->. contradiction.
Qed.

Lemma revoke_live_link_witness :
  (NoDup (map ReportShareLink.id (reportShareLinks sample_db))
   /\ findUnique_by_id sample_db "l1" = Some (sample_link "l1" "tok-live" "p1" None)
   /\ ReportShareLink.revokedAt (sample_link "l1" "tok-live" "p1" None) = None)
  /\ findUnique_by_id (fst (revokeReportShareLink sample_env sample_db "l1")) "l1"
     = Some (sample_link "l1" "tok-live" "p1" (Some 500))
  /\ sample_link "l2" "tok-revoked" "p1" (Some 200)
     ∈ reportShareLinks (fst (revokeReportShareLink sample_env sample_db "l1")).
Proof.
  assert (Hid : NoDup (map ReportShareLink.id (reportShareLinks sample_db)))
    by compute_done.
  assert (Hf : findUnique_by_id sample_db "l1"
               = Some (sample_link "l1" "tok-live" "p1" None)) by reflexivity.
  assert (Hr : ReportShareLink.revokedAt (sample_link "l1" "tok-live" "p1" None) = None)
    by reflexivity.
  split; [repeat split; assumption|].
  destruct (revoke_live_link sample_env sample_db "l1") as [_ Hlive].
  destruct (Hlive _ Hid Hf Hr) as (_ & _ & _ & _ & Hfind & Hkeep & _).
  split; [exact Hfind|].
  apply Hkeep; [right; left|discriminate].
Defined.

(** ** reportController.ts: the shape of a folder path *)

Lemma Breadcrumb_entry db j p :
  Breadcrumb db j p ->
  forall i n, (i, n) ∈ p ->
    exists q, Breadcrumb db (Some i) q /\ (length q <= length p)%nat.
Proof.
  induction 1 as [j E|j E Hm|j f path E Hf Hpath IH]; intros i n Hin;
    try (inversion Hin; fail).
  apply elem_of_app in Hin as [Hin|Hin].
  - destruct (IH i n Hin) as (q & Hq & Hlen). exists q. split; [exact Hq|].
    rewrite length_app. lia.
  - apply list_elem_of_singleton in Hin. injection Hin as -> ->.
    exists (path ++ [(j, Folder.name f)]). split; [|lia].
    now apply Breadcrumb_step.
Qed.

Lemma Breadcrumb_shape db j p :
  Breadcrumb db j p ->
  (forall i n, (i, n) ∈ p ->
     truthy_id (Some i) = true
     /\ exists f, folders db !! i = Some f /\ Folder.name f = n)
  /\ (forall k a b, p !! k = Some a -> p !! S k = Some b ->
        exists f, folders db !! fst b = Some f /\ Folder.parentId f = Some (fst a))
  /\ (forall i, j = Some i -> truthy_id j = true -> is_Some (folders db !! i) ->
        exists n, last p = Some (i, n))
  /\ NoDup (map fst p).
Proof.
  induction 1 as [j E|j E Hm|j f path E Hf Hpath IH].
  - split; [intros i n Hin; inversion Hin|]. split; [intros k a b Hk; discriminate|].
    split; [intros i _ Ht; congruence|constructor].
  - split; [intros i n Hin; inversion Hin|]. split; [intros k a b Hk; discriminate|].
    split; [|constructor].
    intros i [= ->] _ [g Hg]. congruence.
  - destruct IH as (IH1 & IH2 & IH3 & IH4).
    split.
    { intros i n Hin. apply elem_of_app in Hin as [Hin|Hin]; [now apply IH1|].
      apply list_elem_of_singleton in Hin. injection Hin as -> ->.
      split; [exact E|]. now exists f. }
    split.
    { intros k a b Ha Hb.
      destruct (decide (S k < length path)%nat) as [Hlt|Hge].
      - rewrite lookup_app_l in Ha by lia. rewrite lookup_app_l in Hb by lia.
        now apply (IH2 k).
      - assert (Hk : S k = length path).
        { apply lookup_lt_Some in Hb. rewrite length_app in Hb. cbn in Hb. lia. }
        rewrite lookup_app_l in Ha by lia.
        rewrite lookup_app_r in Hb by lia.
        replace (S k - length path)%nat with 0%nat in Hb by lia.
        injection Hb as <-. cbn [fst]. exists f. split; [exact Hf|].
        destruct (Folder.parentId f) as [pid|] eqn:Hpid.
        + destruct (truthy_id (Some pid)) eqn:Htp.
          * destruct (folders db !! pid) as [g|] eqn:Hg.
            -- destruct (IH3 pid eq_refl eq_refl (mk_is_Some _ _ Hg)) as [n Hlast].
               rewrite last_lookup in Hlast.
               replace (Init.Nat.pred (length path)) with k in Hlast by lia.
               rewrite Ha in Hlast. injection Hlast as ->. reflexivity.
            -- inversion Hpath; subst; try congruence.
               all: apply lookup_lt_Some in Ha; cbn in Ha; lia.
          * inversion Hpath; subst; try congruence.
            all: apply lookup_lt_Some in Ha; cbn in Ha; lia.
        + inversion Hpath; subst. apply lookup_lt_Some in Ha; cbn in Ha; lia. }
    split.
    { intros i [= ->] _ _. exists (Folder.name f). apply last_snoc. }
    rewrite map_app. cbn [map fst]. apply NoDup_app. split; [exact IH4|].
    split; [|apply NoDup_singleton].
    intros x Hx Hx1. apply list_elem_of_singleton in Hx1. subst x.
    apply list_elem_of_fmap in Hx as ([i n] & Hi & Hin). cbn in Hi. subst i.
    destruct (Breadcrumb_entry _ _ _ Hpath j n Hin) as (q & Hq & Hlen).
    pose proof (Breadcrumb_functional _ _ _ Hq _
                  (Breadcrumb_step db j f path E Hf Hpath)) as Heq.
    rewrite Heq, length_app in Hlen. cbn in Hlen. lia.
Qed.

(** X10: a path returned by [getFolderPath] runs from the outermost ancestor
    down to the folder asked for: every entry is a stored folder under its
    stored name, each entry is the parent of the next, the last entry is the
    folder asked for when that one is stored, and no folder occurs twice. *)
Theorem getFolderPath_shape fuel db folderId path :
  getFolderPath fuel db folderId = Some path ->
  (forall i n, (i, n) ∈ path ->
     exists f, folders db !! i = Some f /\ Folder.name f = n)
  /\ (forall k a b, path !! k = Some a -> path !! S k = Some b ->
        exists f, folders db !! fst b = Some f /\ Folder.parentId f = Some (fst a))
  /\ (forall i, folderId = Some i -> truthy_id folderId = true ->
        is_Some (folders db !! i) -> exists n, last path = Some (i, n))
  /\ NoDup (map fst path).
Proof.
  intros H. apply getFolderPath_Breadcrumb, Breadcrumb_shape in H
    as (H1 & H2 & H3 & H4).
  split; [intros i n Hin; now apply (H1 i n)|]. auto.
Qed.

Lemma getFolderPath_shape_witness :
  getFolderPath 3 dangling_db (Some "b"%string)
  = Some [("a"%string, "A"%string); ("b"%string, "B"%string)]
  /\ exists f, folders dangling_db !! "b"%string = Some f
               /\ Folder.parentId f = Some "a"%string.
Proof.
  assert (H : getFolderPath 3 dangling_db (Some "b"%string)
              = Some [("a"%string, "A"%string); ("b"%string, "B"%string)])
    by (vm_compute; reflexivity).
  split; [exact H|].
  destruct (getFolderPath_shape 3%nat dangling_db _ _ H) as (_ & Hlink & _).
  exact (Hlink 0%nat ("a"%string, "A"%string) ("b"%string, "B"%string) eq_refl eq_refl).
Defined.

(** ** middleware/csrf.ts: the token of the double-submit cookie *)

Lemma hex_nibbles_inj a b :
  (a <= 255)%N -> (b <= 255)%N ->
  hex_digit (N.shiftr a 4) = hex_digit (N.shiftr b 4) ->
  hex_digit (N.land a 15) = hex_digit (N.land b 15) ->
  a = b.
Proof.
  intros Ha Hb H1 H2.
  assert (H : N_all_below 256 0 (fun x => N_all_below 256 0 (fun y =>
            implb (Ascii.eqb (hex_digit (N.shiftr x 4)) (hex_digit (N.shiftr y 4))
                   && Ascii.eqb (hex_digit (N.land x 15)) (hex_digit (N.land y 15)))
                  (x =? y)%N)) = true)
    by (vm_compute; reflexivity).
  pose proof (N_all_below_spec _ _ _ H a ltac:(lia)) as Hx. cbv beta in Hx.
  pose proof (N_all_below_spec _ _ _ Hx b ltac:(lia)) as Hy. cbv beta in Hy.
  rewrite H1, H2, !Ascii.eqb_refl in Hy. now apply N.eqb_eq.
Qed.

Lemma hex_digits_lower a :
  (a <= 255)%N ->
  is_lower_hex (hex_digit (N.shiftr a 4)) = true
  /\ is_lower_hex (hex_digit (N.land a 15)) = true.
Proof.
  intros Ha.
  assert (H : N_all_below 256 0 (fun x =>
            is_lower_hex (hex_digit (N.shiftr x 4))
            && is_lower_hex (hex_digit (N.land x 15))) = true)
    by (vm_compute; reflexivity).
  pose proof (N_all_below_spec _ _ _ H a ltac:(lia)) as Hx.
  now apply andb_prop in Hx.
Qed.

Lemma toString_hex_inj buf1 :
  forall buf2, toString_hex buf1 = toString_hex buf2 -> buf1 = buf2.
Proof.
  unfold toString_hex.
  induction buf1 as [|a buf1 IH]; intros [|b buf2] H;
    apply string_of_list_ascii_inj in H; cbn [flat_map app] in H;
    try reflexivity; try discriminate.
  injection H as H1 H2 H.
  pose proof (Byte.to_N_bounded a). pose proof (Byte.to_N_bounded b).
  rewrite (to_N_inj a b) by (apply hex_nibbles_inj; assumption).
  f_equal. apply IH. now f_equal.
Qed.

(** X11: the CSRF token issued is the hex text of the 16 octets drawn: 32
    characters, each one of [0-9a-f], from which the 16 octets (128 bits) can
    be read back; the cookie set carries that very token and lives 7 days. *)
Theorem issueToken_hex (isProd : bool) (source : nat -> Byte.byte) (cursor : nat) :
  String.length (fst (issueToken isProd source cursor)) = 32%nat
  /\ Forall (fun c => is_lower_hex c = true)
       (list_ascii_of_string (fst (issueToken isProd source cursor)))
  /\ cookie_value (snd (issueToken isProd source cursor))
     = fst (issueToken isProd source cursor)
  /\ cookie_maxAge (snd (issueToken isProd source cursor)) = 7 * JsDate.msPerDay
  /\ forall isProd' source' cursor',
       fst (issueToken isProd' source' cursor') = fst (issueToken isProd source cursor) ->
       randomBytes source' cursor' 16 = randomBytes source cursor 16.
Proof.
  cbn [issueToken fst snd cookie_value cookie_maxAge].
  assert (Hlen : forall buf, length (list_ascii_of_string (toString_hex buf))
                             = (2 * length buf)%nat).
  { intros buf. unfold toString_hex. rewrite list_ascii_of_string_of_list_ascii.
    induction buf as [|b buf IH]; [reflexivity|]. cbn [flat_map app length]. lia. }
  split.
  { rewrite <- (string_of_list_ascii_of_string (toString_hex _)),
      length_string_of_list_ascii, Hlen, randomBytes_length. reflexivity. }
  split.
  { unfold toString_hex. rewrite list_ascii_of_string_of_list_ascii.
    induction (randomBytes source cursor 16) as [|b buf IH]; [constructor|].
    cbn [flat_map app]. pose proof (Byte.to_N_bounded b) as Hb.
    destruct (hex_digits_lower _ Hb). now repeat constructor. }
  split; [reflexivity|]. split; [reflexivity|].
  intros _ source' cursor'. apply toString_hex_inj.
Qed.

(** ** The share-link panel: the badge and the resolver agree *)

(** X12: for a stored link with a unique token, the badge of the plan page
    is [Active] at time [now] exactly when the public resolver, asked at the
    same time, does not turn the token away as expired or revoked; a link
    both revoked and expired is shown as [Revoked]. *)
Theorem StatusBadge_agrees_with_resolver fuel env db l :
  NoDup (map ReportShareLink.token (reportShareLinks db)) ->
  l ∈ reportShareLinks db ->
  (StatusBadge (clock env) l = Active
   <-> getPublicPlanReportByToken fuel env db (ReportShareLink.token l)
       <> Some (failure 410 "만료되었거나 폐기된 공유 링크입니다."))
  /\ (StatusBadge (clock env) l = Active
      <-> ReportShareLink.revokedAt l = None
          /\ clock env < ReportShareLink.expiresAt l)
  /\ (is_Some (ReportShareLink.revokedAt l) -> StatusBadge (clock env) l = Revoked).
Proof.
  intros Hnd Hl.
  pose proof (find_token_unique _ _ Hnd Hl) as Hfind.
  unfold StatusBadge, getPublicPlanReportByToken, findUnique_by_token. rewrite Hfind.
  destruct (ReportShareLink.revokedAt l) as [t|] eqn:Hr; cbn [truthy_date orb].
  - split; [split; [discriminate|intros H; now contradiction H]|].
    split; [split; [discriminate|intros [? _]; discriminate]|reflexivity].
  - destruct (Z.leb_spec (ReportShareLink.expiresAt l) (clock env)) as [He|He].
    + split; [split; [discriminate|intros H; now contradiction H]|].
      split; [split; [discriminate|intros [_ ?]; lia]|intros [? ?]; discriminate].
    + split.
      { split; [intros _|reflexivity].
        destruct (plan_findUnique_with_items (itemRank env) db
                    (ReportShareLink.planId l)) as [plan|];
          [|discriminate].
        destruct (itemsWithFolderPath fuel db (Plan.items plan)); discriminate. }
      split; [split; [intros _; now split|reflexivity]|intros [? ?]; discriminate].
Qed.

Lemma StatusBadge_agrees_with_resolver_witness :
  (NoDup (map ReportShareLink.token (reportShareLinks sample_db))
   /\ sample_link "l2" "tok-revoked" "p1" (Some 200) ∈ reportShareLinks sample_db)
  /\ StatusBadge (clock sample_env) (sample_link "l2" "tok-revoked" "p1" (Some 200))
     = Revoked.
Proof.
  assert (Htok : NoDup (map ReportShareLink.token (reportShareLinks sample_db)))
    by compute_done.
  assert (Hl : sample_link "l2" "tok-revoked" "p1" (Some 200) ∈ reportShareLinks sample_db)
    by (right; left).
  split; [split; assumption|].
  destruct (StatusBadge_agrees_with_resolver 0%nat sample_env sample_db _ Htok Hl)
    as (_ & _ & Hrev).
  apply Hrev. now exists 200.
Defined.

(** ** services/testCaseService.ts *)

#[local] Instance caseNumber_desc_total : Total caseNumber_desc.
Proof. intros a b. unfold caseNumber_desc. lia. Qed.
#[local] Instance caseNumber_desc_trans : Transitive caseNumber_desc.
Proof. intros a b c. unfold caseNumber_desc. lia. Qed.
#[local] Instance sequence_desc_total : Total sequence_desc.
Proof. intros a b. unfold sequence_desc. lia. Qed.
#[local] Instance sequence_desc_trans : Transitive sequence_desc.
Proof. intros a b c. unfold sequence_desc. lia. Qed.
#[local] Instance sequence_asc_total : Total sequence_asc.
Proof. intros a b. unfold sequence_asc. lia. Qed.
#[local] Instance sequence_asc_trans : Transitive sequence_asc.
Proof. intros a b c. unfold sequence_asc. lia. Qed.

Lemma number_or_zero x : number_or x 0 = default 0 x.
Proof.
  destruct x as [n|]; [|reflexivity]. cbn.
  destruct (Z.eqb_spec n 0); congruence.
Qed.

Lemma head_of_sorted {A} (R : relation A) `{!Total R, !Transitive R}
    `{!forall x y, Decision (R x y)} (l : list A) x :
  x ∈ l -> exists h, head (merge_sort R l) = Some h /\ R h x.
Proof.
  intros Hx. rewrite <- (merge_sort_Permutation R) in Hx.
  pose proof (StronglySorted_merge_sort R l) as Hs.
  destruct (merge_sort R l) as [|h t]; [inversion Hx|].
  exists h. split; [reflexivity|].
  apply StronglySorted_inv in Hs as [_ Hall].
  apply elem_of_cons in Hx as [->|Hx].
  - destruct (total R h h); assumption.
  - rewrite Forall_forall in Hall. now apply Hall.
Qed.

(** X13: the case number handed out next is larger than every case number
    stored, and is 1 on an empty table. *)
Theorem getNextCaseNumber_exceeds_all (tb : Tables) :
  (forall r, r ∈ testCases tb -> TestCaseRow.caseNumber r < getNextCaseNumber tb)
  /\ (testCases tb = [] -> getNextCaseNumber tb = 1).
Proof.
  unfold getNextCaseNumber. split.
  - intros r Hr.
    destruct (head_of_sorted caseNumber_desc _ _ Hr) as (h & -> & Hh).
    rewrite number_or_zero. cbn. unfold caseNumber_desc in Hh. lia.
  - intros ->. reflexivity.
Qed.

Lemma getNextCaseNumber_exceeds_all_witness :
  sample_case "t3" 3 1 (Some "b"%string) ∈ testCases sample_tables
  /\ TestCaseRow.caseNumber (sample_case "t3" 3 1 (Some "b"%string))
     < getNextCaseNumber sample_tables.
Proof.
  assert (H : sample_case "t3" 3 1 (Some "b"%string) ∈ testCases sample_tables)
    by (right; right; left).
  split; [exact H|].
  destruct (getNextCaseNumber_exceeds_all sample_tables) as [Hall _].
  exact (Hall _ H).
Defined.

(** *** Transactions of updates *)

Lemma updateAll_inr faults stmts :
  (forall j c, (j, c) ∈ stmts -> forall r, TestCaseRow.id (c r) = TestCaseRow.id r) ->
  forall k rows rows',
    updateAll faults k stmts rows = inr rows' ->
    (exists idl, stmts.*1 = JStr <$> idl
                 /\ forall i, i ∈ idl -> exists r, r ∈ rows /\ TestCaseRow.id r = i)
    /\ Forall2 (fun r r' =>
                  TestCaseRow.id r' = TestCaseRow.id r
                  /\ (JStr (TestCaseRow.id r) ∉ stmts.*1 -> r' = r)
                  /\ (NoDup stmts.*1 ->
                      forall n c, stmts !! n = Some (JStr (TestCaseRow.id r), c) ->
                                  r' = c r))
         rows rows'.
Proof.
  induction stmts as [|[j c] stmts IH]; intros Hid k rows rows' H.
  - injection H as <-. split; [exists []; split; [reflexivity|intros i Hi; inversion Hi]|].
    apply Forall2_same_length_lookup_2; [reflexivity|].
    intros n r r' H1 H2. assert (r' = r) by congruence. subst r'.
    split; [reflexivity|]. split; [reflexivity|]. intros _ m c Hm. discriminate.
  - cbn [updateAll] in H.
    destruct (faults k); [discriminate|].
    destruct j as [| | |i| | |]; try discriminate.
    destruct (existsb _ rows) eqn:Hex; [|discriminate].
    assert (Hc : forall r, TestCaseRow.id (c r) = TestCaseRow.id r)
      by (apply (Hid (JStr i) c); left).
    apply IH in H as [(idl & Hidl & Hexists) HF];
      [|intros j' c' Hin; apply (Hid j' c'); now right].
    set (g := fun r => if String.eqb (TestCaseRow.id r) i then c r else r) in *.
    assert (Hg : forall r, TestCaseRow.id (g r) = TestCaseRow.id r).
    { intros r. unfold g. destruct (String.eqb _ i); [apply Hc|reflexivity]. }
    split.
    { exists (i :: idl). split; [cbn; now rewrite Hidl|].
      intros i' Hi'. apply elem_of_cons in Hi' as [->|Hi'].
      - apply existsb_exists in Hex as (r & Hr & Heq).
        exists r. split; [now apply list_elem_of_In|now apply String.eqb_eq].
      - destruct (Hexists i' Hi') as (r & Hr & Hri).
        apply list_elem_of_fmap in Hr as (r0 & -> & Hr0).
        exists r0. split; [exact Hr0|]. now rewrite <- Hg. }
    apply Forall2_fmap_l in HF. eapply Forall2_impl; [exact HF|].
    intros r r' (H1 & H2 & H3). cbv beta in *. rewrite Hg in H1, H2, H3.
    split; [exact H1|]. split.
    + intros Hnot. cbn [fmap list_fmap fst] in Hnot.
      apply not_elem_of_cons in Hnot as [Hne Hnot].
      rewrite (H2 Hnot). unfold g.
      destruct (String.eqb_spec (TestCaseRow.id r) i) as [E|E]; [|reflexivity].
      exfalso. apply Hne. now rewrite E.
    + intros Hnd n c' Hn. cbn [fmap list_fmap fst] in Hnd.
      apply NoDup_cons in Hnd as [Hhead Hnd].
      destruct n as [|n]; cbn in Hn.
      * injection Hn as Hi <-. rewrite H2.
        -- unfold g. now rewrite <- Hi, String.eqb_refl.
        -- now rewrite <- Hi.
      * assert (Hne : TestCaseRow.id r <> i).
        { intros E. apply Hhead. rewrite <- E.
          apply list_elem_of_fmap. exists (JStr (TestCaseRow.id r), c').
          split; [reflexivity|]. eapply list_elem_of_lookup_2; exact Hn. }
        rewrite (H3 Hnd n c' Hn). unfold g.
        destruct (String.eqb_spec (TestCaseRow.id r) i); [contradiction|reflexivity].
Qed.

Lemma imap_fst_pair {A B} (h : nat -> B) (l : list A) :
  (imap (fun index x => (x, h index)) l).*1 = l.
Proof.
  revert h. induction l as [|x l IH]; intros h; [reflexivity|].
  cbn. f_equal. apply (IH (h ∘ S)).
Qed.

Lemma JStr_elem_of i (idl : list string) : JStr i ∈ JStr <$> idl <-> i ∈ idl.
Proof.
  split.
  - intros H. apply list_elem_of_fmap in H as (i' & [= ->] & Hi). exact Hi.
  - intros H. now apply list_elem_of_fmap_2.
Qed.

Lemma JStr_NoDup (idl : list string) : NoDup idl -> NoDup (JStr <$> idl).
Proof. apply NoDup_fmap_2. intros x y [= ->]. reflexivity. Qed.

Lemma lastCase_bounds tb fid row :
  row ∈ testCases tb -> TestCaseRow.folderId row = fid ->
  TestCaseRow.sequence row
  <= number_or (TestCaseRow.sequence <$> lastCase_in_folder tb fid) 0.
Proof.
  intros Hrow Hfid. unfold lastCase_in_folder.
  assert (Hin : row ∈ filter (fun r => TestCaseRow.folderId r = fid) (testCases tb))
    by (apply list_elem_of_filter; now split).
  destruct (head_of_sorted sequence_desc _ _ Hin) as (h & -> & Hh).
  rewrite number_or_zero. cbn. exact Hh.
Qed.

Lemma moveTestCases_into_ok faults tb items fid tb' r :
  moveTestCases_into faults tb items fid = (tb', Returned r) ->
  exists idl,
    items = JStr <$> idl
    /\ r = {| status := 200; body := moved_body (length idl) |}
    /\ folderTable tb' = folderTable tb
    /\ planItems tb' = planItems tb
    /\ (forall i, i ∈ idl -> exists row, row ∈ testCases tb /\ TestCaseRow.id row = i)
    /\ Forall2 (fun row row' =>
                  TestCaseRow.id row' = TestCaseRow.id row
                  /\ (TestCaseRow.id row ∉ idl -> row' = row)
                  /\ (NoDup idl ->
                      forall k, idl !! k = Some (TestCaseRow.id row) ->
                        row' = TestCaseRow.set_folder fid
                                 (number_or (TestCaseRow.sequence
                                               <$> lastCase_in_folder tb fid) 0
                                  + Z.of_nat k + 1) row))
         (testCases tb) (testCases tb').
Proof.
  unfold moveTestCases_into.
  set (base := number_or (TestCaseRow.sequence <$> lastCase_in_folder tb fid) 0).
  set (stmts := imap (fun index id =>
                        (id, TestCaseRow.set_folder fid (base + Z.of_nat index + 1)))
                  items).
  destruct (updateAll faults 0 stmts (testCases tb)) as [e|rows] eqn:Hup; [discriminate|].
  intros [= <- <-].
  apply updateAll_inr in Hup as [(idl & Hidl & Hexists) HF].
  2:{ intros j c Hin r0. unfold stmts in Hin.
      apply list_elem_of_lookup in Hin as [n Hn]. rewrite list_lookup_imap in Hn.
      destruct (items !! n); [|discriminate]. injection Hn as _ <-. reflexivity. }
  unfold stmts in Hidl. rewrite imap_fst_pair in Hidl. subst items.
  exists idl. split; [reflexivity|]. rewrite length_fmap.
  split; [reflexivity|]. split; [reflexivity|]. split; [reflexivity|].
  split; [exact Hexists|]. cbn [testCases with_testCases].
  eapply Forall2_impl; [exact HF|].
  intros row row' (H1 & H2 & H3). cbv beta.
  unfold stmts in H2, H3. rewrite imap_fst_pair in H2, H3.
  split; [exact H1|]. split.
  - intros Hnot. apply H2. now rewrite JStr_elem_of.
  - intros Hnd k Hk. apply (H3 (JStr_NoDup _ Hnd) k).
    rewrite list_lookup_imap, list_lookup_fmap, Hk. reflexivity.
Qed.

(** X14: when a move of test cases answers 200, every id given was the id
    of a stored case; the cases named (ids without repetition) now lie in
    the target folder, the [k]-th (from 0) with [sequence] [base + k + 1],
    where no case that was in the target folder had a [sequence] above
    [base]: the moved cases are appended in the order given.  All other
    cases, the folders and the plan items are as before, and the count
    reported is the number of ids. *)
Theorem moveTestCasesToFolder_appends faults tb ids targetFolderId tb' r :
  moveTestCasesToFolder faults tb ids targetFolderId = (tb', Returned r) ->
  status r = 200 ->
  exists idl fid base,
    ids = Some (JArr (JStr <$> idl))
    /\ (forall f, fid = Some f ->
          targetFolderId = Some (JStr f) /\ is_Some (folderTable tb !! f))
    /\ (forall row, row ∈ testCases tb -> TestCaseRow.folderId row = fid ->
          TestCaseRow.sequence row <= base)
    /\ r = {| status := 200; body := moved_body (length idl) |}
    /\ folderTable tb' = folderTable tb
    /\ planItems tb' = planItems tb
    /\ (forall i, i ∈ idl -> exists row, row ∈ testCases tb /\ TestCaseRow.id row = i)
    /\ Forall2 (fun row row' =>
                  TestCaseRow.id row' = TestCaseRow.id row
                  /\ (TestCaseRow.id row ∉ idl -> row' = row)
                  /\ (NoDup idl ->
                      forall k, idl !! k = Some (TestCaseRow.id row) ->
                        row' = TestCaseRow.set_folder fid (base + Z.of_nat k + 1) row))
         (testCases tb) (testCases tb').
Proof.
  unfold moveTestCasesToFolder.
  destruct (negb (any_truthy ids) || negb (isArray ids)
            || (length (array_items ids) =? 0)%nat) eqn:Hbad;
    [intros [= <- <-]; discriminate|].
  apply orb_false_elim in Hbad as [Hbad _]. apply orb_false_elim in Hbad as [_ Harr].
  destruct ids as [[| | | | |items|]|]; try discriminate. cbn [array_items].
  assert (Hinto : forall fid,
            moveTestCases_into faults tb items fid = (tb', Returned r) ->
            (forall f, fid = Some f ->
               targetFolderId = Some (JStr f) /\ is_Some (folderTable tb !! f)) ->
            exists idl fid base,
              Some (JArr items) = Some (JArr (JStr <$> idl))
              /\ (forall f, fid = Some f ->
                    targetFolderId = Some (JStr f) /\ is_Some (folderTable tb !! f))
              /\ (forall row, row ∈ testCases tb -> TestCaseRow.folderId row = fid ->
                    TestCaseRow.sequence row <= base)
              /\ r = {| status := 200; body := moved_body (length idl) |}
              /\ folderTable tb' = folderTable tb
              /\ planItems tb' = planItems tb
              /\ (forall i, i ∈ idl ->
                    exists row, row ∈ testCases tb /\ TestCaseRow.id row = i)
              /\ Forall2 (fun row row' =>
                    TestCaseRow.id row' = TestCaseRow.id row
                    /\ (TestCaseRow.id row ∉ idl -> row' = row)
                    /\ (NoDup idl ->
                        forall k, idl !! k = Some (TestCaseRow.id row) ->
                          row' = TestCaseRow.set_folder fid (base + Z.of_nat k + 1) row))
                   (testCases tb) (testCases tb')).
  { intros fid H Hfid.
    destruct (moveTestCases_into_ok _ _ _ _ _ _ H)
      as (idl & -> & Hr & Hft & Hpi & Hex & HF).
    exists idl, fid,
      (number_or (TestCaseRow.sequence <$> lastCase_in_folder tb fid) 0).
    split; [reflexivity|]. split; [exact Hfid|].
    split; [intros row Hrow Hf; now apply lastCase_bounds|].
    repeat split; assumption. }
  destruct targetFolderId as [[| | |f| | |]|]; cbn [any_truthy json_truthy].
  - intros H _. apply (Hinto None H). discriminate.
  - destruct b; [intros [= <- <-]|]; intros H; try discriminate.
    intros _. apply (Hinto None H). discriminate.
  - destruct (negb (n =? 0)); [discriminate|].
    intros H _. apply (Hinto None H). discriminate.
  - destruct (negb (f =? EmptyString)%string).
    + destruct (folderTable tb !! f) as [fo|] eqn:Hfo; [|intros [= <- <-]; discriminate].
      intros H _. apply (Hinto (Some f) H). intros f' [= <-]. split; [reflexivity|eauto].
    + intros H _. apply (Hinto None H). discriminate.
  - discriminate.
  - discriminate.
  - discriminate.
  - intros H _. apply (Hinto None H). discriminate.
Qed.

Lemma moveTestCasesToFolder_appends_witness :
  (moveTestCasesToFolder no_faults sample_tables
     (Some (JArr [JStr "t3"; JStr "t1"])) (Some (JStr "a"))
   = (with_testCases sample_tables
        [sample_case "t1" 1 4 (Some "a"%string);
         sample_case "t2" 2 2 (Some "a"%string);
         sample_case "t3" 3 3 (Some "a"%string)],
      Returned {| status := 200; body := moved_body 2 |})
   /\ status {| status := 200; body := moved_body 2 |} = 200)
  /\ exists idl fid base,
       Some (JArr [JStr "t3"; JStr "t1"]) = Some (JArr (JStr <$> idl))
       /\ (forall row, row ∈ testCases sample_tables ->
             TestCaseRow.folderId row = fid -> TestCaseRow.sequence row <= base).
Proof.
  assert (H : moveTestCasesToFolder no_faults sample_tables
                (Some (JArr [JStr "t3"; JStr "t1"])) (Some (JStr "a"))
              = (with_testCases sample_tables
                   [sample_case "t1" 1 4 (Some "a"%string);
                    sample_case "t2" 2 2 (Some "a"%string);
                    sample_case "t3" 3 3 (Some "a"%string)],
                 Returned {| status := 200; body := moved_body 2 |}))
    by (vm_compute; reflexivity).
  split; [split; [exact H|reflexivity]|].
  destruct (moveTestCasesToFolder_appends _ _ _ _ _ _ H eq_refl)
    as (idl & fid & base & Hids & _ & Hbase & _).
  exists idl, fid, base. split; assumption.
Defined.

(** X15: a move that does not answer 200 changes nothing; and when one of
    the ids given is the id of no stored case, the move does not answer 200:
    none of the other cases is moved either. *)
Theorem moveTestCasesToFolder_all_or_nothing faults tb ids targetFolderId tb' out :
  moveTestCasesToFolder faults tb ids targetFolderId = (tb', out) ->
  ((forall r, out = Returned r -> status r <> 200) -> tb' = tb)
  /\ (forall i, JStr i ∈ array_items ids ->
        (forall row, row ∈ testCases tb -> TestCaseRow.id row <> i) ->
        tb' = tb /\ forall r, out = Returned r -> status r <> 200).
Proof.
  intros H.
  assert (Hcases : tb' = tb
                   \/ exists fid r, moveTestCases_into faults tb (array_items ids) fid
                                    = (tb', Returned r) /\ out = Returned r).
  { revert H. unfold moveTestCasesToFolder.
    destruct (negb (any_truthy ids) || negb (isArray ids)
              || (length (array_items ids) =? 0)%nat); [intros [= <- _]; now left|].
    assert (Hinto : forall fid,
              moveTestCases_into faults tb (array_items ids) fid = (tb', out) ->
              tb' = tb
              \/ exists fid r, moveTestCases_into faults tb (array_items ids) fid
                               = (tb', Returned r) /\ out = Returned r).
    { intros fid H. destruct out as [r|e]; [right; eauto|left].
      unfold moveTestCases_into in H.
      destruct (updateAll _ _ _ _); now injection H as <-. }
    destruct (if any_truthy targetFolderId then targetFolderId else Some JNull)
      as [[| | |f| | |]|]; try (intros [= <- _]; now left); try apply Hinto.
    destruct (folderTable tb !! f); [apply Hinto|intros [= <- _]; now left]. }
  assert (Hok : forall fid r,
            moveTestCases_into faults tb (array_items ids) fid = (tb', Returned r) ->
            status r = 200
            /\ forall i, JStr i ∈ array_items ids ->
                 exists row, row ∈ testCases tb /\ TestCaseRow.id row = i).
  { intros fid r Hr.
    destruct (moveTestCases_into_ok _ _ _ _ _ _ Hr) as (idl & Hidl & -> & _ & _ & Hex & _).
    split; [reflexivity|]. intros i Hi. apply Hex. rewrite Hidl in Hi.
    now apply JStr_elem_of. }
  split.
  - intros Hnot. destruct Hcases as [->|(fid & r & Hr & ->)]; [reflexivity|].
    destruct (Hok _ _ Hr) as [Hst _]. now contradiction (Hnot r eq_refl).
  - intros i Hi Hunknown.
    destruct Hcases as [->|(fid & r & Hr & ->)].
    + split; [reflexivity|]. intros r ->.
      intros Hst. revert H. unfold moveTestCasesToFolder.
      destruct (negb (any_truthy ids) || negb (isArray ids)
                || (length (array_items ids) =? 0)%nat); [intros [= <-]; discriminate|].
      assert (Hinto : forall fid,
                moveTestCases_into faults tb (array_items ids) fid
                <> (tb, Returned r)).
      { intros fid Hr. destruct (moveTestCases_into_ok _ _ _ _ _ _ Hr)
          as (idl & Hidl & _ & _ & _ & Hex & _).
        rewrite Hidl in Hi. apply JStr_elem_of in Hi.
        destruct (Hex i Hi) as (row & Hrow & Hid). exact (Hunknown row Hrow Hid). }
      destruct (if any_truthy targetFolderId then targetFolderId else Some JNull)
        as [[| | |f| | |]|]; try discriminate; try (intros Hr; exact (Hinto _ Hr)).
      destruct (folderTable tb !! f); [intros Hr; exact (Hinto _ Hr)|].
      intros [= <-]. discriminate.
    + exfalso. destruct (Hok _ _ Hr) as [_ Hex].
      destruct (Hex i Hi) as (row & Hrow & Hid). exact (Hunknown row Hrow Hid).
Qed.

Lemma moveTestCasesToFolder_all_or_nothing_witness :
  exists tb' out,
    moveTestCasesToFolder no_faults sample_tables
      (Some (JArr [JStr "t3"; JStr "zz"])) (Some (JStr "a")) = (tb', out)
    /\ tb' = sample_tables
    /\ forall r, out = Returned r -> status r <> 200.
Proof.
  destruct (moveTestCasesToFolder no_faults sample_tables
              (Some (JArr [JStr "t3"; JStr "zz"])) (Some (JStr "a")))
    as [tb' out] eqn:H.
  exists tb', out. split; [reflexivity|].
  destruct (moveTestCasesToFolder_all_or_nothing _ _ _ _ _ _ H) as [_ Hunknown].
  apply (Hunknown "zz"%string).
  - right; left.
  - intros row Hrow.
    apply (Forall_forall (fun row => TestCaseRow.id row <> "zz"%string)
             (testCases sample_tables)); [|exact Hrow].
    repeat constructor; discriminate.
Defined.

(** ** Reordering test cases *)

Lemma StronglySorted_fmap_on {A B} (R1 : relation A) (R2 : relation B)
    (f : A -> B) (l : list A) :
  StronglySorted R1 l ->
  (forall x y, x ∈ l -> y ∈ l -> R1 x y -> R2 (f x) (f y)) ->
  StronglySorted R2 (f <$> l).
Proof.
  induction 1 as [|x l Hs IH Hall]; intros HR; cbn; constructor.
  - apply IH. intros a b Ha Hb. apply HR; now apply elem_of_cons; right.
  - rewrite Forall_fmap. rewrite Forall_forall in Hall |- *.
    intros y Hy. cbn. apply HR.
    + apply elem_of_cons; now left.
    + apply elem_of_cons; now right.
    + now apply Hall.
Qed.

Lemma StronglySorted_of_lookup {A} (R : relation A) (l : list A) :
  (forall i j x y, (i < j)%nat -> l !! i = Some x -> l !! j = Some y -> R x y) ->
  StronglySorted R l.
Proof.
  induction l as [|x l IH]; intros H; constructor.
  - apply IH. intros i j a b Hij Ha Hb. apply (H (S i) (S j)); [lia|exact Ha|exact Hb].
  - apply Forall_forall. intros y Hy.
    apply list_elem_of_lookup in Hy as [j Hj].
    apply (H 0%nat (S j)); [lia|reflexivity|exact Hj].
Qed.

(** Rows whose [sequence] is the place of their id in a list without
    repetition, and whose ids are those of the list, come in that order when
    sorted by [sequence]. *)
Lemma sorted_by_position (idl : list string) (listed : list TestCaseRow.t) :
  NoDup idl -> NoDup (TestCaseRow.id <$> listed) ->
  (forall i, i ∈ TestCaseRow.id <$> listed <-> i ∈ idl) ->
  (forall row k, row ∈ listed -> idl !! k = Some (TestCaseRow.id row) ->
                 TestCaseRow.sequence row = Z.of_nat k + 1) ->
  StronglySorted sequence_asc listed ->
  TestCaseRow.id <$> listed = idl.
Proof.
  intros Hnd Hndl Hsame Hseq Hsorted.
  set (Rel := fun a b : string =>
                forall ka kb, idl !! ka = Some a -> idl !! kb = Some b -> (ka <= kb)%nat).
  apply (StronglySorted_unique_strong Rel).
  - intros x1 x2 H1 H2 H12 H21.
    apply Hsame in H1. apply list_elem_of_lookup in H1 as [ka Ha].
    apply list_elem_of_lookup in H2 as [kb Hb].
    pose proof (H12 _ _ Ha Hb). pose proof (H21 _ _ Hb Ha).
    assert (ka = kb) by lia. subst kb. congruence.
  - apply (StronglySorted_fmap_on sequence_asc); [exact Hsorted|].
    intros x y Hx Hy Hxy ka kb Ha Hb.
    pose proof (Hseq _ _ Hx Ha). pose proof (Hseq _ _ Hy Hb).
    unfold sequence_asc in Hxy. lia.
  - apply StronglySorted_of_lookup. intros i j x y Hij Hx Hy ka kb Ha Hb.
    rewrite (NoDup_lookup _ _ _ _ Hnd Ha Hx), (NoDup_lookup _ _ _ _ Hnd Hb Hy). lia.
  - apply NoDup_Permutation; assumption.
Qed.

Lemma testCase_findMany_spec w rows :
  StronglySorted sequence_asc (testCase_findMany w rows)
  /\ testCase_findMany w rows ≡ₚ filter (matches_where w) rows.
Proof.
  unfold testCase_findMany. split.
  - apply (StronglySorted_merge_sort sequence_asc).
  - apply merge_sort_Permutation.
Qed.

Lemma Forall2_same_ids (P : TestCaseRow.t -> TestCaseRow.t -> Prop) rows rows' :
  Forall2 P rows rows' ->
  (forall r r', P r r' -> TestCaseRow.id r' = TestCaseRow.id r) ->
  TestCaseRow.id <$> rows' = TestCaseRow.id <$> rows.
Proof.
  intros HF Hid. induction HF as [|r r' rows rows' Hr _ IH]; [reflexivity|].
  cbn. f_equal; [now apply Hid|exact IH].
Qed.

Lemma updateAll_keeps {B} (f : TestCaseRow.t -> B) faults stmts :
  (forall j c, (j, c) ∈ stmts -> forall r, f (c r) = f r) ->
  forall k rows rows',
    updateAll faults k stmts rows = inr rows' ->
    Forall2 (fun r r' => f r' = f r) rows rows'.
Proof.
  induction stmts as [|[j c] stmts IH]; intros Hkeep k rows rows' H.
  - injection H as <-. apply Forall2_same_length_lookup_2; [reflexivity|].
    intros n a b Ha Hb. congruence.
  - cbn [updateAll] in H. destruct (faults k); [discriminate|].
    destruct j as [| | |i| | |]; try discriminate.
    destruct (existsb _ rows); [|discriminate].
    apply IH in H.
    2:{ intros j' c' Hin. apply (Hkeep j' c'). apply elem_of_cons. now right. }
    apply Forall2_fmap_l in H. eapply Forall2_impl; [exact H|].
    intros a b Hab. cbv beta in Hab. rewrite Hab.
    destruct (String.eqb _ _); [|reflexivity].
    apply (Hkeep (JStr i) c). apply elem_of_cons. now left.
Qed.

Lemma reorder_ok ToString faults tb orderedIds folderId tb' r :
  reorderTestCases ToString faults tb orderedIds folderId = (tb', Returned r) ->
  status r = 200 ->
  exists idl,
    orderedIds = Some (JArr (JStr <$> idl))
    /\ idl <> []
    /\ folderTable tb' = folderTable tb
    /\ planItems tb' = planItems tb
    /\ (forall i, i ∈ idl -> exists row, row ∈ testCases tb /\ TestCaseRow.id row = i)
    /\ Forall2 (fun row row' =>
                  TestCaseRow.id row' = TestCaseRow.id row
                  /\ TestCaseRow.folderId row' = TestCaseRow.folderId row
                  /\ (TestCaseRow.id row ∉ idl -> row' = row)
                  /\ (NoDup idl ->
                      forall k, idl !! k = Some (TestCaseRow.id row) ->
                        row' = TestCaseRow.set_sequence (Z.of_nat k + 1) row))
         (testCases tb) (testCases tb')
    /\ body r = JObj (success
                        (JArr (testCase_json
                                 <$> testCase_findMany (reorder_where ToString folderId)
                                       (testCases tb')))).
Proof.
  unfold reorderTestCases.
  destruct (negb (any_truthy orderedIds) || negb (isArray orderedIds)
            || (length (array_items orderedIds) =? 0)%nat) eqn:Hbad;
    [intros [= <- <-]; discriminate|].
  apply orb_false_elim in Hbad as [Hbad Hlen].
  apply orb_false_elim in Hbad as [_ Harr].
  destruct orderedIds as [[| | | | |items|]|]; try discriminate.
  cbn [array_items] in *.
  set (stmts := imap (fun index id =>
                        (id, TestCaseRow.set_sequence (Z.of_nat index + 1))) items).
  destruct (updateAll faults 0 stmts (testCases tb)) as [e|rows] eqn:Hup; [discriminate|].
  intros [= <- <-] _.
  assert (Hkeep : forall j c, (j, c) ∈ stmts ->
            forall r0, TestCaseRow.id (c r0) = TestCaseRow.id r0
                       /\ TestCaseRow.folderId (c r0) = TestCaseRow.folderId r0).
  { intros j c Hin r0. unfold stmts in Hin.
    apply list_elem_of_lookup in Hin as [n Hn]. rewrite list_lookup_imap in Hn.
    destruct (items !! n); [|discriminate]. injection Hn as _ <-. split; reflexivity. }
  assert (Hfolder : Forall2 (fun row row' =>
                       TestCaseRow.folderId row' = TestCaseRow.folderId row)
                      (testCases tb) rows).
  { apply (updateAll_keeps TestCaseRow.folderId faults stmts) with (k := 0%nat);
      [|exact Hup].
    intros j c Hin r0. now apply (Hkeep j c Hin). }
  apply updateAll_inr in Hup as [(idl & Hidl & Hexists) HF].
  2:{ intros j c Hin r0. now apply (Hkeep j c Hin). }
  unfold stmts in Hidl. rewrite imap_fst_pair in Hidl. subst items.
  exists idl. split; [reflexivity|].
  split; [intros ->; discriminate|].
  split; [reflexivity|]. split; [reflexivity|]. split; [exact Hexists|].
  cbn [testCases with_testCases body]. split; [|reflexivity].
  apply Forall2_same_length_lookup_2; [eapply Forall2_length; exact HF|].
  intros n row row' Hrow Hrow'.
  destruct (Forall2_lookup_lr _ _ _ _ _ _ HF Hrow Hrow') as (H1 & H2 & H3).
  pose proof (Forall2_lookup_lr _ _ _ _ _ _ Hfolder Hrow Hrow') as H4.
  unfold stmts in H2, H3. rewrite imap_fst_pair in H2, H3.
  split; [exact H1|]. split; [exact H4|]. split.
  - intros Hnot. apply H2. now rewrite JStr_elem_of.
  - intros Hnd k Hk. apply (H3 (JStr_NoDup _ Hnd) k).
    rewrite list_lookup_imap, list_lookup_fmap, Hk. reflexivity.
Qed.

(** X16: when a reordering answers 200 for ids given without repetition,
    stored cases have distinct ids and the cases the answer covers (those of
    the folder asked for, or all) are exactly the cases named, then the
    answer lists the cases in the order of the ids given, the [k]-th (from
    0) with [sequence] [k + 1]; cases not named, folders and plan items are
    as before. *)
Theorem reorderTestCases_order ToString faults tb orderedIds folderId tb' r :
  reorderTestCases ToString faults tb orderedIds folderId = (tb', Returned r) ->
  status r = 200 ->
  exists idl listed,
    orderedIds = Some (JArr (JStr <$> idl))
    /\ body r = JObj (success (JArr (testCase_json <$> listed)))
    /\ folderTable tb' = folderTable tb
    /\ planItems tb' = planItems tb
    /\ Forall2 (fun row row' =>
                  TestCaseRow.id row' = TestCaseRow.id row
                  /\ (TestCaseRow.id row ∉ idl -> row' = row))
         (testCases tb) (testCases tb')
    /\ (NoDup idl -> NoDup (TestCaseRow.id <$> testCases tb) ->
        (forall row, row ∈ testCases tb ->
           matches_where (reorder_where ToString folderId) row
           <-> TestCaseRow.id row ∈ idl) ->
        TestCaseRow.id <$> listed = idl
        /\ TestCaseRow.sequence <$> listed
           = (fun k => Z.of_nat k + 1) <$> seq 0 (length idl)).
Proof.
  intros H Hst.
  destruct (reorder_ok _ _ _ _ _ _ _ H Hst)
    as (idl & Hids & _ & Hft & Hpi & Hex & HF & Hbody).
  set (w := reorder_where ToString folderId) in *.
  exists idl, (testCase_findMany w (testCases tb')).
  split; [exact Hids|]. split; [exact Hbody|]. split; [exact Hft|].
  split; [exact Hpi|]. split.
  { eapply Forall2_impl; [exact HF|]. intros a b (H1 & _ & H2 & _). now split. }
  intros Hnd Hndrows Hscope.
  destruct (testCase_findMany_spec w (testCases tb')) as [Hsorted Hperm].
  set (listed := testCase_findMany w (testCases tb')) in *.
  assert (Hids' : TestCaseRow.id <$> testCases tb' = TestCaseRow.id <$> testCases tb).
  { apply (Forall2_same_ids _ _ _ HF). now intros a b (H1 & _). }
  assert (Hrow' : forall row', row' ∈ testCases tb' ->
            exists row, row ∈ testCases tb
                        /\ TestCaseRow.id row' = TestCaseRow.id row
                        /\ TestCaseRow.folderId row' = TestCaseRow.folderId row
                        /\ forall k, idl !! k = Some (TestCaseRow.id row) ->
                             row' = TestCaseRow.set_sequence (Z.of_nat k + 1) row).
  { intros row' Hin. apply list_elem_of_lookup in Hin as [n Hn].
    destruct (Forall2_lookup_r _ _ _ _ _ HF Hn) as (row & Hrow & H1 & H2 & _ & H4).
    exists row. split; [apply list_elem_of_lookup; eauto|].
    split; [exact H1|]. split; [exact H2|]. now apply H4. }
  assert (Hlisted : forall row', row' ∈ listed <->
            row' ∈ testCases tb' /\ TestCaseRow.id row' ∈ idl).
  { intros row'. rewrite Hperm, list_elem_of_filter.
    split.
    - intros [Hm Hin]. split; [exact Hin|].
      destruct (Hrow' _ Hin) as (row & Hrow & H1 & H2 & _).
      rewrite H1. apply Hscope; [exact Hrow|].
      destruct w; cbn in *; [congruence|exact I].
    - intros [Hin Hi]. split; [|exact Hin].
      destruct (Hrow' _ Hin) as (row & Hrow & H1 & H2 & _).
      rewrite H1 in Hi. apply Hscope in Hi; [|exact Hrow].
      destruct w; cbn in *; [congruence|exact I]. }
  assert (Hndl : NoDup (TestCaseRow.id <$> listed)).
  { rewrite Hperm.
    apply NoDup_fmap_2_strong.
    - intros a b Ha Hb Hab.
      apply list_elem_of_filter in Ha as [_ Ha]. apply list_elem_of_filter in Hb as [_ Hb].
      apply list_elem_of_lookup in Ha as [na Hna]. apply list_elem_of_lookup in Hb as [nb Hnb].
      assert (na = nb).
      { apply (NoDup_lookup (TestCaseRow.id <$> testCases tb') na nb (TestCaseRow.id a)).
        - now rewrite Hids'.
        - now rewrite list_lookup_fmap, Hna.
        - now rewrite list_lookup_fmap, Hnb, Hab. }
      congruence.
    - apply NoDup_filter. apply (NoDup_fmap_1 TestCaseRow.id). now rewrite Hids'. }
  assert (Hidl : TestCaseRow.id <$> listed = idl).
  { apply sorted_by_position; [exact Hnd|exact Hndl| | |exact Hsorted].
    - intros i. rewrite list_elem_of_fmap. split.
      + intros (row' & -> & Hin). now apply Hlisted in Hin as [_ Hi].
      + intros Hi. destruct (Hex i Hi) as (row & Hrow & Hid).
        apply list_elem_of_lookup in Hrow as [n Hn].
        destruct (Forall2_lookup_l _ _ _ _ _ HF Hn) as (row' & Hn' & H1 & _).
        exists row'. split; [congruence|]. apply Hlisted.
        split; [apply list_elem_of_lookup; eauto|congruence].
    - intros row' k Hin Hk. apply Hlisted in Hin as [Hin _].
      destruct (Hrow' _ Hin) as (row & _ & H1 & _ & H4).
      rewrite H1 in Hk. rewrite (H4 k Hk). reflexivity. }
  split; [exact Hidl|].
  apply list_eq. intros k.
  rewrite !list_lookup_fmap.
  destruct (listed !! k) as [row'|] eqn:Hk.
  - assert (Hik : idl !! k = Some (TestCaseRow.id row'))
      by (rewrite <- Hidl, list_lookup_fmap, Hk; reflexivity).
    rewrite (lookup_seq_lt 0 (length idl) k)
      by (apply lookup_lt_is_Some; eauto).
    cbn. f_equal.
    assert (Hin : row' ∈ testCases tb')
      by (apply (Hlisted row'); apply list_elem_of_lookup; eauto).
    destruct (Hrow' _ Hin) as (row & _ & H1 & _ & H4).
    rewrite H1 in Hik. rewrite (H4 k Hik). reflexivity.
  - rewrite lookup_seq_ge; [reflexivity|].
    apply lookup_ge_None in Hk. rewrite <- Hidl, length_fmap. exact Hk.
Qed.

Lemma reorderTestCases_order_witness :
  exists tb' r listed,
    reorderTestCases sample_ToString no_faults sample_tables
      (Some (JArr [JStr "t2"; JStr "t1"])) (Some (JStr "a")) = (tb', Returned r)
    /\ status r = 200
    /\ body r = JObj (success (JArr (testCase_json <$> listed)))
    /\ TestCaseRow.id <$> listed = ["t2"; "t1"]%string
    /\ TestCaseRow.sequence <$> listed = [1; 2].
Proof.
  destruct (reorderTestCases sample_ToString no_faults sample_tables
              (Some (JArr [JStr "t2"; JStr "t1"])) (Some (JStr "a")))
    as [tb' out] eqn:H.
  assert (Hout : exists r, out = Returned r /\ status r = 200).
  { pose proof H as H'. vm_compute in H'. injection H' as _ <-.
    eexists. split; reflexivity. }
  destruct Hout as (r & -> & Hst).
  destruct (reorderTestCases_order _ _ _ _ _ _ _ H Hst)
    as (idl & listed & Hids & Hbody & _ & _ & _ & Hord).
  injection Hids as Hids.
  destruct idl as [|a [|b [|c idl]]]; try discriminate.
  injection Hids as <- <-.
  exists tb', r, listed. split; [reflexivity|]. split; [exact Hst|].
  split; [exact Hbody|]. apply Hord.
  - compute_done.
  - compute_done.
  - apply Forall_forall. compute_done.
Defined.

(** ** Deleting test cases *)

Lemma string_ids_Some l wanted : string_ids l = Some wanted -> l = JStr <$> wanted.
Proof.
  intros H. symmetry. apply (mapM_fmap_Some_inv _ JStr _ _ H).
  intros [| | |s| | |] y; try discriminate. now intros [= ->].
Qed.

Lemma find_id_stored id rows :
  find (fun r => String.eqb (TestCaseRow.id r) id) rows = None <->
  forall r, r ∈ rows -> TestCaseRow.id r <> id.
Proof.
  induction rows as [|r rows IH]; cbn.
  - split; [intros _ r Hr; inversion Hr|reflexivity].
  - destruct (String.eqb_spec (TestCaseRow.id r) id) as [He|Hne].
    + split; [discriminate|]. intros H. exfalso. apply (H r); [left|exact He].
    + rewrite IH. split.
      * intros H r' Hr'. apply elem_of_cons in Hr' as [->|Hr']; [exact Hne|now apply H].
      * intros H r' Hr'. apply H. now right.
Qed.

Lemma removed_ids_bound (wanted : list string) (rows : list TestCaseRow.t) :
  NoDup (TestCaseRow.id <$> rows) ->
  length rows
  = (length (filter (fun r => TestCaseRow.id r ∉ wanted) rows)
     + length (filter (fun r => TestCaseRow.id r ∈ wanted) rows))%nat
  /\ (length (filter (fun r => TestCaseRow.id r ∈ wanted) rows) <= length wanted)%nat
  /\ (length (filter (fun r => TestCaseRow.id r ∈ wanted) rows) = length wanted
      <-> NoDup wanted
          /\ forall i, i ∈ wanted -> exists r, r ∈ rows /\ TestCaseRow.id r = i).
Proof.
  intros Hnd.
  set (gone := filter (fun r => TestCaseRow.id r ∈ wanted) rows).
  assert (Hlen : length rows
                 = (length (filter (fun r => TestCaseRow.id r ∉ wanted) rows)
                    + length gone)%nat).
  { rewrite <- (filter_app_complement (fun r => TestCaseRow.id r ∈ wanted) rows) at 1.
    rewrite length_app. fold gone. lia. }
  assert (Hndg : NoDup (TestCaseRow.id <$> gone)).
  { apply NoDup_fmap_2_strong.
    - intros a b Ha Hb Hab.
      apply list_elem_of_filter in Ha as [_ Ha]. apply list_elem_of_filter in Hb as [_ Hb].
      apply list_elem_of_lookup in Ha as [na Hna]. apply list_elem_of_lookup in Hb as [nb Hnb].
      assert (na = nb).
      { apply (NoDup_lookup (TestCaseRow.id <$> rows) na nb (TestCaseRow.id a)).
        - exact Hnd.
        - now rewrite list_lookup_fmap, Hna.
        - now rewrite list_lookup_fmap, Hnb, Hab. }
      congruence.
    - apply NoDup_filter. now apply (NoDup_fmap_1 TestCaseRow.id). }
  assert (Hsub : TestCaseRow.id <$> gone ⊆+ wanted).
  { apply NoDup_submseteq; [exact Hndg|].
    intros i Hi. apply list_elem_of_fmap in Hi as (r & -> & Hr).
    now apply list_elem_of_filter in Hr as [Hr _]. }
  split; [exact Hlen|]. split.
  { apply submseteq_length in Hsub. now rewrite length_fmap in Hsub. }
  split.
  - intros Heq.
    assert (Hperm : TestCaseRow.id <$> gone ≡ₚ wanted)
      by (apply submseteq_length_Permutation; [exact Hsub|rewrite length_fmap; lia]).
    split; [now rewrite <- Hperm|].
    intros i Hi. rewrite <- Hperm in Hi.
    apply list_elem_of_fmap in Hi as (r & -> & Hr).
    apply list_elem_of_filter in Hr as [_ Hr]. eauto.
  - intros [Hndw Hall].
    assert (Hperm : TestCaseRow.id <$> gone ≡ₚ wanted).
    { apply NoDup_Permutation; [exact Hndg|exact Hndw|].
      intros i. split.
      - intros Hi. eapply elem_of_submseteq; [exact Hi|exact Hsub].
      - intros Hi. destruct (Hall i Hi) as (r & Hr & <-).
        apply list_elem_of_fmap_2. apply list_elem_of_filter. now split. }
    rewrite <- Hperm, length_fmap. reflexivity.
Qed.

(** X17: deleting test cases, one or many, keeps the plan items consistent:
    if every plan item was an item of a stored test case before the call,
    so it is afterwards, whatever the call comes to. *)
Theorem delete_keeps_references tb :
  items_refer tb ->
  (forall fault id tb' out,
     deleteTestCase fault tb id = (tb', out) -> items_refer tb')
  /\ (forall fault ids tb' out,
        bulkDeleteTestCases fault tb ids = (tb', out) -> items_refer tb').
Proof.
  intros Href. split.
  - intros fault id tb' out. unfold deleteTestCase.
    destruct (find _ (testCases tb)); [|now intros [= <- _]].
    destruct fault; [now intros [= <- _]|]. intros [= <- _].
    intros p Hp. cbn [planItems testCases] in *.
    apply list_elem_of_filter in Hp as [Hne Hp].
    destruct (Href p Hp) as (r & Hr & Hid). exists r. split; [|exact Hid].
    apply list_elem_of_filter. split; [congruence|exact Hr].
  - intros fault ids tb' out. unfold bulkDeleteTestCases.
    destruct (negb (any_truthy ids) || negb (isArray ids)
              || (length (array_items ids) =? 0)%nat); [now intros [= <- _]|].
    destruct (string_ids (array_items ids)) as [wanted|]; [|now intros [= <- _]].
    destruct fault; [now intros [= <- _]|]. intros [= <- _].
    intros p Hp. cbn [planItems testCases] in *.
    apply list_elem_of_filter in Hp as [Hne Hp].
    destruct (Href p Hp) as (r & Hr & Hid). exists r. split; [|exact Hid].
    apply list_elem_of_filter. split; [congruence|exact Hr].
Qed.

Lemma delete_keeps_references_witness :
  items_refer sample_tables
  /\ items_refer (fst (deleteTestCase None sample_tables "t1"))
  /\ items_refer (fst (bulkDeleteTestCases None sample_tables
                         (Some (JArr [JStr "t1"; JStr "t3"])))).
Proof.
  assert (Href : items_refer sample_tables).
  { intros p Hp. apply (Forall_forall (fun p => exists r, r ∈ testCases sample_tables
                          /\ TestCaseRow.id r = PlanItemRow.testCaseId p)
                          (planItems sample_tables)); [|exact Hp].
    constructor; [|constructor; [|constructor]].
    - exists (sample_case "t1" 1 1 (Some "a"%string)). split; [left|reflexivity].
    - exists (sample_case "t3" 3 1 (Some "b"%string)).
      split; [right; right; left|reflexivity]. }
  split; [exact Href|].
  destruct (delete_keeps_references sample_tables Href) as [Hone Hmany].
  split.
  - apply (Hone None "t1"%string _ (snd (deleteTestCase None sample_tables "t1"))).
    now destruct (deleteTestCase None sample_tables "t1").
  - apply (Hmany None (Some (JArr [JStr "t1"; JStr "t3"])) _
             (snd (bulkDeleteTestCases None sample_tables
                     (Some (JArr [JStr "t1"; JStr "t3"]))))).
    now destruct (bulkDeleteTestCases None sample_tables
                    (Some (JArr [JStr "t1"; JStr "t3"]))).
Defined.

(** X18: when a bulk deletion answers 200, the ids given are strings, no
    stored case has one of them any more, the other cases are as they were,
    and the count reported is the number of ids given.  With distinct ids in
    the store that count is at least the number of cases removed, and it is
    that number exactly when the ids given are without repetition and each
    is the id of a stored case. *)
Theorem bulkDeleteTestCases_count fault tb ids tb' r :
  bulkDeleteTestCases fault tb ids = (tb', Returned r) ->
  status r = 200 ->
  exists wanted,
    ids = Some (JArr (JStr <$> wanted))
    /\ r = {| status := 200; body := deleted_body (length wanted) |}
    /\ folderTable tb' = folderTable tb
    /\ (forall row, row ∈ testCases tb' <->
          row ∈ testCases tb /\ TestCaseRow.id row ∉ wanted)
    /\ (forall p, p ∈ planItems tb' <->
          p ∈ planItems tb /\ PlanItemRow.testCaseId p ∉ wanted)
    /\ (NoDup (TestCaseRow.id <$> testCases tb) ->
        (length (testCases tb) <= length (testCases tb') + length wanted)%nat
        /\ (length (testCases tb) = (length (testCases tb') + length wanted)%nat
            <-> NoDup wanted
                /\ forall i, i ∈ wanted ->
                     exists row, row ∈ testCases tb /\ TestCaseRow.id row = i)).
Proof.
  unfold bulkDeleteTestCases.
  destruct (negb (any_truthy ids) || negb (isArray ids)
            || (length (array_items ids) =? 0)%nat) eqn:Hbad;
    [intros [= <- <-]; discriminate|].
  apply orb_false_elim in Hbad as [Hbad _]. apply orb_false_elim in Hbad as [_ Harr].
  destruct ids as [[| | | | |items|]|]; try discriminate. cbn [array_items].
  destruct (string_ids items) as [wanted|] eqn:Hw; [|discriminate].
  apply string_ids_Some in Hw. subst items.
  destruct fault; [discriminate|]. intros [= <- <-] _.
  exists wanted. split; [reflexivity|]. rewrite length_fmap.
  split; [reflexivity|]. split; [reflexivity|]. cbn [testCases planItems].
  split; [intros row; rewrite list_elem_of_filter; tauto|].
  split; [intros p; rewrite list_elem_of_filter; tauto|].
  intros Hnd. destruct (removed_ids_bound wanted _ Hnd) as (Hlen & Hle & Hiff).
  split; [lia|]. rewrite <- Hiff. lia.
Qed.

Lemma bulkDeleteTestCases_count_witness :
  exists tb' r (wanted : list string),
    bulkDeleteTestCases None sample_tables
      (Some (JArr [JStr "t1"; JStr "t1"; JStr "zz"])) = (tb', Returned r)
    /\ status r = 200
    /\ r = {| status := 200; body := deleted_body (length wanted) |}
    /\ length wanted = 3%nat
    /\ length (testCases sample_tables) = (length (testCases tb') + 1)%nat.
Proof.
  destruct (bulkDeleteTestCases None sample_tables
              (Some (JArr [JStr "t1"; JStr "t1"; JStr "zz"])))
    as [tb' out] eqn:H.
  assert (Hout : exists r, out = Returned r /\ status r = 200
                           /\ length (testCases tb') = 2%nat).
  { pose proof H as H'. vm_compute in H'. injection H' as <- <-.
    eexists. repeat split; reflexivity. }
  destruct Hout as (r & -> & Hst & Hlen).
  destruct (bulkDeleteTestCases_count _ _ _ _ _ H Hst) as (wanted & Hids & Hr & _).
  injection Hids as Hids.
  exists tb', r, wanted. split; [reflexivity|]. split; [exact Hst|].
  split; [exact Hr|]. split.
  - rewrite <- (length_fmap JStr), <- Hids. reflexivity.
  - rewrite Hlen. reflexivity.
Defined.

(** X19: deleting one test case answers 404, and changes nothing, exactly
    when no stored case has the id.  When it answers 200, no case and no
    plan item of that id is left, the others and the folders are as they
    were, and with distinct ids in the store exactly one case was removed. *)
Theorem deleteTestCase_removes_one fault tb id tb' r :
  deleteTestCase fault tb id = (tb', Returned r) ->
  (status r = 404 /\ tb' = tb
   /\ forall row, row ∈ testCases tb -> TestCaseRow.id row <> id)
  \/ (status r = 200 /\ fault = None
      /\ (exists row, row ∈ testCases tb /\ TestCaseRow.id row = id)
      /\ folderTable tb' = folderTable tb
      /\ (forall row, row ∈ testCases tb' <->
            row ∈ testCases tb /\ TestCaseRow.id row <> id)
      /\ (forall p, p ∈ planItems tb' <->
            p ∈ planItems tb /\ PlanItemRow.testCaseId p <> id)
      /\ (NoDup (TestCaseRow.id <$> testCases tb) ->
          length (testCases tb) = S (length (testCases tb')))).
Proof.
  unfold deleteTestCase.
  destruct (find _ (testCases tb)) as [found|] eqn:Hfind.
  - destruct fault; [discriminate|]. intros [= <- <-]. right.
    split; [reflexivity|]. split; [reflexivity|].
    apply find_some in Hfind as [Hin Heq]. apply String.eqb_eq in Heq.
    apply list_elem_of_In in Hin.
    split; [eauto|]. split; [reflexivity|]. cbn [testCases planItems].
    split; [intros row; rewrite list_elem_of_filter; tauto|].
    split; [intros p; rewrite list_elem_of_filter; tauto|].
    intros Hnd. destruct (removed_ids_bound [id] _ Hnd) as (Hlen & _ & Hiff).
    assert (Hone : length (filter (fun r => TestCaseRow.id r ∈ [id]) (testCases tb))
                   = 1%nat).
    { apply Hiff. split; [apply NoDup_singleton|].
      intros i Hi. apply list_elem_of_singleton in Hi as ->. eauto. }
    rewrite Hlen, Hone.
    replace (filter (fun r => TestCaseRow.id r ∉ [id]) (testCases tb))
      with (filter (fun r => TestCaseRow.id r <> id) (testCases tb)); [lia|].
    apply list_filter_iff. intros x. rewrite list_elem_of_singleton. reflexivity.
  - intros [= <- <-]. left. split; [reflexivity|]. split; [reflexivity|].
    now apply find_id_stored.
Qed.

Lemma deleteTestCase_removes_one_witness :
  exists tb' r,
    deleteTestCase None sample_tables "t3" = (tb', Returned r)
    /\ status r = 200
    /\ length (testCases sample_tables) = S (length (testCases tb')).
Proof.
  destruct (deleteTestCase None sample_tables "t3") as [tb' out] eqn:H.
  assert (Hout : exists r, out = Returned r /\ status r = 200).
  { pose proof H as H'. vm_compute in H'. injection H' as _ <-.
    eexists. split; reflexivity. }
  destruct Hout as (r & -> & Hst).
  exists tb', r. split; [reflexivity|]. split; [exact Hst|].
  destruct (deleteTestCase_removes_one _ _ _ _ _ H)
    as [(H404 & _)|(_ & _ & _ & _ & _ & _ & Hlen)].
  - rewrite Hst in H404. discriminate.
  - apply Hlen. compute_done.
Defined.

(** ** Descendant folders *)

Lemma folder_children_spec ft p c : c ∈ folder_children ft p <-> child_of ft p c.
Proof.
  unfold folder_children, child_of. rewrite list_elem_of_fmap. split.
  - intros ([c' f] & -> & Hin). apply elem_of_map_to_list in Hin.
    apply map_lookup_filter_Some in Hin as [Hc Hp]. eauto.
  - intros (f & Hc & Hp). exists (c, f). split; [reflexivity|].
    apply elem_of_map_to_list. apply map_lookup_filter_Some. now split.
Qed.

Lemma getChildFolderIds_fold fuel ft (rank : string -> nat) :
  (forall p c, child_of ft p c -> (rank c < rank p)%nat) ->
  (forall p acc, (rank p < fuel)%nat ->
     exists l, getChildFolderIds fuel ft p acc = Some (acc ++ l)
               /\ forall x, x ∈ l <-> exists c, child_of ft p c /\ rtc (child_of ft) c x).
Proof.
  intros Hrank. induction fuel as [|fuel IH]; intros p acc Hp; [lia|].
  cbn [getChildFolderIds].
  assert (Hcs : forall cs acc,
            (forall c, c ∈ cs -> child_of ft p c) ->
            exists l,
              fold_left
                (fun running child =>
                   match running with
                   | Some ids => getChildFolderIds fuel ft child (ids ++ [child])
                   | None => None
                   end) cs (Some acc) = Some (acc ++ l)
              /\ forall x, x ∈ l <-> exists c, c ∈ cs /\ rtc (child_of ft) c x).
  { clear acc. induction cs as [|c cs IHcs]; intros acc Hall.
    - exists []. rewrite app_nil_r. split; [reflexivity|].
      intros x. split; [intros Hx; inversion Hx|intros (c & Hc & _); inversion Hc].
    - cbn [fold_left].
      assert (Hc : child_of ft p c) by (apply Hall; left).
      destruct (IH c (acc ++ [c])) as (l1 & -> & Hl1);
        [pose proof (Hrank _ _ Hc); lia|].
      destruct (IHcs ((acc ++ [c]) ++ l1)) as (l2 & -> & Hl2);
        [intros c' Hc'; apply Hall; now right|].
      exists (c :: l1 ++ l2). split.
      + f_equal. rewrite <- !app_assoc. reflexivity.
      + intros x. rewrite elem_of_cons, elem_of_app, Hl1, Hl2. split.
        * intros [->|[(c' & Hc' & Hx)|(c' & Hc' & Hx)]].
          -- exists c. split; [left|reflexivity].
          -- exists c. split; [left|]. eapply rtc_l; eassumption.
          -- exists c'. split; [now right|exact Hx].
        * intros (c' & Hc' & Hx). apply elem_of_cons in Hc' as [->|Hc'].
          -- apply rtc_inv in Hx as [->|(c' & Hc' & Hx)]; [now left|].
             right. left. eauto.
          -- right. right. eauto. }
  destruct (Hcs (folder_children ft p) acc) as (l & -> & Hl);
    [intros c Hc; now apply folder_children_spec|].
  exists l. split; [reflexivity|].
  intros x. rewrite Hl. split; intros (c & Hc & Hx); exists c;
    (split; [now apply folder_children_spec|exact Hx]).
Qed.

Lemma getChildFolderIds_fuel_mono ft fuel :
  forall p acc r, getChildFolderIds fuel ft p acc = Some r ->
  forall fuel', (fuel <= fuel')%nat -> getChildFolderIds fuel' ft p acc = Some r.
Proof.
  induction fuel as [|fuel IH]; intros p acc r H fuel' Hle; [discriminate|].
  destruct fuel' as [|fuel']; [lia|].
  cbn [getChildFolderIds] in *.
  revert H. generalize (Some acc). generalize (folder_children ft p).
  induction l as [|c cs IHcs]; intros running H; [exact H|].
  cbn [fold_left] in *.
  destruct running as [ids|].
  - destruct (getChildFolderIds fuel ft c (ids ++ [c])) as [ids'|] eqn:Hc.
    + rewrite (IH _ _ _ Hc fuel') by lia. now apply IHcs.
    + exfalso. revert H. clear. induction cs as [|? ? IHn]; [discriminate|exact IHn].
  - exfalso. revert H. clear. induction cs as [|? ? IHn]; [discriminate|exact IHn].
Qed.

Lemma getAllDescendantFolderIds_all ft (rank : string -> nat) folderId :
  (forall p c, child_of ft p c -> (rank c < rank p)%nat) ->
  exists ids,
    (forall fuel, (rank folderId < fuel)%nat ->
       getAllDescendantFolderIds fuel ft folderId = Some ids)
    /\ forall x, x ∈ ids <-> rtc (child_of ft) folderId x.
Proof.
  intros Hrank.
  destruct (getChildFolderIds_fold (S (rank folderId)) ft rank Hrank folderId
              [folderId]) as (l & Hrun & Hl); [lia|].
  exists ([folderId] ++ l). split.
  - intros fuel Hfuel. unfold getAllDescendantFolderIds.
    apply (getChildFolderIds_fuel_mono ft (S (rank folderId))); [exact Hrun|lia].
  - intros x. cbn [app]. rewrite elem_of_cons, Hl. split.
    + intros [->|(c & Hc & Hx)]; [reflexivity|]. eapply rtc_l; eassumption.
    + intros Hx. apply rtc_inv in Hx as [->|(c & Hc & Hx)]; [now left|]. right. eauto.
Qed.

(** X20: when the folders are ranked so that every stored folder ranks
    below its parent (no folder is its own ancestor), the collection of a
    folder's descendants returns once the fuel exceeds the folder's rank:
    the list starts with the folder itself and holds exactly the folders
    reached from it through parent links, the folder included. *)
Theorem getAllDescendantFolderIds_descendants ft (rank : string -> nat) folderId fuel :
  (forall p c, child_of ft p c -> (rank c < rank p)%nat) ->
  (rank folderId < fuel)%nat ->
  exists l,
    getAllDescendantFolderIds fuel ft folderId = Some (folderId :: l)
    /\ forall x, x ∈ folderId :: l <-> rtc (child_of ft) folderId x.
Proof.
  intros Hrank Hfuel. unfold getAllDescendantFolderIds.
  destruct (getChildFolderIds_fold fuel ft rank Hrank folderId [folderId] Hfuel)
    as (l & -> & Hl).
  exists l. split; [reflexivity|].
  intros x. rewrite elem_of_cons, Hl. split.
  - intros [->|(c & Hc & Hx)]; [reflexivity|]. eapply rtc_l; eassumption.
  - intros Hx. apply rtc_inv in Hx as [->|(c & Hc & Hx)]; [now left|]. right. eauto.
Qed.

Lemma sample_folders_ranked p c :
  child_of (folderTable sample_tables) p c ->
  (sample_folder_rank c < sample_folder_rank p)%nat.
Proof.
  intros (f & Hc & Hp). cbn [folderTable sample_tables] in Hc.
  apply lookup_insert_Some in Hc as [[<- <-]|[_ Hc]]; [discriminate|].
  apply lookup_singleton_Some in Hc as [<- <-].
  injection Hp as <-. cbn. lia.
Qed.

Lemma getAllDescendantFolderIds_descendants_witness :
  (sample_folder_rank "a" < 2)%nat
  /\ exists l,
       getAllDescendantFolderIds 2 (folderTable sample_tables) "a" = Some ("a"%string :: l)
       /\ forall x, x ∈ "a"%string :: l
                    <-> rtc (child_of (folderTable sample_tables)) "a"%string x.
Proof.
  assert (Hfuel : (sample_folder_rank "a" < 2)%nat) by (cbn; lia).
  split; [exact Hfuel|].
  exact (getAllDescendantFolderIds_descendants (folderTable sample_tables)
           sample_folder_rank "a" 2 sample_folders_ranked Hfuel).
Defined.

Lemma fold_children_None fuel ft cs c :
  c ∈ cs ->
  (forall acc, getChildFolderIds fuel ft c acc = None) ->
  forall running,
    fold_left
      (fun running child =>
         match running with
         | Some ids => getChildFolderIds fuel ft child (ids ++ [child])
         | None => None
         end) cs running = None.
Proof.
  intros Hc Hnone.
  assert (Hstays : forall cs',
            fold_left
              (fun running child =>
                 match running with
                 | Some ids => getChildFolderIds fuel ft child (ids ++ [child])
                 | None => None
                 end) cs' None = None)
    by (induction cs' as [|? ? IH]; [reflexivity|exact IH]).
  induction cs as [|c' cs IH]; intros running; [inversion Hc|].
  cbn [fold_left]. apply elem_of_cons in Hc as [<-|Hc].
  - destruct running; [rewrite Hnone|]; apply Hstays.
  - now apply IH.
Qed.

Lemma getChildFolderIds_cycle ft fuel :
  forall p, tc (child_of ft) p p ->
    forall acc, getChildFolderIds fuel ft p acc = None.
Proof.
  induction fuel as [|fuel IH]; intros p Hcyc acc; [reflexivity|].
  cbn [getChildFolderIds].
  assert (Hchild : exists c, child_of ft p c /\ tc (child_of ft) c c).
  { inversion Hcyc as [? ? Hpc|? c ? Hpc Hcp]; subst.
    - exists p. split; [exact Hpc|exact Hcyc].
    - exists c. split; [exact Hpc|]. eapply tc_r; [exact Hcp|exact Hpc]. }
  destruct Hchild as (c & Hpc & Hc).
  apply (fold_children_None fuel ft _ c).
  - now apply folder_children_spec.
  - intros acc'. now apply IH.
Qed.

(** X21: when a folder reached from the given one through parent links is
    its own ancestor, the collection of descendants does not return,
    whatever the fuel. *)
Theorem getAllDescendantFolderIds_cycle ft folderId p :
  rtc (child_of ft) folderId p ->
  tc (child_of ft) p p ->
  forall fuel, getAllDescendantFolderIds fuel ft folderId = None.
Proof.
  intros Hreach Hcyc fuel. unfold getAllDescendantFolderIds.
  generalize [folderId]. revert fuel.
  induction Hreach as [p|a b p Hab Hreach IH]; intros fuel acc.
  - now apply getChildFolderIds_cycle.
  - destruct fuel as [|fuel]; [reflexivity|]. cbn [getChildFolderIds].
    apply (fold_children_None fuel ft _ b).
    + now apply folder_children_spec.
    + intros acc'. now apply IH.
Qed.

Lemma getAllDescendantFolderIds_cycle_witness :
  rtc (child_of cyclic_folders) "x"%string "x"%string
  /\ tc (child_of cyclic_folders) "x"%string "x"%string
  /\ forall fuel, getAllDescendantFolderIds fuel cyclic_folders "x" = None.
Proof.
  assert (Hxy : child_of cyclic_folders "x"%string "y"%string)
    by (eexists; split; reflexivity).
  assert (Hyx : child_of cyclic_folders "y"%string "x"%string)
    by (eexists; split; reflexivity).
  assert (Hcyc : tc (child_of cyclic_folders) "x"%string "x"%string)
    by (eapply tc_l; [exact Hxy|apply tc_once; exact Hyx]).
  split; [reflexivity|]. split; [exact Hcyc|].
  exact (getAllDescendantFolderIds_cycle cyclic_folders "x" "x" (rtc_refl _ _) Hcyc).
Defined.

(** ** Listing test cases *)

Lemma getFolderPath_eventually (db : Db) (depth : string -> nat) :
  (forall i f p, folders db !! i = Some f -> Folder.parentId f = Some p ->
     truthy_id (Some p) = true -> is_Some (folders db !! p) ->
     (depth p < depth i)%nat) ->
  forall i, exists fuel path,
    Breadcrumb db i path
    /\ forall fuel', (fuel <= fuel')%nat -> getFolderPath fuel' db i = Some path.
Proof.
  intros Hdepth i. destruct (truthy_id i) eqn:E.
  - destruct i as [i|]; [|discriminate].
    destruct (ranked_Breadcrumb db depth Hdepth (S (depth i)) i) as [path Hp]; [lia|].
    exists (S (length path)), path. split; [exact Hp|].
    intros fuel' Hle. unfold getFolderPath. rewrite E. simpl negb. cbv iota.
    apply (folderWalk_fuel_mono (S (length path))); [|exact Hle].
    rewrite (Breadcrumb_folderWalk db (Some i) path Hp []). now rewrite app_nil_r.
  - exists 0%nat, []. split; [now apply Breadcrumb_null|].
    intros fuel' _. now apply getFolderPath_falsy.
Qed.

Lemma paths_eventually (tb : Tables) (depth : string -> nat) :
  (forall i f p, folderTable tb !! i = Some f -> Folder.parentId f = Some p ->
     truthy_id (Some p) = true -> is_Some (folderTable tb !! p) ->
     (depth p < depth i)%nat) ->
  forall l : list TestCaseRow.t, exists fuel paths,
    Forall2 (fun row path =>
               Breadcrumb (folders_only tb) (TestCaseRow.folderId row) path) l paths
    /\ forall fuel', (fuel <= fuel')%nat ->
         mapM (fun tc =>
                 match getFolderPath fuel' (folders_only tb)
                         (TestCaseRow.folderId tc) with
                 | Some folderPath => Some (testCaseWithPath tb tc folderPath)
                 | None => None
                 end) l
         = Some (zip_with (testCaseWithPath tb) l paths).
Proof.
  intros Hdepth. induction l as [|row l (fuel & paths & HF & Hrun)].
  - exists 0%nat, []. split; [constructor|reflexivity].
  - destruct (getFolderPath_eventually (folders_only tb) depth Hdepth
                (TestCaseRow.folderId row)) as (fuel1 & path & Hp & Hrun1).
    exists (Nat.max fuel1 fuel), (path :: paths). split; [now constructor|].
    intros fuel' Hle. cbn [mapM zip_with].
    rewrite Hrun1 by lia. cbn. rewrite Hrun by lia. reflexivity.
Qed.

(** X22: when no stored folder is its own ancestor (the folders have a
    depth that grows from parent to child and a height that falls), listing
    the test cases returns with status 200.  The answer holds the cases of
    the given folder and of the folders under it (all cases when no folder
    is given), in ascending [sequence], each with its folder and the
    breadcrumb of that folder. *)
Theorem getTestCases_subtree tb (depth height : string -> nat) folderId :
  (forall i f p, folderTable tb !! i = Some f -> Folder.parentId f = Some p ->
     truthy_id (Some p) = true -> is_Some (folderTable tb !! p) ->
     (depth p < depth i)%nat) ->
  (forall p c, child_of (folderTable tb) p c -> (height c < height p)%nat) ->
  exists fuel listed paths,
    getTestCases fuel tb folderId
    = Some {| status := 200;
              body := JObj (success (JArr (zip_with (testCaseWithPath tb) listed paths))) |}
    /\ StronglySorted sequence_asc listed
    /\ Forall2 (fun row path =>
                  Breadcrumb (folders_only tb) (TestCaseRow.folderId row) path)
         listed paths
    /\ exists w,
         listed ≡ₚ filter (in_folders w) (testCases tb)
         /\ (truthy_id folderId = false -> w = None)
         /\ (forall f, folderId = Some f -> truthy_id folderId = true ->
               exists ids, w = Some ids
                 /\ forall g, g ∈ ids <-> rtc (child_of (folderTable tb)) f g).
Proof.
  intros Hdepth Hheight.
  assert (Hw : exists fuel0 w,
            (forall fuel', (fuel0 <= fuel')%nat ->
               match folderId with
               | Some f =>
                   if truthy_id folderId
                   then option_map Some
                          (getAllDescendantFolderIds fuel' (folderTable tb) f)
                   else Some None
               | None => Some None
               end = Some w)
            /\ (truthy_id folderId = false -> w = None)
            /\ (forall f, folderId = Some f -> truthy_id folderId = true ->
                  exists ids, w = Some ids
                    /\ forall g, g ∈ ids <-> rtc (child_of (folderTable tb)) f g)).
  { destruct folderId as [f|].
    - destruct (truthy_id (Some f)) eqn:E.
      + destruct (getAllDescendantFolderIds_all (folderTable tb) height f Hheight)
          as (ids & Hrun & Hids).
        exists (S (height f)), (Some ids). split; [|split].
        * intros fuel' Hle. rewrite Hrun by lia. reflexivity.
        * discriminate.
        * intros f' [= <-] _. eauto.
      + exists 0%nat, None. split; [reflexivity|]. split; [reflexivity|]. discriminate.
    - exists 0%nat, None. split; [reflexivity|]. split; [reflexivity|]. discriminate. }
  destruct Hw as (fuel0 & w & Hrun0 & Hnone & Hsome).
  set (listed := merge_sort sequence_asc (filter (in_folders w) (testCases tb))).
  destruct (paths_eventually tb depth Hdepth listed) as (fuel1 & paths & HF & Hrun1).
  exists (Nat.max fuel0 fuel1), listed, paths. split; [|split; [|split]].
  - unfold getTestCases. rewrite Hrun0 by lia. cbv zeta. fold listed.
    rewrite Hrun1 by lia. reflexivity.
  - apply (StronglySorted_merge_sort sequence_asc).
  - exact HF.
  - exists w. split; [apply merge_sort_Permutation|]. split; assumption.
Qed.

Lemma sample_folders_deep i f p :
  folderTable sample_tables !! i = Some f -> Folder.parentId f = Some p ->
  truthy_id (Some p) = true -> is_Some (folderTable sample_tables !! p) ->
  (sample_folder_depth p < sample_folder_depth i)%nat.
Proof.
  intros Hi Hp _ _. cbn [folderTable sample_tables] in Hi.
  apply lookup_insert_Some in Hi as [[<- <-]|[_ Hi]]; [discriminate|].
  apply lookup_singleton_Some in Hi as [<- <-].
  injection Hp as <-. cbn. lia.
Qed.

Lemma getTestCases_subtree_witness :
  exists fuel listed paths,
    getTestCases fuel sample_tables (Some "a"%string)
    = Some {| status := 200;
              body := JObj (success
                              (JArr (zip_with (testCaseWithPath sample_tables)
                                       listed paths))) |}
    /\ StronglySorted sequence_asc listed
    /\ Forall2 (fun row path =>
                  Breadcrumb (folders_only sample_tables)
                    (TestCaseRow.folderId row) path) listed paths.
Proof.
  destruct (getTestCases_subtree sample_tables sample_folder_depth
              sample_folder_rank (Some "a"%string)
              sample_folders_deep sample_folders_ranked)
    as (fuel & listed & paths & Hrun & Hsorted & HF & _).
  exists fuel, listed, paths. split; [exact Hrun|]. split; assumption.
Defined.

(** ** Creating a test case *)

Lemma new_case_fresh store attempt tb input fid :
  let row := new_case store attempt tb input fid in
  TestCaseRow.folderId row = fid
  /\ (forall r, r ∈ testCases tb -> TestCaseRow.caseNumber r < TestCaseRow.caseNumber row)
  /\ (forall r, r ∈ testCases tb -> TestCaseRow.folderId r = fid ->
        TestCaseRow.sequence r < TestCaseRow.sequence row).
Proof.
  cbn. split; [reflexivity|]. split.
  - intros r Hr. unfold getNextCaseNumber.
    destruct (head_of_sorted caseNumber_desc _ _ Hr) as (h & -> & Hh).
    rewrite number_or_zero. cbn. unfold caseNumber_desc in Hh. lia.
  - intros r Hr Hf. pose proof (lastCase_bounds tb fid r Hr Hf). lia.
Qed.

Lemma createCaseAttempts_S remaining attempt store tb input lastErr :
  createCaseAttempts (S remaining) attempt store tb input lastErr
  = match folder_or_null (in_folderId input) with
    | None => (tb, Threw validationError)
    | Some folderId =>
        match create_fault store attempt with
        | None =>
            (with_testCases tb
               (testCases tb ++ [new_case store attempt tb input folderId]),
             Returned {| status := 201;
                         body := JObj (success
                                         (testCase_json
                                            (new_case store attempt tb input
                                               folderId))) |})
        | Some err =>
            if is_P2002 err
            then createCaseAttempts remaining (S attempt) store tb input (Some err)
            else (tb, Threw err)
        end
    end.
Proof. reflexivity. Qed.

Lemma createCaseAttempts_spec store tb input fid tb' out :
  folder_or_null (in_folderId input) = Some fid ->
  forall n attempt lastErr,
    createCaseAttempts (S n) attempt store tb input lastErr = (tb', out) ->
    exists k, (attempt <= k <= attempt + n)%nat
      /\ (forall j, (attempt <= j < k)%nat ->
            exists e, create_fault store j = Some e /\ is_P2002 e = true)
      /\ ((create_fault store k = None
           /\ tb' = with_testCases tb (testCases tb ++ [new_case store k tb input fid])
           /\ out = Returned
                      {| status := 201;
                         body := JObj (success
                                         (testCase_json
                                            (new_case store k tb input fid))) |})
          \/ (exists e, create_fault store k = Some e /\ tb' = tb /\ out = Threw e
                        /\ (is_P2002 e = false \/ k = (attempt + n)%nat))).
Proof.
  intros Hfid. induction n as [|n IH]; intros attempt lastErr H;
    rewrite createCaseAttempts_S, Hfid in H;
    destruct (create_fault store attempt) as [e|] eqn:Hfault.
  - exists attempt. split; [lia|]. split; [intros j Hj; lia|]. right.
    exists e. split; [exact Hfault|].
    destruct (is_P2002 e) eqn:He; cbn in H; injection H as <- <-;
      (split; [reflexivity|]); (split; [reflexivity|]); [right; lia|now left].
  - exists attempt. split; [lia|]. split; [intros j Hj; lia|]. left.
    injection H as <- <-. now repeat split.
  - destruct (is_P2002 e) eqn:He.
    + apply IH in H as (k & Hk & Hbefore & Hat).
      exists k. split; [lia|]. split.
      * intros j Hj. destruct (decide (j = attempt)) as [->|Hne]; [eauto|].
        apply Hbefore. lia.
      * destruct Hat as [Hat|(e' & H1 & H2 & H3 & H4)]; [now left|].
        right. exists e'. repeat split; try assumption.
        destruct H4 as [H4|H4]; [now left|right; lia].
    + exists attempt. split; [lia|]. split; [intros j Hj; lia|]. right.
      exists e. injection H as <- <-. repeat split; try assumption. now left.
  - exists attempt. split; [lia|]. split; [intros j Hj; lia|]. left.
    injection H as <- <-. now repeat split.
Qed.

(** X23: creating a test case answers 400, and changes nothing, exactly when
    the title is falsy.  Otherwise a [folderId] that is neither falsy nor a
    string is an exception, and else at most five inserts are attempted:
    the [k]-th is reached only after [k - 1] rejections with code P2002.
    If it is accepted the answer is 201 and exactly one case has been
    appended, in the folder asked for, with a case number above every stored
    case number and a [sequence] above every [sequence] of that folder.  If
    it is rejected for another reason, or it is the fifth, nothing has
    changed and the error of the store is thrown on. *)
Theorem createTestCase_outcomes store tb input tb' out :
  createTestCase store tb input = (tb', out) ->
  (any_truthy (in_title input) = false /\ tb' = tb
   /\ out = Returned (failure 400 "제목은 필수입니다."))
  \/ (any_truthy (in_title input) = true
      /\ folder_or_null (in_folderId input) = None
      /\ tb' = tb /\ out = Threw validationError)
  \/ (any_truthy (in_title input) = true
      /\ exists fid k,
           folder_or_null (in_folderId input) = Some fid
           /\ (1 <= k <= 5)%nat
           /\ (forall j, (1 <= j < k)%nat ->
                 exists e, create_fault store j = Some e /\ is_P2002 e = true)
           /\ ((create_fault store k = None
                /\ exists row,
                     tb' = with_testCases tb (testCases tb ++ [row])
                     /\ out = Returned
                                {| status := 201;
                                   body := JObj (success (testCase_json row)) |}
                     /\ TestCaseRow.folderId row = fid
                     /\ (forall r, r ∈ testCases tb ->
                           TestCaseRow.caseNumber r < TestCaseRow.caseNumber row)
                     /\ (forall r, r ∈ testCases tb -> TestCaseRow.folderId r = fid ->
                           TestCaseRow.sequence r < TestCaseRow.sequence row))
               \/ (exists e, create_fault store k = Some e /\ tb' = tb
                             /\ out = Threw e
                             /\ (is_P2002 e = false \/ k = 5%nat)))).
Proof.
  unfold createTestCase.
  destruct (any_truthy (in_title input)) eqn:Ht; cbn [negb];
    [|intros [= <- <-]; left; now repeat split].
  intros H. right.
  destruct (folder_or_null (in_folderId input)) as [fid|] eqn:Hfid.
  - right. split; [reflexivity|].
    destruct (createCaseAttempts_spec _ _ _ _ _ _ Hfid _ _ _ H)
      as (k & Hk & Hbefore & Hat).
    exists fid, k. split; [reflexivity|]. split; [lia|]. split; [exact Hbefore|].
    destruct Hat as [(Hnone & -> & ->)|(e & H1 & H2 & H3 & H4)].
    + left. split; [exact Hnone|].
      exists (new_case store k tb input fid).
      split; [reflexivity|]. split; [reflexivity|]. apply new_case_fresh.
    + right. exists e. repeat split; assumption.
  - left. rewrite createCaseAttempts_S, Hfid in H.
    injection H as <- <-. now repeat split.
Qed.

Lemma createTestCase_outcomes_witness :
  exists tb' row,
    createTestCase sample_store sample_tables sample_input
    = (tb', Returned {| status := 201; body := JObj (success (testCase_json row)) |})
    /\ tb' = with_testCases sample_tables (testCases sample_tables ++ [row])
    /\ TestCaseRow.folderId row = Some "a"%string
    /\ forall r, r ∈ testCases sample_tables ->
         TestCaseRow.caseNumber r < TestCaseRow.caseNumber row.
Proof.
  destruct (createTestCase sample_store sample_tables sample_input)
    as [tb' out] eqn:H.
  assert (Hout : exists r, out = Returned r /\ status r = 201).
  { pose proof H as H'. vm_compute in H'. injection H' as _ <-.
    eexists. split; reflexivity. }
  destruct Hout as (r & -> & Hst).
  destruct (createTestCase_outcomes _ _ _ _ _ H)
    as [(Ht & _)|[(_ & _ & _ & Hthrew)|(_ & fid & k & Hfid & _ & _ & Hat)]].
  - discriminate.
  - discriminate.
  - destruct Hat as [(_ & row & Htb & Hr & Hf & Hcn & _)|(e & _ & _ & Hthrew & _)];
      [|discriminate].
    injection Hfid as <-.
    exists tb', row. split; [now rewrite Hr|]. split; [exact Htb|].
    split; [exact Hf|exact Hcn].
Defined.

(** ** Places of test cases stay distinct *)

Lemma move_result faults tb ids targetFolderId tb' out :
  moveTestCasesToFolder faults tb ids targetFolderId = (tb', out) ->
  tb' = tb
  \/ exists fid r, moveTestCases_into faults tb (array_items ids) fid
                   = (tb', Returned r).
Proof.
  unfold moveTestCasesToFolder.
  destruct (negb (any_truthy ids) || negb (isArray ids)
            || (length (array_items ids) =? 0)%nat); [intros [= <- _]; now left|].
  assert (Hinto : forall fid,
            moveTestCases_into faults tb (array_items ids) fid = (tb', out) ->
            tb' = tb
            \/ exists fid r, moveTestCases_into faults tb (array_items ids) fid
                             = (tb', Returned r)).
  { intros fid H. destruct out as [r|e]; [right; eauto|left].
    unfold moveTestCases_into in H.
    destruct (updateAll _ _ _ _); now injection H as <-. }
  destruct (if any_truthy targetFolderId then targetFolderId else Some JNull)
    as [[| | |f| | |]|]; try (intros [= <- _]; now left); try apply Hinto.
  destruct (folderTable tb !! f); [apply Hinto|intros [= <- _]; now left].
Qed.

(** X29: a move keeps the places of the test cases distinct.  When the
    stored cases have distinct ids, no two of them share folder and
    [sequence], and the ids given are without repetition, then after the
    call, whatever it comes to, still no two cases share folder and
    [sequence]. *)
Theorem moveTestCasesToFolder_keeps_places_distinct faults tb ids targetFolderId
    tb' out :
  NoDup (TestCaseRow.id <$> testCases tb) ->
  NoDup (folder_sequences tb) ->
  NoDup (array_items ids) ->
  moveTestCasesToFolder faults tb ids targetFolderId = (tb', out) ->
  NoDup (folder_sequences tb').
Proof.
  intros Hids Hplaces Hnd H.
  destruct (move_result _ _ _ _ _ _ H) as [->|(fid & r & Hinto)]; [exact Hplaces|].
  destruct (moveTestCases_into_ok _ _ _ _ _ _ Hinto)
    as (idl & Hidl & _ & _ & _ & _ & HF).
  rewrite Hidl in Hnd. apply NoDup_fmap_1 in Hnd.
  set (base := number_or (TestCaseRow.sequence <$> lastCase_in_folder tb fid) 0) in *.
  assert (Hbase : forall row, row ∈ testCases tb -> TestCaseRow.folderId row = fid ->
                    TestCaseRow.sequence row <= base)
    by (intros row Hrow Hf; now apply lastCase_bounds).
  unfold folder_sequences in *. apply NoDup_alt. intros i j x Hi Hj.
  rewrite list_lookup_fmap in Hi, Hj.
  destruct (testCases tb' !! i) as [ri'|] eqn:Eri'; [|discriminate].
  destruct (testCases tb' !! j) as [rj'|] eqn:Erj'; [|discriminate].
  cbn in Hi, Hj. injection Hi as Hi. injection Hj as Hj.
  destruct (Forall2_lookup_r _ _ _ _ _ HF Eri') as (ri & Eri & _ & Hsame_i & Hmoved_i).
  destruct (Forall2_lookup_r _ _ _ _ _ HF Erj') as (rj & Erj & _ & Hsame_j & Hmoved_j).
  assert (Hin_i : ri ∈ testCases tb) by (apply list_elem_of_lookup; eauto).
  assert (Hin_j : rj ∈ testCases tb) by (apply list_elem_of_lookup; eauto).
  destruct (decide (TestCaseRow.id ri ∈ idl)) as [Mi|Ui];
    destruct (decide (TestCaseRow.id rj ∈ idl)) as [Mj|Uj].
  - apply list_elem_of_lookup in Mi as [ki Hki]. apply list_elem_of_lookup in Mj as [kj Hkj].
    rewrite (Hmoved_i Hnd ki Hki) in Hi. rewrite (Hmoved_j Hnd kj Hkj) in Hj.
    cbn in Hi, Hj. rewrite <- Hj in Hi. injection Hi as Hk.
    assert (ki = kj) by lia. subst kj.
    assert (Hid : TestCaseRow.id ri = TestCaseRow.id rj) by congruence.
    apply (proj1 (NoDup_alt _) Hids i j (TestCaseRow.id ri)).
    + now rewrite list_lookup_fmap, Eri.
    + now rewrite list_lookup_fmap, Erj, Hid.
  - exfalso. apply list_elem_of_lookup in Mi as [ki Hki].
    rewrite (Hmoved_i Hnd ki Hki) in Hi. rewrite (Hsame_j Uj) in Hj.
    cbn in Hi. rewrite <- Hi in Hj. injection Hj as Hf Hs.
    pose proof (Hbase rj Hin_j Hf). lia.
  - exfalso. apply list_elem_of_lookup in Mj as [kj Hkj].
    rewrite (Hmoved_j Hnd kj Hkj) in Hj. rewrite (Hsame_i Ui) in Hi.
    cbn in Hj. rewrite <- Hj in Hi. injection Hi as Hf Hs.
    pose proof (Hbase ri Hin_i Hf). lia.
  - rewrite (Hsame_i Ui) in Hi. rewrite (Hsame_j Uj) in Hj.
    apply (proj1 (NoDup_alt _) Hplaces i j x).
    + now rewrite list_lookup_fmap, Eri, <- Hi.
    + now rewrite list_lookup_fmap, Erj, <- Hj.
Qed.

Lemma moveTestCasesToFolder_keeps_places_distinct_witness :
  NoDup (folder_sequences sample_tables)
  /\ NoDup (folder_sequences
              (fst (moveTestCasesToFolder no_faults sample_tables
                      (Some (JArr [JStr "t3"; JStr "t1"])) (Some (JStr "a"))))).
Proof.
  assert (Hplaces : NoDup (folder_sequences sample_tables)) by compute_done.
  split; [exact Hplaces|].
  apply (moveTestCasesToFolder_keeps_places_distinct no_faults sample_tables
           (Some (JArr [JStr "t3"; JStr "t1"])) (Some (JStr "a")) _
           (snd (moveTestCasesToFolder no_faults sample_tables
                   (Some (JArr [JStr "t3"; JStr "t1"])) (Some (JStr "a"))))).
  - compute_done.
  - exact Hplaces.
  - cbn [array_items]. apply (JStr_NoDup ["t3"; "t1"]%string). compute_done.
  - now destruct (moveTestCasesToFolder no_faults sample_tables
                    (Some (JArr [JStr "t3"; JStr "t1"])) (Some (JStr "a"))).
Defined.

(** X30: creating a test case keeps the case numbers distinct and the
    places distinct: when no two stored cases share a case number, and no
    two share folder and [sequence], the same holds after the call,
    whatever it comes to. *)
Theorem createTestCase_keeps_numbers_distinct store tb input tb' out :
  NoDup (TestCaseRow.caseNumber <$> testCases tb) ->
  NoDup (folder_sequences tb) ->
  createTestCase store tb input = (tb', out) ->
  NoDup (TestCaseRow.caseNumber <$> testCases tb')
  /\ NoDup (folder_sequences tb').
Proof.
  intros Hnum Hplaces. unfold createTestCase.
  destruct (negb (any_truthy (in_title input))); [intros [= <- _]; now split|].
  destruct (folder_or_null (in_folderId input)) as [fid|] eqn:Hfid.
  2:{ rewrite createCaseAttempts_S, Hfid. intros [= <- _]. now split. }
  intros H.
  destruct (createCaseAttempts_spec _ _ _ _ _ _ Hfid _ _ _ H)
    as (k & _ & _ & [(_ & -> & _)|(e & _ & -> & _)]); [|now split].
  destruct (new_case_fresh store k tb input fid) as (Hf & Hcn & Hseq).
  remember (new_case store k tb input fid) as row eqn:Erow. clear Erow.
  unfold folder_sequences in *. cbn [testCases with_testCases].
  rewrite !fmap_app. split.
  - apply NoDup_app. split; [exact Hnum|].
    split; [|apply (NoDup_singleton (TestCaseRow.caseNumber row))].
    intros x Hx Hx'. apply list_elem_of_fmap in Hx' as (r0 & -> & Hr0).
    apply list_elem_of_singleton in Hr0 as ->.
    apply list_elem_of_fmap in Hx as (r & Hr & Hin).
    pose proof (Hcn r Hin). lia.
  - apply NoDup_app. split; [exact Hplaces|].
    split; [|apply (NoDup_singleton (TestCaseRow.folderId row, TestCaseRow.sequence row))].
    intros x Hx Hx'. apply list_elem_of_fmap in Hx' as (r0 & -> & Hr0).
    apply list_elem_of_singleton in Hr0 as ->.
    apply list_elem_of_fmap in Hx as (r & Hr & Hin).
    injection Hr as Hrf Hrs. rewrite Hf in Hrf.
    pose proof (Hseq r Hin (eq_sym Hrf)). lia.
Qed.

Lemma createTestCase_keeps_numbers_distinct_witness :
  NoDup (TestCaseRow.caseNumber <$> testCases sample_tables)
  /\ NoDup (TestCaseRow.caseNumber
              <$> testCases (fst (createTestCase sample_store sample_tables
                                    sample_input)))
  /\ NoDup (folder_sequences
              (fst (createTestCase sample_store sample_tables sample_input))).
Proof.
  assert (Hnum : NoDup (TestCaseRow.caseNumber <$> testCases sample_tables))
    by compute_done.
  split; [exact Hnum|].
  apply (createTestCase_keeps_numbers_distinct sample_store sample_tables
           sample_input _
           (snd (createTestCase sample_store sample_tables sample_input)) Hnum).
  - compute_done.
  - now destruct (createTestCase sample_store sample_tables sample_input).
Defined.

(** * frontend/src/utils/export.ts *)

(** ** Escaping for HTML *)

Lemma all_ascii_spec (p : ascii -> bool) :
  forallb p all_ascii = true -> forall c, p c = true.
Proof.
  intros H c. rewrite forallb_forall in H. apply H.
  unfold all_ascii. apply in_map_iff. exists (nat_of_ascii c).
  split; [apply ascii_nat_embedding|]. apply in_seq.
  pose proof (nat_ascii_bounded c). lia.
Qed.

Lemma escapeHtml_app s1 s2 : escapeHtml (s1 ++ s2) = escapeHtml s1 ++ escapeHtml s2.
Proof. unfold escapeHtml, replace_all. now rewrite !flat_map_app. Qed.

Lemma escapeHtml_by_character s : escapeHtml s = flat_map escaped s.
Proof.
  assert (H : forall c, bool_decide (escapeHtml [c] = escaped c) = true).
  { apply all_ascii_spec. vm_compute. reflexivity. }
  induction s as [|c s IH]; [reflexivity|].
  change (c :: s) with ([c] ++ s). rewrite escapeHtml_app, IH.
  cbn [flat_map app]. f_equal. exact (bool_decide_eq_true_1 _ (H c)).
Qed.

Lemma escaped_shape c :
  (escaped c = [c] /\ is_markup c = false /\ c <> "&"%char)
  \/ (exists k rest, escaped c = "&"%char :: k :: rest
                     /\ Forall (fun x => is_markup x = false) (k :: rest)
                     /\ forall c', (exists rest', escaped c' = "&"%char :: k :: rest')
                                   -> c' = c).
Proof.
  unfold escaped.
  destruct (Ascii.eqb_spec c "&") as [->|Hamp].
  { right. exists "a"%char, (list_ascii_of_string "mp;"). split; [reflexivity|].
    split; [now repeat constructor|]. intros c' [rest' H]. revert H.
    destruct (Ascii.eqb_spec c' "&"); [easy|].
    destruct (Ascii.eqb_spec c' "<"); [discriminate|].
    destruct (Ascii.eqb_spec c' ">"); [discriminate|].
    destruct (Ascii.eqb_spec c' dquote); [discriminate|].
    destruct (Ascii.eqb_spec c' "'"); [discriminate|]. intros H; discriminate H. }
  destruct (Ascii.eqb_spec c "<") as [->|Hlt].
  { right. exists "l"%char, (list_ascii_of_string "t;"). split; [reflexivity|].
    split; [now repeat constructor|]. intros c' [rest' H]. revert H.
    destruct (Ascii.eqb_spec c' "&"); [discriminate|].
    destruct (Ascii.eqb_spec c' "<"); [easy|].
    destruct (Ascii.eqb_spec c' ">"); [discriminate|].
    destruct (Ascii.eqb_spec c' dquote); [discriminate|].
    destruct (Ascii.eqb_spec c' "'"); [discriminate|]. intros H; discriminate H. }
  destruct (Ascii.eqb_spec c ">") as [->|Hgt].
  { right. exists "g"%char, (list_ascii_of_string "t;"). split; [reflexivity|].
    split; [now repeat constructor|]. intros c' [rest' H]. revert H.
    destruct (Ascii.eqb_spec c' "&"); [discriminate|].
    destruct (Ascii.eqb_spec c' "<"); [discriminate|].
    destruct (Ascii.eqb_spec c' ">"); [easy|].
    destruct (Ascii.eqb_spec c' dquote); [discriminate|].
    destruct (Ascii.eqb_spec c' "'"); [discriminate|]. intros H; discriminate H. }
  destruct (Ascii.eqb_spec c dquote) as [->|Hdq].
  { right. exists "q"%char, (list_ascii_of_string "uot;"). split; [reflexivity|].
    split; [now repeat constructor|]. intros c' [rest' H]. revert H.
    destruct (Ascii.eqb_spec c' "&"); [discriminate|].
    destruct (Ascii.eqb_spec c' "<"); [discriminate|].
    destruct (Ascii.eqb_spec c' ">"); [discriminate|].
    destruct (Ascii.eqb_spec c' dquote); [easy|].
    destruct (Ascii.eqb_spec c' "'"); [discriminate|]. intros H; discriminate H. }
  destruct (Ascii.eqb_spec c "'") as [->|Hap].
  { right. exists "#"%char, (list_ascii_of_string "39;"). split; [reflexivity|].
    split; [now repeat constructor|]. intros c' [rest' H]. revert H.
    destruct (Ascii.eqb_spec c' "&"); [discriminate|].
    destruct (Ascii.eqb_spec c' "<"); [discriminate|].
    destruct (Ascii.eqb_spec c' ">"); [discriminate|].
    destruct (Ascii.eqb_spec c' dquote); [discriminate|].
    destruct (Ascii.eqb_spec c' "'"); [easy|]. intros H; discriminate H. }
  left. split; [reflexivity|]. split; [|exact Hamp].
  unfold is_markup.
  destruct (Ascii.eqb_spec c "<"); [easy|]. destruct (Ascii.eqb_spec c ">"); [easy|].
  destruct (Ascii.eqb_spec c dquote); [easy|]. destruct (Ascii.eqb_spec c "'"); easy.
Qed.

Lemma escaped_head_inj c1 c2 rest1 rest2 :
  escaped c1 ++ rest1 = escaped c2 ++ rest2 -> c1 = c2.
Proof.
  destruct (escaped_shape c1) as [(E1 & _ & N1)|(k1 & r1 & E1 & _ & U1)];
    destruct (escaped_shape c2) as [(E2 & _ & N2)|(k2 & r2 & E2 & _ & U2)];
    rewrite E1, E2; cbn [app]; intros H.
  - now injection H.
  - injection H as H _. contradiction.
  - injection H as H _. symmetry in H. contradiction.
  - injection H as Hk _. subst k2. symmetry. apply U1. eauto.
Qed.

Lemma flat_map_escaped_inj s1 :
  forall s2, flat_map escaped s1 = flat_map escaped s2 -> s1 = s2.
Proof.
  assert (Hne : forall c, escaped c <> []).
  { intros c. destruct (escaped_shape c) as [(E & _)|(k & r & E & _)]; now rewrite E. }
  induction s1 as [|c1 s1 IH]; intros [|c2 s2] H; cbn [flat_map] in H.
  - reflexivity.
  - exfalso. symmetry in H. apply app_eq_nil in H as [H _]. now apply Hne in H.
  - exfalso. apply app_eq_nil in H as [H _]. now apply Hne in H.
  - pose proof (escaped_head_inj _ _ _ _ H) as ->.
    apply app_inv_head in H. f_equal. now apply IH.
Qed.

(** X24: the text [escapeHtml] returns holds none of the characters [<],
    [>], the double quote and the apostrophe; it is the input itself exactly
    when the input holds none of these and no [&]; and the input can be read
    back from it: two strings escaped to the same text are the same string. *)
Theorem escapeHtml_safe_and_injective (s : list ascii) :
  Forall (fun c => is_markup c = false) (escapeHtml s)
  /\ (escapeHtml s = s <->
      Forall (fun c => is_markup c = false /\ c <> "&"%char) s)
  /\ forall s', escapeHtml s' = escapeHtml s -> s' = s.
Proof.
  rewrite escapeHtml_by_character. split; [|split].
  - induction s as [|c s IH]; [constructor|]. cbn [flat_map].
    apply Forall_app. split; [|exact IH].
    destruct (escaped_shape c) as [(E & Hm & _)|(k & r & E & Hm & _)]; rewrite E.
    + now repeat constructor.
    + constructor; [reflexivity|exact Hm].
  - split.
    + induction s as [|c s IH]; [constructor|]. cbn [flat_map]. intros H.
      destruct (escaped_shape c) as [(E & Hm & Hamp)|(k & r & E & Hm & _)];
        rewrite E in H; cbn [app] in H.
      * injection H as H. constructor; [now split|now apply IH].
      * exfalso. injection H as Hc Hrest. subst c.
        apply (f_equal (@length ascii)) in Hrest.
        cbn [length] in Hrest. rewrite length_app in Hrest.
        assert (Hlen : (length s <= length (flat_map escaped s))%nat).
        { clear. induction s as [|c s IH]; [reflexivity|]. cbn [flat_map length].
          rewrite length_app.
          destruct (escaped_shape c) as [(E & _)|(k & r & E & _)]; rewrite E;
            cbn [length]; lia. }
        cbn [length] in Hrest. lia.
    + induction 1 as [|c s [Hm Hamp] _ IH]; [reflexivity|]. cbn [flat_map].
      rewrite IH.
      destruct (escaped_shape c) as [(E & _)|(k & r & E & _ & U)]; [now rewrite E|].
      exfalso. revert E. unfold escaped, is_markup in *.
      destruct (Ascii.eqb_spec c "&"); [easy|].
      destruct (Ascii.eqb c "<"); [discriminate|].
      destruct (Ascii.eqb c ">"); [discriminate|].
      destruct (Ascii.eqb c dquote); [discriminate|].
      destruct (Ascii.eqb c "'"); [discriminate|].
      intros H; discriminate H.
  - intros s' H. rewrite escapeHtml_by_character in H.
    now apply flat_map_escaped_inj.
Qed.

(** ** The CSV text *)

Lemma read_after_field rows cells cur tail :
  after_field tail ->
  read_csv_from FieldStart rows cells cur tail = read_csv_from Unquoted rows cells cur tail
  /\ read_csv_from QuoteSeen rows cells cur tail
     = read_csv_from Unquoted rows cells cur tail.
Proof.
  intros [->|(t & [->| ->])]; split; reflexivity.
Qed.

Lemma read_plain rows cells s :
  includes "," s = false -> includes newline s = false ->
  forall cur tail,
    read_csv_from Unquoted rows cells cur (s ++ tail)
    = read_csv_from Unquoted rows cells (cur ++ s) tail.
Proof.
  induction s as [|c s IH]; intros Hc Hn cur tail; [now rewrite app_nil_r|].
  cbn [includes existsb] in Hc, Hn.
  apply orb_false_elim in Hc as [Hc Hcs]. apply orb_false_elim in Hn as [Hn Hns].
  cbn [app read_csv_from]. rewrite Hc, Hn.
  rewrite (IH Hcs Hns). now rewrite <- app_assoc.
Qed.

Lemma read_quoted rows cells s :
  forall cur tail,
    read_csv_from Quoted rows cells cur
      (replace_all dquote (String dquote (String dquote EmptyString)) s
         ++ dquote :: tail)
    = read_csv_from QuoteSeen rows cells (cur ++ s) tail.
Proof.
  induction s as [|c s IH]; intros cur tail.
  - cbn. now rewrite app_nil_r.
  - unfold replace_all. cbn [flat_map]. fold (replace_all dquote
      (String dquote (String dquote EmptyString)) s).
    destruct (Ascii.eqb_spec c dquote) as [->|Hne].
    + cbn [list_ascii_of_string app read_csv_from].
      rewrite Ascii.eqb_refl. rewrite IH. now rewrite <- app_assoc.
    + cbn [app read_csv_from].
      destruct (Ascii.eqb_spec c dquote); [contradiction|].
      rewrite IH. now rewrite <- app_assoc.
Qed.

Lemma read_cell rows cells cell tail :
  after_field tail ->
  read_csv_from FieldStart rows cells [] (csv_cell cell ++ tail)
  = read_csv_from Unquoted rows cells cell tail.
Proof.
  intros Htail. unfold csv_cell.
  destruct (includes "," cell || includes newline cell || includes dquote cell) eqn:E.
  - cbn [app read_csv_from]. rewrite Ascii.eqb_refl.
    rewrite <- app_assoc. cbn [app]. rewrite read_quoted. cbn [app].
    now apply read_after_field.
  - apply orb_false_elim in E as [E Hq]. apply orb_false_elim in E as [Hc Hn].
    destruct cell as [|c cell]; [now apply read_after_field|].
    cbn [includes existsb] in Hc, Hn, Hq.
    apply orb_false_elim in Hc as [Hc Hcs]. apply orb_false_elim in Hn as [Hn Hns].
    apply orb_false_elim in Hq as [Hq _].
    cbn [app read_csv_from]. rewrite Hq, Hc, Hn.
    now rewrite (read_plain rows cells cell Hcs Hns).
Qed.

Lemma read_row rows row :
  row <> [] ->
  forall cells tail, (tail = [] \/ exists t, tail = newline :: t) ->
    read_csv_from FieldStart rows cells [] (join [","%char] (map csv_cell row) ++ tail)
    = match tail with
      | [] => rows ++ [cells ++ row]
      | _ :: t => read_csv_from FieldStart (rows ++ [cells ++ row]) [] [] t
      end.
Proof.
  induction row as [|cell row IH]; [easy|]. intros _ cells tail Htail.
  destruct row as [|cell' row].
  - cbn [map join]. rewrite read_cell.
    + destruct Htail as [->|(t & ->)]; reflexivity.
    + destruct Htail as [->|(t & ->)]; [now left|right; eauto].
  - change (join [","%char] (map csv_cell (cell :: cell' :: row)))
      with (csv_cell cell ++ [","%char] ++ join [","%char] (map csv_cell (cell' :: row))).
    rewrite <- !app_assoc. rewrite read_cell by (right; eexists; left; reflexivity).
    cbn [app read_csv_from]. rewrite Ascii.eqb_refl.
    rewrite (IH ltac:(discriminate) (cells ++ [cell]) tail Htail).
    rewrite <- !app_assoc. reflexivity.
Qed.

Lemma read_rows rows :
  rows <> [] -> Forall (fun row => row <> []) rows ->
  forall done,
    read_csv_from FieldStart done [] [] (csvContent rows) = done ++ rows.
Proof.
  unfold csvContent.
  induction rows as [|row rows IH]; [easy|]. intros _ Hall done.
  apply Forall_cons in Hall as [Hrow Hall].
  destruct rows as [|row' rows].
  - cbn [map join].
    rewrite <- (app_nil_r (join _ _)). rewrite (read_row done row Hrow [] []) by now left.
    reflexivity.
  - change (join [newline] (map (fun row => join [","%char] (map csv_cell row))
                              (row :: row' :: rows)))
      with (join [","%char] (map csv_cell row)
              ++ newline :: join [newline]
                              (map (fun row => join [","%char] (map csv_cell row))
                                 (row' :: rows))).
    rewrite (read_row done row Hrow []) by (right; eauto).
    rewrite (IH ltac:(discriminate) Hall). cbn [app]. rewrite <- app_assoc. reflexivity.
Qed.

(** X25: the CSV text written for a table can be read back: for a table
    with at least one row and no row without cells, reading the text as
    comma-separated records ended by line feeds, with quoted fields, gives
    the table again, whatever characters the cells hold.  So two such tables
    with the same text are the same table. *)
Theorem csvContent_reads_back (rows : list (list (list ascii))) :
  rows <> [] -> Forall (fun row => row <> []) rows ->
  read_csv (csvContent rows) = rows
  /\ forall rows', rows' <> [] -> Forall (fun row => row <> []) rows' ->
       csvContent rows' = csvContent rows -> rows' = rows.
Proof.
  intros Hne Hall. split; [exact (read_rows rows Hne Hall [])|].
  intros rows' Hne' Hall' Heq.
  pose proof (read_rows rows' Hne' Hall' []) as H1.
  pose proof (read_rows rows Hne Hall []) as H2.
  cbn [app] in H1, H2. congruence.
Qed.

Lemma csvContent_reads_back_witness :
  sample_sheet <> []
  /\ Forall (fun row => row <> []) sample_sheet
  /\ read_csv (csvContent sample_sheet) = sample_sheet.
Proof.
  assert (Hne : sample_sheet <> []) by discriminate.
  assert (Hall : Forall (fun row => row <> []) sample_sheet)
    by (repeat constructor; discriminate).
  split; [exact Hne|]. split; [exact Hall|].
  exact (proj1 (csvContent_reads_back sample_sheet Hne Hall)).
Defined.

(** * TestCaseService.importTestCases: line breaks of rich text *)

Lemma has_tag_br a b : has_tag (a ++ br ++ b) = true.
Proof.
  induction a as [|c a IH]; [reflexivity|].
  cbn [app has_tag]. rewrite IH. apply orb_true_r.
Qed.

Lemma replace_all_app c by_ s1 s2 :
  replace_all c by_ (s1 ++ s2) = replace_all c by_ s1 ++ replace_all c by_ s2.
Proof. unfold replace_all. apply flat_map_app. Qed.

Lemma replace_all_absent c by_ s :
  includes c s = false -> replace_all c by_ s = s.
Proof.
  induction s as [|x s IH]; [reflexivity|]. cbn [includes existsb].
  intros H. apply orb_false_elim in H as [Hx Hs].
  unfold replace_all. cbn [flat_map]. rewrite Hx. cbn [app]. f_equal. now apply IH.
Qed.

Lemma replace_crlf_pair c c' s :
  replace_crlf (c :: c' :: s)
  = if Ascii.eqb c creturn && Ascii.eqb c' newline
    then br ++ replace_crlf s
    else c :: replace_crlf (c' :: s).
Proof. reflexivity. Qed.

Lemma replace_crlf_absent s : includes newline s = false -> replace_crlf s = s.
Proof.
  induction s as [|c s IH]; [reflexivity|]. cbn [includes existsb].
  intros H. apply orb_false_elim in H as [Hc Hs].
  destruct s as [|c' s']; [reflexivity|]. rewrite replace_crlf_pair.
  pose proof Hs as Hs0.
  cbn [includes existsb] in Hs. apply orb_false_elim in Hs as [Hc' Hs'].
  rewrite Hc', andb_false_r. f_equal. now apply IH.
Qed.

Lemma replace_crlf_keeps_break s :
  includes newline s = true ->
  includes newline (replace_crlf s) = true
  \/ exists a b, replace_crlf s = a ++ br ++ b.
Proof.
  induction s as [|c s IH]; [discriminate|].
  destruct s as [|c' s'].
  - cbn. now left.
  - rewrite replace_crlf_pair.
    destruct (Ascii.eqb c creturn && Ascii.eqb c' newline) eqn:E.
    + intros _. right. exists [], (replace_crlf s'). reflexivity.
    + cbn [includes existsb]. intros H.
      destruct (Ascii.eqb c newline) eqn:Hc; [now left|]. cbn [orb] in H |- *.
      destruct (IH H) as [Hn|(a & b & Hab)]; [now left|].
      right. exists (c :: a), b. now rewrite Hab.
Qed.

Lemma replace_newline_break s :
  includes newline s = true ->
  exists a b, replace_all newline "<br>" s = a ++ br ++ b.
Proof.
  induction s as [|c s IH]; [discriminate|]. cbn [includes existsb].
  unfold replace_all. cbn [flat_map]. fold (replace_all newline "<br>" s).
  destruct (Ascii.eqb c newline) eqn:Hc.
  - intros _. exists [], (replace_all newline "<br>" s). reflexivity.
  - cbn [orb]. intros H. destruct (IH H) as (a & b & Hab).
    exists (c :: a), b. cbn [app]. now rewrite Hab.
Qed.

Lemma replace_newline_clean s : includes newline (replace_all newline "<br>" s) = false.
Proof.
  induction s as [|c s IH]; [reflexivity|].
  unfold replace_all. cbn [flat_map]. fold (replace_all newline "<br>" s).
  destruct (Ascii.eqb c newline) eqn:Hc.
  - unfold includes in *. rewrite existsb_app, IH. reflexivity.
  - cbn [app includes existsb]. rewrite Hc. exact IH.
Qed.

(** X26: converting line breaks a second time changes nothing; a text
    without line feed is returned as it is; and a text in which no HTML tag
    is found comes back without any line feed. *)
Theorem convertNewlinesToBr_idempotent (text : list ascii) :
  convertNewlinesToBr (convertNewlinesToBr text) = convertNewlinesToBr text
  /\ (includes newline text = false -> convertNewlinesToBr text = text)
  /\ (has_tag text = false -> includes newline (convertNewlinesToBr text) = false).
Proof.
  assert (Hsame : includes newline text = false -> convertNewlinesToBr text = text).
  { intros Hn. unfold convertNewlinesToBr. destruct text as [|c t]; [reflexivity|].
    destruct (has_tag (c :: t)); [reflexivity|].
    rewrite (replace_crlf_absent _ Hn). now apply replace_all_absent. }
  assert (Hfix : forall t, has_tag t = true -> convertNewlinesToBr t = t).
  { intros t Ht. unfold convertNewlinesToBr. destruct t; [reflexivity|]. now rewrite Ht. }
  split; [|split; [exact Hsame|]].
  - destruct (includes newline text) eqn:Hn; [|now rewrite !(Hsame eq_refl)].
    destruct (has_tag text) eqn:Ht; [now rewrite !(Hfix text Ht)|].
    apply Hfix. unfold convertNewlinesToBr.
    destruct text as [|c t]; [discriminate|]. rewrite Ht.
    destruct (replace_crlf_keeps_break _ Hn) as [Hn'|(a & b & Hab)].
    + destruct (replace_newline_break _ Hn') as (a & b & ->). apply has_tag_br.
    + rewrite Hab, !replace_all_app.
      rewrite (replace_all_absent newline "<br>" br) by reflexivity.
      apply has_tag_br.
  - intros Ht. unfold convertNewlinesToBr. destruct text as [|c t]; [reflexivity|].
    rewrite Ht. apply replace_newline_clean.
Qed.

Lemma convertNewlinesToBr_idempotent_witness :
  has_tag sample_steps = false
  /\ includes newline (convertNewlinesToBr sample_steps) = false
  /\ convertNewlinesToBr sample_steps
     = list_ascii_of_string "open<br>type<br>send".
Proof.
  assert (Ht : has_tag sample_steps = false) by reflexivity.
  split; [exact Ht|]. split.
  - exact (proj2 (proj2 (convertNewlinesToBr_idempotent sample_steps)) Ht).
  - reflexivity.
Defined.

(** * frontend/src/pages/CreatePlanPage.tsx: sections *)

Lemma FolderTreeItem_tree_ind (P : FolderTreeItem -> Prop) :
  (forall id name children, Forall P children -> P (FolderItem id name children)) ->
  forall f, P f.
Proof.
  intros H. fix IH 1. intros [id name children]. apply H.
  induction children as [|c cs IHcs]; constructor; [apply IH|exact IHcs].
Qed.

Lemma map_flat_map {A B C} (g : B -> C) (f : A -> list B) (l : list A) :
  map g (flat_map f l) = flat_map (fun x => map g (f x)) l.
Proof.
  induction l as [|x l IH]; [reflexivity|]. cbn [flat_map]. now rewrite map_app, IH.
Qed.

Lemma filter_flat_map {A B} (P : B -> Prop) `{!forall x, Decision (P x)}
    (f : A -> list B) (l : list A) :
  filter P (flat_map f l) = flat_map (fun x => filter P (f x)) l.
Proof.
  induction l as [|x l IH]; [reflexivity|]. cbn [flat_map]. now rewrite filter_app, IH.
Qed.

Lemma flat_map_Forall_ext {A B} (f g : A -> list B) (l : list A) :
  Forall (fun x => f x = g x) l -> flat_map f l = flat_map g l.
Proof. induction 1 as [|x l Hx _ IH]; [reflexivity|]. cbn. now rewrite Hx, IH. Qed.

Lemma flat_map_Forall_nil {A B} (f : A -> list B) (l : list A) :
  Forall (fun x => f x = []) l -> flat_map f l = [].
Proof. induction 1 as [|x l Hx _ IH]; [reflexivity|]. cbn. now rewrite Hx, IH. Qed.

Lemma flat_map_flat_map {A B C} (f : B -> list C) (g : A -> list B) (l : list A) :
  flat_map f (flat_map g l) = flat_map (fun x => flat_map f (g x)) l.
Proof.
  induction l as [|x l IH]; [reflexivity|].
  cbn [flat_map]. now rewrite flat_map_app, IH.
Qed.

Lemma tree_nodes_self f : f ∈ tree_nodes f.
Proof. destruct f. cbn. left. Qed.

Lemma elem_of_flat_map {A B} (f : A -> list B) (l : list A) (y : B) :
  y ∈ flat_map f l <-> exists x, x ∈ l /\ y ∈ f x.
Proof.
  rewrite list_elem_of_In, in_flat_map. split; intros (x & Hx & Hy); exists x;
    (split; [now apply list_elem_of_In|now apply list_elem_of_In]).
Qed.

Lemma tree_nodes_trans t :
  forall f g, f ∈ tree_nodes t -> g ∈ tree_nodes f -> g ∈ tree_nodes t.
Proof.
  induction t as [id name children IH] using FolderTreeItem_tree_ind.
  intros f g Hf Hg. cbn [tree_nodes] in Hf.
  apply elem_of_cons in Hf as [->|Hf]; [exact Hg|].
  cbn [tree_nodes]. right.
  apply elem_of_flat_map in Hf as (c & Hc & Hf). apply elem_of_flat_map.
  exists c. split; [exact Hc|]. rewrite Forall_forall in IH. exact (IH c Hc f g Hf Hg).
Qed.

Lemma folder_sections_ids testCases f :
  forall parentId depth,
    map PlanSection.id (folder_sections testCases parentId depth f)
    = map item_id (tree_nodes f).
Proof.
  induction f as [id name children IH] using FolderTreeItem_tree_ind.
  intros parentId depth. cbn [folder_sections tree_nodes map PlanSection.id item_id].
  f_equal. rewrite !map_flat_map. apply flat_map_Forall_ext.
  eapply Forall_impl; [exact IH|]. intros c Hc. apply Hc.
Qed.

Lemma folder_sections_filed testCases f :
  forall parentId depth s,
    s ∈ folder_sections testCases parentId depth f ->
    PlanSection.testCases s
    = filter (fun tc => TestCaseRow.folderId tc = Some (PlanSection.id s)) testCases.
Proof.
  induction f as [id name children IH] using FolderTreeItem_tree_ind.
  intros parentId depth s Hs. cbn [folder_sections] in Hs.
  apply elem_of_cons in Hs as [->|Hs]; [reflexivity|].
  apply elem_of_flat_map in Hs as (c & Hc & Hs).
  rewrite Forall_forall in IH. exact (IH c Hc _ _ s Hs).
Qed.

(** No section of a tree has a parent that is not a folder of the tree,
    the parent given to the tree apart. *)
Lemma no_child_sections testCases f :
  forall parentId depth x,
    parentId <> Some x -> x ∉ map item_id (tree_nodes f) ->
    filter (fun s => PlanSection.parentId s = Some x)
      (folder_sections testCases parentId depth f) = [].
Proof.
  induction f as [id name children IH] using FolderTreeItem_tree_ind.
  intros parentId depth x Hp Hx. cbn [folder_sections].
  rewrite filter_cons_False by exact Hp.
  rewrite filter_flat_map. apply flat_map_Forall_nil.
  rewrite Forall_forall in IH |- *. intros c Hc. apply (IH c Hc).
  - intros [= ->]. apply Hx. cbn. left.
  - intros Hin. apply Hx. cbn [tree_nodes map]. right.
    rewrite map_flat_map. apply elem_of_flat_map. eauto.
Qed.

Lemma no_child_sections_forest testCases folders parentId depth x :
  parentId <> Some x -> x ∉ map item_id (forest_nodes folders) ->
  filter (fun s => PlanSection.parentId s = Some x)
    (flat_map (folder_sections testCases parentId depth) folders) = [].
Proof.
  intros Hp Hx. rewrite filter_flat_map. apply flat_map_Forall_nil.
  apply Forall_forall. intros c Hc. apply no_child_sections; [exact Hp|].
  intros Hin. apply Hx. unfold forest_nodes. rewrite map_flat_map.
  apply elem_of_flat_map. eauto.
Qed.

Lemma own_child_section testCases c depth x :
  x ∉ map item_id (tree_nodes c) ->
  map PlanSection.id
    (filter (fun s => PlanSection.parentId s = Some x)
       (folder_sections testCases (Some x) depth c))
  = [item_id c].
Proof.
  destruct c as [cid cname cchildren]. intros Hx. cbn [folder_sections].
  rewrite filter_cons_True by reflexivity. cbn [map PlanSection.id item_id]. f_equal.
  rewrite (no_child_sections_forest testCases cchildren (Some cid) (S depth) x);
    [reflexivity| |].
  - intros [= ->]. apply Hx. cbn. left.
  - intros Hin. apply Hx. cbn [tree_nodes map]. now right.
Qed.

Lemma child_sections_forest testCases folders :
  Forall (fun t => forall parentId depth g,
            NoDup (map item_id (tree_nodes t)) -> g ∈ tree_nodes t ->
            parentId <> Some (item_id g) ->
            map PlanSection.id
              (filter (fun s => PlanSection.parentId s = Some (item_id g))
                 (folder_sections testCases parentId depth t))
            = map item_id (item_children g)) folders ->
  forall parentId depth g,
    NoDup (map item_id (forest_nodes folders)) -> g ∈ forest_nodes folders ->
    parentId <> Some (item_id g) ->
    map PlanSection.id
      (filter (fun s => PlanSection.parentId s = Some (item_id g))
         (flat_map (folder_sections testCases parentId depth) folders))
    = map item_id (item_children g).
Proof.
  induction 1 as [|t folders Ht _ IH]; intros parentId depth g Hnd Hg Hp;
    [inversion Hg|].
  unfold forest_nodes in Hnd, Hg. cbn [flat_map] in Hnd, Hg |- *.
  rewrite map_app in Hnd. apply NoDup_app in Hnd as (Hnd1 & Hdisj & Hnd2).
  rewrite filter_app, map_app.
  apply elem_of_app in Hg as [Hg|Hg].
  - rewrite (Ht parentId depth g Hnd1 Hg Hp).
    rewrite (no_child_sections_forest testCases folders parentId depth (item_id g) Hp).
    + now rewrite app_nil_r.
    + apply Hdisj. now apply list_elem_of_fmap_2.
  - rewrite (no_child_sections testCases t parentId depth (item_id g) Hp).
    + now apply IH.
    + intros Hin. apply (Hdisj _ Hin). now apply list_elem_of_fmap_2.
Qed.

Lemma child_sections testCases t :
  forall parentId depth g,
    NoDup (map item_id (tree_nodes t)) -> g ∈ tree_nodes t ->
    parentId <> Some (item_id g) ->
    map PlanSection.id
      (filter (fun s => PlanSection.parentId s = Some (item_id g))
         (folder_sections testCases parentId depth t))
    = map item_id (item_children g).
Proof.
  induction t as [id name children IH] using FolderTreeItem_tree_ind.
  intros parentId depth g Hnd Hg Hp.
  cbn [tree_nodes map item_id] in Hnd. apply NoDup_cons in Hnd as [Hid Hnd].
  cbn [folder_sections]. rewrite filter_cons_False by exact Hp.
  cbn [tree_nodes] in Hg. apply elem_of_cons in Hg as [->|Hg].
  - cbn [item_id item_children].
    rewrite filter_flat_map, map_flat_map.
    rewrite (flat_map_Forall_ext _ (fun c => [item_id c])).
    + clear. induction children as [|c cs IHc]; [reflexivity|]. cbn. now rewrite IHc.
    + apply Forall_forall. intros c Hc. apply own_child_section.
      intros Hin. apply Hid. rewrite map_flat_map. apply elem_of_flat_map. eauto.
  - apply (child_sections_forest testCases children IH); [exact Hnd|exact Hg|].
    intros [= Heq]. apply Hid. rewrite Heq. now apply list_elem_of_fmap_2.
Qed.

Lemma fold_children_ids fuel sections (R : FolderTreeItem -> list string) children :
  Forall (fun c => getAllTestCaseIdsInSectionAndDescendants fuel (item_id c) sections
                   = Some (R c)) children ->
  forall (childSections : list PlanSection.t) ids,
    map PlanSection.id childSections = map item_id children ->
    fold_left
      (fun running child =>
         match running with
         | Some ids =>
             match getAllTestCaseIdsInSectionAndDescendants fuel
                     (PlanSection.id child) sections with
             | Some more => Some (ids ++ more)
             | None => None
             end
         | None => None
         end) childSections (Some ids)
    = Some (ids ++ flat_map R children).
Proof.
  induction 1 as [|c children Hc _ IH]; intros [|s childSections] ids Hmap;
    try discriminate.
  - cbn. now rewrite app_nil_r.
  - injection Hmap as Hs Hmap. cbn [fold_left flat_map].
    rewrite Hs, Hc. rewrite (IH childSections (ids ++ R c) Hmap).
    now rewrite <- app_assoc.
Qed.

Lemma collected_from_sections testCases sections f :
  (forall g, g ∈ tree_nodes f ->
     (exists s, find (fun s => String.eqb (PlanSection.id s) (item_id g)) sections
                = Some s
                /\ PlanSection.testCases s
                   = filter (fun tc => TestCaseRow.folderId tc = Some (item_id g))
                       testCases)
     /\ map PlanSection.id
          (filter (fun s => PlanSection.parentId s = Some (item_id g)) sections)
        = map item_id (item_children g)) ->
  forall fuel, (tree_height f <= fuel)%nat ->
    getAllTestCaseIdsInSectionAndDescendants fuel (item_id f) sections
    = Some (cases_filed testCases (map item_id (tree_nodes f))).
Proof.
  induction f as [id name children IH] using FolderTreeItem_tree_ind.
  intros Hnodes fuel Hfuel. cbn [tree_height] in Hfuel.
  destruct fuel as [|fuel]; [lia|].
  cbn [getAllTestCaseIdsInSectionAndDescendants item_id].
  destruct (Hnodes _ (tree_nodes_self _)) as [(s & Hfind & Hs) Hchildren].
  cbn [item_id item_children] in Hfind, Hs, Hchildren. rewrite Hfind, Hs.
  rewrite (fold_children_ids fuel sections
             (fun c => cases_filed testCases (map item_id (tree_nodes c))) children).
  - f_equal. cbn [tree_nodes map item_id]. unfold cases_filed. cbn [flat_map].
    f_equal. rewrite map_flat_map, flat_map_flat_map. reflexivity.
  - rewrite Forall_forall in IH |- *. intros c Hc. apply (IH c Hc).
    + intros g Hg. apply Hnodes. cbn [tree_nodes]. right.
      apply elem_of_flat_map. eauto.
    + assert (Hle : (list_max (map tree_height children) <= fuel)%nat) by lia.
      apply list_max_le in Hle. rewrite Forall_forall in Hle. apply Hle.
      now apply (list_elem_of_fmap_2 tree_height).
  - exact Hchildren.
Qed.

Lemma root_section_parent testCases x :
  filter (fun s => PlanSection.parentId s = Some x) (root_section testCases) = [].
Proof. unfold root_section. destruct (0 <? _)%nat; reflexivity. Qed.

Lemma find_section testCases folders x :
  x <> "root"%string -> x ∈ map item_id (forest_nodes folders) ->
  exists s,
    find (fun s => String.eqb (PlanSection.id s) x)
      (buildSections folders testCases None 0) = Some s
    /\ PlanSection.testCases s
       = filter (fun tc => TestCaseRow.folderId tc = Some x) testCases.
Proof.
  intros Hroot Hx. unfold buildSections.
  set (secs := flat_map (folder_sections testCases None 0) folders).
  assert (Hskip : find (fun s => String.eqb (PlanSection.id s) x)
                    (root_section testCases ++ secs)
                  = find (fun s => String.eqb (PlanSection.id s) x) secs).
  { unfold root_section. destruct (0 <? _)%nat; [|reflexivity].
    cbn [app find PlanSection.id].
    destruct (String.eqb_spec "root" x) as [E|_]; [now contradiction Hroot|reflexivity]. }
  rewrite Hskip.
  destruct (find (fun s => String.eqb (PlanSection.id s) x) secs) as [s|] eqn:Hfind.
  - exists s. split; [reflexivity|].
    apply find_some in Hfind as [Hin Heq]. apply String.eqb_eq in Heq. subst x.
    apply list_elem_of_In in Hin. apply elem_of_flat_map in Hin as (t & _ & Hin).
    exact (folder_sections_filed _ _ _ _ _ Hin).
  - exfalso.
    assert (Hids : map PlanSection.id secs = map item_id (forest_nodes folders)).
    { unfold secs, forest_nodes. rewrite !map_flat_map. apply flat_map_Forall_ext.
      apply Forall_forall. intros t _. apply folder_sections_ids. }
    rewrite <- Hids in Hx. apply list_elem_of_fmap in Hx as (s & -> & Hs).
    apply list_elem_of_In in Hs.
    pose proof (find_none _ _ Hfind s Hs) as Hno. cbn in Hno.
    now rewrite String.eqb_refl in Hno.
Qed.

(** X27: for the sections built from a tree of folders whose ids are
    distinct and none of which is [root], collecting the test cases of the
    section of a folder returns, once the fuel reaches the height of the
    folder, the ids of the cases filed in that folder and in the folders
    under it, folder by folder, parents first. *)
Theorem collected_ids_of_built_sections folders testCases f fuel :
  NoDup (map item_id (forest_nodes folders)) ->
  "root"%string ∉ map item_id (forest_nodes folders) ->
  f ∈ forest_nodes folders ->
  (tree_height f <= fuel)%nat ->
  getAllTestCaseIdsInSectionAndDescendants fuel (item_id f)
    (buildSections folders testCases None 0)
  = Some (cases_filed testCases (map item_id (tree_nodes f))).
Proof.
  intros Hnd Hroot Hf Hfuel.
  apply collected_from_sections; [|exact Hfuel].
  intros g Hg.
  assert (Hgin : g ∈ forest_nodes folders).
  { unfold forest_nodes in *. apply elem_of_flat_map in Hf as (t & Ht & Hf).
    apply elem_of_flat_map. exists t. split; [exact Ht|].
    exact (tree_nodes_trans t f g Hf Hg). }
  assert (Hid : item_id g ∈ map item_id (forest_nodes folders))
    by now apply list_elem_of_fmap_2.
  split.
  - apply find_section; [|exact Hid]. intros E. apply Hroot. now rewrite <- E.
  - unfold buildSections. rewrite filter_app, root_section_parent. cbn [app].
    apply child_sections_forest; [|exact Hnd|exact Hgin|discriminate].
    apply Forall_forall. intros t _ parentId depth g0. apply child_sections.
Qed.

Lemma collected_ids_of_built_sections_witness :
  NoDup (map item_id (forest_nodes sample_folders))
  /\ getAllTestCaseIdsInSectionAndDescendants 2 "a"
       (buildSections sample_folders (testCases sample_tables) None 0)
     = Some ["t1"; "t2"; "t3"]%string.
Proof.
  assert (Hnd : NoDup (map item_id (forest_nodes sample_folders))) by compute_done.
  split; [exact Hnd|].
  apply (collected_ids_of_built_sections sample_folders (testCases sample_tables)
           (FolderItem "a" "A" [FolderItem "b" "B" []]) 2 Hnd).
  - compute_done.
  - left.
  - cbn. lia.
Defined.

Lemma root_section_cases testCases :
  flat_map PlanSection.testCases (root_section testCases)
  = filter (fun tc => truthy_id (TestCaseRow.folderId tc) = false) testCases.
Proof.
  unfold root_section.
  destruct (filter (fun tc => truthy_id (TestCaseRow.folderId tc) = false) testCases)
    as [|tc l]; [reflexivity|]. cbn. now rewrite app_nil_r.
Qed.

Lemma folder_sections_cases testCases f :
  forall parentId depth,
    flat_map PlanSection.testCases (folder_sections testCases parentId depth f)
    = flat_map (fun g => filter (fun tc => TestCaseRow.folderId tc = Some g) testCases)
        (map item_id (tree_nodes f)).
Proof.
  induction f as [id name children IH] using FolderTreeItem_tree_ind.
  intros parentId depth.
  cbn [folder_sections tree_nodes map item_id flat_map PlanSection.testCases].
  f_equal. rewrite map_flat_map, !flat_map_flat_map. apply flat_map_Forall_ext.
  eapply Forall_impl; [exact IH|]. intros c Hc. apply Hc.
Qed.

Lemma in_folders_Some ids tc :
  in_folders (Some ids) tc <->
  exists g, TestCaseRow.folderId tc = Some g /\ g ∈ ids.
Proof.
  unfold in_folders. destruct (TestCaseRow.folderId tc) as [g|].
  - split; [eauto|]. now intros (g0 & [= <-] & Hin).
  - split; [easy|]. now intros (g0 & E & _).
Qed.

Lemma filed_once (folderIds : list string) (testCases : list TestCaseRow.t) :
  NoDup folderIds ->
  flat_map (fun g => filter (fun tc => TestCaseRow.folderId tc = Some g) testCases)
    folderIds
  ≡ₚ filter (in_folders (Some folderIds)) testCases.
Proof.
  intros Hnd. induction testCases as [|tc testCases IH].
  - cbn. apply Permutation_refl'. clear. induction folderIds as [|g l IHl];
      [reflexivity|exact IHl].
  - assert (Hstep : flat_map
                      (fun g => filter (fun tc => TestCaseRow.folderId tc = Some g)
                                  (tc :: testCases)) folderIds
                    ≡ₚ (if decide (in_folders (Some folderIds) tc)
                        then [tc] else [])
                       ++ flat_map
                            (fun g => filter
                                        (fun tc => TestCaseRow.folderId tc = Some g)
                                        testCases) folderIds).
    { clear IH. induction Hnd as [|g l Hg Hnd IHl].
      - cbn. destruct (decide _) as [Hin|_]; [|reflexivity].
        apply in_folders_Some in Hin as (g & _ & Hin). inversion Hin.
      - cbn [flat_map]. rewrite IHl. clear IHl.
        destruct (decide (TestCaseRow.folderId tc = Some g)) as [E|E].
        + rewrite filter_cons_True by exact E.
          destruct (decide (in_folders (Some l) tc)) as [H0|_].
          { exfalso. apply in_folders_Some in H0 as (g0 & E0 & Hin0).
            rewrite E in E0. injection E0 as <-. contradiction. }
          destruct (decide _) as [_|Hno].
          * cbn [app]. reflexivity.
          * exfalso. apply Hno. apply in_folders_Some. exists g. split; [exact E|left].
        + rewrite filter_cons_False by exact E.
          destruct (decide (in_folders (Some l) tc)) as [H0|Hno0].
          * apply in_folders_Some in H0 as (g0 & E0 & Hin0).
            destruct (decide _) as [_|Hno].
            -- cbn [app]. symmetry. apply Permutation_middle.
            -- exfalso. apply Hno. apply in_folders_Some.
               exists g0. split; [exact E0|now right].
          * destruct (decide _) as [H0|_]; [|reflexivity].
            exfalso. apply in_folders_Some in H0 as (g0 & E0 & Hin0).
            apply elem_of_cons in Hin0 as [->|Hin0]; [contradiction|].
            apply Hno0. apply in_folders_Some. eauto. }
    rewrite Hstep, IH.
    destruct (decide _) as [Hyes|Hno].
    + now rewrite filter_cons_True by exact Hyes.
    + now rewrite filter_cons_False by exact Hno.
Qed.

(** X28: when the ids of the folders of the tree are distinct and none is
    the empty string, the sections built show every test case at most once:
    taken together, the cases of the sections are the test cases that have
    no folder or are filed in a folder of the tree, each as often as it is
    given.  A case filed in a folder that the tree lacks is in no section. *)
Theorem buildSections_shows_each_case_once folders testCases :
  NoDup (map item_id (forest_nodes folders)) ->
  EmptyString ∉ map item_id (forest_nodes folders) ->
  flat_map PlanSection.testCases (buildSections folders testCases None 0)
  ≡ₚ filter (in_some_section (map item_id (forest_nodes folders))) testCases.
Proof.
  intros Hnd Hempty. unfold buildSections.
  rewrite flat_map_app, root_section_cases, flat_map_flat_map.
  rewrite (flat_map_Forall_ext _
             (fun t => flat_map
                         (fun g => filter (fun tc => TestCaseRow.folderId tc = Some g)
                                     testCases)
                         (map item_id (tree_nodes t))));
    [|apply Forall_forall; intros t _; apply folder_sections_cases].
  rewrite <- flat_map_flat_map, <- map_flat_map.
  fold (forest_nodes folders). rewrite (filed_once _ testCases Hnd).
  set (ids := map item_id (forest_nodes folders)) in *.
  clear Hnd. induction testCases as [|tc testCases IH]; [reflexivity|].
  assert (Hcases :
    (truthy_id (TestCaseRow.folderId tc) = false
     /\ ~ in_folders (Some ids) tc
     /\ in_some_section ids tc)
    \/ (truthy_id (TestCaseRow.folderId tc) <> false
        /\ (in_folders (Some ids) tc <-> in_some_section ids tc))).
  { unfold in_some_section, in_folders.
    destruct (TestCaseRow.folderId tc) as [g|] eqn:Eg.
    - destruct (truthy_id (Some g)) eqn:Et.
      + right. split; [discriminate|]. reflexivity.
      + left. split; [reflexivity|]. split; [|exact I].
        intros Hin. apply Hempty.
        cbn in Et. apply negb_false_iff, String.eqb_eq in Et. now rewrite <- Et.
    - left. split; [reflexivity|]. split; [easy|exact I]. }
  destruct Hcases as [(Hf & Hno & Hyes)|(Hf & Hiff)].
  - rewrite (filter_cons_True
               (fun tc => truthy_id (TestCaseRow.folderId tc) = false) tc _ Hf),
      (filter_cons_False (in_folders (Some ids)) tc _ Hno),
      (filter_cons_True (in_some_section ids) tc _ Hyes).
    cbn [app]. now rewrite IH.
  - rewrite (filter_cons_False
               (fun tc => truthy_id (TestCaseRow.folderId tc) = false) tc _ Hf).
    destruct (decide (in_some_section ids tc)) as [Hyes|Hno].
    + rewrite (filter_cons_True (in_folders (Some ids)) tc _ (proj2 Hiff Hyes)),
        (filter_cons_True (in_some_section ids) tc _ Hyes).
      rewrite <- Permutation_middle. now rewrite IH.
    + rewrite (filter_cons_False (in_folders (Some ids)) tc _
                 (fun H => Hno (proj1 Hiff H))),
        (filter_cons_False (in_some_section ids) tc _ Hno).
      exact IH.
Qed.

Lemma buildSections_shows_each_case_once_witness :
  NoDup (map item_id (forest_nodes sample_folders))
  /\ flat_map PlanSection.testCases
       (buildSections sample_folders (testCases sample_tables) None 0)
     ≡ₚ filter (in_some_section (map item_id (forest_nodes sample_folders)))
          (testCases sample_tables).
Proof.
  assert (Hnd : NoDup (map item_id (forest_nodes sample_folders))) by compute_done.
  split; [exact Hnd|].
  apply (buildSections_shows_each_case_once sample_folders (testCases sample_tables) Hnd).
  compute_done.
Defined.
